(** * MaidSafe-Routing: the routing node

    A shallow embedding of [include/maidsafe/routing/routing_node.h]
    (class template [RoutingNode<Child>]) and the properties of its
    forwarding engine, handshake and authority classifier, together
    with the account types of [tests/routing_network_init_test.cc].  The
    file has three parts: the program, the vocabulary the properties
    are stated in, and the proofs.

    Conventions.
    - Node identifiers ([Address], [NodeId], [Identity]) are 512-bit
      values, kept as [N].
    - [message_id_] is a [uint32_t]; it is kept as a [Z] and the
      wrap-around of [++message_id_] is written out.
    - The member functions mutate the node, talk to the connection
      manager and call up into [Child].  They are written in a small
      monad [M]: the node is threaded as state, every call that leaves
      the node is recorded in a log of [Effect]s, and a run ends by
      returning, by throwing, or in a failed [assert].
    - Completion handlers (the lambdas given to [Connect], [AddNode] and
      [AddNodeAccept]) are separate functions, run when the transport
      completes.
    - The steady clock read by the LRU caches is an explicit argument
      [now], in seconds. *)

From Stdlib Require Import ZArith NArith List Bool Lia.
From stdpp Require Import base decidable option list gmap.

Local Open Scope Z_scope.

(** ** Identifiers, endpoints, keys *)

Abbreviation Address := N (only parsing).
Abbreviation Identity := N (only parsing).
Abbreviation MessageId := Z (only parsing).
Abbreviation DataTagValue := N (only parsing).

(** [using SerialisedData = std::vector<unsigned char>]: an encoded data
    element, opaque to routing. *)
Abbreviation SerialisedData := (list N) (only parsing).

Record Endpoint := { address : N; port : N }.

Record EndpointPair := { local : Endpoint; external : Endpoint }.

(** [EndpointPair()] *)
Definition EndpointPair_default : EndpointPair :=
  {| local := {| address := 0%N; port := 0%N |};
     external := {| address := 0%N; port := 0%N |} |}.

Record Pmid := { name : Address; public_key : N; private_key : N }.

Record PublicPmid := { public_name : Address; public_value : N }.

(** [passport::PublicPmid(our_fob_)] *)
Definition PublicPmid_of (fob : Pmid) : PublicPmid :=
  {| public_name := name fob; public_value := public_key fob |}.

Definition SerialisePublicPmid (p : PublicPmid) : SerialisedData :=
  [public_name p; public_value p].

Record Contact := { contact_id : Address; endpoint_pair : EndpointPair }.

#[global] Instance Endpoint_eq_dec : EqDecision Endpoint.
Proof. solve_decision. Defined.

#[global] Instance EndpointPair_eq_dec : EqDecision EndpointPair.
Proof. solve_decision. Defined.

#[global] Instance Contact_eq_dec : EqDecision Contact.
Proof. solve_decision. Defined.

Record NodeInfo := { id : Address; dht_fob : PublicPmid; connected : bool }.

Record CloseGroupDifference := { new_nodes : list Address; lost_nodes : list Address }.

(** ** Message header *)

Inductive Authority :=
| client | node | client_manager | nae_manager | node_manager | managed_node.

Inductive MessageTypeTag :=
| TagConnect | TagConnectResponse | TagFindGroup | TagFindGroupResponse
| TagGetData | TagGetDataResponse | TagPutData | TagPutDataResponse
| TagPost | TagPostResponse.

#[global] Instance Authority_eq_dec : EqDecision Authority.
Proof. solve_decision. Defined.

#[global] Instance MessageTypeTag_eq_dec : EqDecision MessageTypeTag.
Proof. solve_decision. Defined.

(** [SourceAddress]: the sender's node address, the group it speaks for
    and the address replies are relayed to. *)
Record SourceAddress := {
  node_address : Address;
  group_address : option Address;
  reply_to_address : option Address
}.

(** [DestinationAddress = std::pair<Destination, boost::optional<ReplyToAddress>>] *)
Record DestinationAddress := {
  first : Address;
  second : option Address
}.

(** ** Message bodies *)

Record Connect := {
  connect_requester_endpoints : EndpointPair;
  connect_requester_id : Address;
  connect_receiver_id : Address;
  connect_requester_fob : PublicPmid
}.

Record ConnectResponse := {
  response_requester_endpoints : EndpointPair;
  response_receiver_endpoints : EndpointPair;
  response_requester_id : Address;
  response_receiver_id : Address;
  response_receiver_fob : PublicPmid
}.

Record FindGroup := {
  find_group_requester_id : Address;
  find_group_target_id : Address
}.

Record FindGroupResponse := {
  find_group_response_target_id : Address;
  group : list PublicPmid
}.

Record GetData := {
  get_data_tag : DataTagValue;
  get_data_name : Identity;
  get_data_requester : SourceAddress
}.

Record GetDataResponse := {
  get_data_response_name : Identity;
  data : option SerialisedData
}.

Record PutData := {
  put_data_tag : DataTagValue;
  put_data_payload : SerialisedData
}.

(** [routing::Post] *)
Record PostMessage := {
  post_tag : DataTagValue;
  post_payload : SerialisedData
}.

Inductive MessageBody :=
| BodyConnect (m : Connect)
| BodyConnectResponse (m : ConnectResponse)
| BodyFindGroup (m : FindGroup)
| BodyFindGroupResponse (m : FindGroupResponse)
| BodyGetData (m : GetData)
| BodyGetDataResponse (m : GetDataResponse)
| BodyPutData (m : PutData)
| BodyPost (m : PostMessage).

(** [asymm::Sign(Serialise(body), private_key)], kept symbolic. *)
Record Signature := { signed_body : MessageBody; signing_key : N }.

Record MessageHeader := {
  destination_ : DestinationAddress;
  source_ : SourceAddress;
  header_message_id_ : MessageId;
  authority_ : Authority;
  signature_ : option Signature
}.

(** Modelled from the spec: the accessors of [MessageHeader]
    ([message_header.h] is not under src/), from the data model: the
    destination is a target with an optional reply-to identifier used
    for relay replies, and the filter key is (origin identifier,
    message id). *)
Definition Destination (h : MessageHeader) : DestinationAddress := destination_ h.
Definition Source (h : MessageHeader) : SourceAddress := source_ h.
Definition MessageId_of (h : MessageHeader) : MessageId := header_message_id_ h.
Definition FromNode (h : MessageHeader) : Address := node_address (source_ h).
Definition FromGroup (h : MessageHeader) : option Address := group_address (source_ h).
Definition RelayedMessage (h : MessageHeader) : bool :=
  bool_decide (is_Some (second (destination_ h))).
Definition ReplyToAddress (h : MessageHeader) : option Address := second (destination_ h).
Definition ReturnDestinationAddress (h : MessageHeader) : DestinationAddress :=
  {| first := node_address (source_ h); second := reply_to_address (source_ h) |}.
Definition FilterValue (h : MessageHeader) : Address * MessageId :=
  (node_address (source_ h), header_message_id_ h).

(** ** Wire format

    Modelled from the spec: the codec ([messages/messages.h] and the
    serialisation library are not under src/).  A message on the wire is
    the encoded header, then the encoded tag, then the encoded body.  An
    input stream is the list of encoded items not yet read; [Parse]
    reads from its front and fails (throws) when the next item is not
    of the requested type. *)

Inductive Chunk :=
| EncHeader (h : MessageHeader)
| EncTag (t : MessageTypeTag)
| EncBody (b : MessageBody)
| EncByte (b : N).

Abbreviation SerialisedMessage := (list Chunk) (only parsing).
Abbreviation InputVectorStream := (list Chunk) (only parsing).

(** [Serialise(header, tag, body)] *)
Definition Serialise (h : MessageHeader) (t : MessageTypeTag) (b : MessageBody)
  : SerialisedMessage :=
  [EncHeader h; EncTag t; EncBody b].

(** [Parse(binary_input_stream, header, tag)] *)
Definition ParseHeader (s : InputVectorStream)
  : option (MessageHeader * MessageTypeTag * InputVectorStream) :=
  match s with
  | EncHeader h :: EncTag t :: rest => Some (h, t, rest)
  | _ => None
  end.

(** [Parse<T>(binary_input_stream)], one per body type. *)
Definition ParseBody {T : Type} (sel : MessageBody -> option T) (s : InputVectorStream)
  : option (T * InputVectorStream) :=
  match s with
  | EncBody b :: rest =>
      match sel b with
      | Some m => Some (m, rest)
      | None => None
      end
  | _ => None
  end.

Definition asConnect (b : MessageBody) : option Connect :=
  match b with BodyConnect m => Some m | _ => None end.
Definition asConnectResponse (b : MessageBody) : option ConnectResponse :=
  match b with BodyConnectResponse m => Some m | _ => None end.
Definition asFindGroup (b : MessageBody) : option FindGroup :=
  match b with BodyFindGroup m => Some m | _ => None end.
Definition asFindGroupResponse (b : MessageBody) : option FindGroupResponse :=
  match b with BodyFindGroupResponse m => Some m | _ => None end.
Definition asGetData (b : MessageBody) : option GetData :=
  match b with BodyGetData m => Some m | _ => None end.
Definition asGetDataResponse (b : MessageBody) : option GetDataResponse :=
  match b with BodyGetDataResponse m => Some m | _ => None end.
Definition asPutData (b : MessageBody) : option PutData :=
  match b with BodyPutData m => Some m | _ => None end.
Definition asPost (b : MessageBody) : option PostMessage :=
  match b with BodyPost m => Some m | _ => None end.

(** ** LRU cache with a time to live

    Modelled from the spec: [LruCache] ([lru_cache.h] is not under
    src/).  Both the duplicate filter and the content cache are built
    from a duration only, so eviction is by age: an entry older than the
    time to live is gone at the next access.  Every entry carries the
    clock reading of its insertion; an access at [now] sees the entries
    that are still alive. *)

Module LruCache.

Record t (K V : Type) `{Countable K} := {
  time_to_live : Z;
  storage : gmap K (V * Z)
}.
Arguments time_to_live {K V _ _} _.
Arguments storage {K V _ _} _.

Section Operations.
Context {K V : Type} `{Countable K}.

(** [LruCache(std::chrono::steady_clock::duration time_to_live)] *)
Definition create (ttl : Z) : t K V :=
  {| time_to_live := ttl; storage := ∅ |}.

Definition live (c : t K V) (now : Z) : gmap K (V * Z) :=
  filter (λ e, now - snd (snd e) ≤ time_to_live c) (storage c).

Definition Check (c : t K V) (now : Z) (k : K) : bool :=
  bool_decide (is_Some (live c now !! k)).

Definition Get (c : t K V) (now : Z) (k : K) : option V :=
  fst <$> live c now !! k.

Definition Add (c : t K V) (now : Z) (k : K) (v : V) : t K V :=
  {| time_to_live := time_to_live c;
     storage := <[k := (v, now)]> (live c now) |}.

End Operations.

End LruCache.

(** [std::chrono::minutes(n)], in seconds. *)
Definition minutes (n : Z) : Z := 60 * n.

(** ** Connection manager

    Modelled from the spec: [ConnectionManager] ([connection_manager.h]
    is not under src/, and [routing_table.h] only declares the table).
    The node only queries it, so it is kept as the answers it gives at
    one moment; the transport replaces the whole view when connections
    come and go. *)

Record ConnectionManager := {
  cm_OurId : Address;
  GetTarget : Address -> list NodeInfo;
  GetNonRoutingNodes : list Address;
  AddressInCloseGroupRange : Address -> bool;
  SuggestNodeToAdd : Address -> bool;
  OurCloseGroup : list NodeInfo;
  Size : nat;
  AcceptingPort : N
}.

(** A connection manager that knows no peer yet: nothing to forward to,
    every address is in close-group range, every other node may be
    added. *)
Definition ConnectionManager_new (our_id : Address) (accepting_port : N)
  : ConnectionManager :=
  {| cm_OurId := our_id;
     GetTarget := fun _ => [];
     GetNonRoutingNodes := [];
     AddressInCloseGroupRange := fun _ => true;
     SuggestNodeToAdd := fun a => negb (N.eqb a our_id);
     OurCloseGroup := [];
     Size := 0%nat;
     AcceptingPort := accepting_port |}.

(** ** Bootstrap store

    Modelled from the spec: [BootstrapHandler] ([bootstrap_handler.h] is
    not under src/).  The node treats the store as an ordered set of
    contacts: it reads the whole of it and adds contacts to it. *)

Definition AddBootstrapContacts (store new : list Contact) : list Contact :=
  fold_left (fun kept contact =>
               if bool_decide (contact ∈ kept) then kept else kept ++ [contact])
            new store.

(** ** The node *)

Record RoutingNode := {
  our_fob_ : Pmid;
  message_id_ : MessageId;
  bootstrap_node_ : option Address;
  our_external_endpoint_ : option Endpoint;
  bootstrap_handler_ : list Contact;
  connection_manager_ : ConnectionManager;
  filter_ : LruCache.t (Address * MessageId) unit;
  cache_ : LruCache.t Identity SerialisedData
}.

Definition set_message_id (v : MessageId) (n : RoutingNode) : RoutingNode :=
  {| our_fob_ := our_fob_ n; message_id_ := v;
     bootstrap_node_ := bootstrap_node_ n;
     our_external_endpoint_ := our_external_endpoint_ n;
     bootstrap_handler_ := bootstrap_handler_ n;
     connection_manager_ := connection_manager_ n;
     filter_ := filter_ n; cache_ := cache_ n |}.

Definition set_bootstrap_node (v : option Address) (n : RoutingNode) : RoutingNode :=
  {| our_fob_ := our_fob_ n; message_id_ := message_id_ n;
     bootstrap_node_ := v;
     our_external_endpoint_ := our_external_endpoint_ n;
     bootstrap_handler_ := bootstrap_handler_ n;
     connection_manager_ := connection_manager_ n;
     filter_ := filter_ n; cache_ := cache_ n |}.

Definition set_our_external_endpoint (v : option Endpoint) (n : RoutingNode)
  : RoutingNode :=
  {| our_fob_ := our_fob_ n; message_id_ := message_id_ n;
     bootstrap_node_ := bootstrap_node_ n;
     our_external_endpoint_ := v;
     bootstrap_handler_ := bootstrap_handler_ n;
     connection_manager_ := connection_manager_ n;
     filter_ := filter_ n; cache_ := cache_ n |}.

Definition set_bootstrap_handler (v : list Contact) (n : RoutingNode) : RoutingNode :=
  {| our_fob_ := our_fob_ n; message_id_ := message_id_ n;
     bootstrap_node_ := bootstrap_node_ n;
     our_external_endpoint_ := our_external_endpoint_ n;
     bootstrap_handler_ := v;
     connection_manager_ := connection_manager_ n;
     filter_ := filter_ n; cache_ := cache_ n |}.

Definition set_connection_manager (v : ConnectionManager) (n : RoutingNode)
  : RoutingNode :=
  {| our_fob_ := our_fob_ n; message_id_ := message_id_ n;
     bootstrap_node_ := bootstrap_node_ n;
     our_external_endpoint_ := our_external_endpoint_ n;
     bootstrap_handler_ := bootstrap_handler_ n;
     connection_manager_ := v;
     filter_ := filter_ n; cache_ := cache_ n |}.

Definition set_filter (v : LruCache.t (Address * MessageId) unit) (n : RoutingNode)
  : RoutingNode :=
  {| our_fob_ := our_fob_ n; message_id_ := message_id_ n;
     bootstrap_node_ := bootstrap_node_ n;
     our_external_endpoint_ := our_external_endpoint_ n;
     bootstrap_handler_ := bootstrap_handler_ n;
     connection_manager_ := connection_manager_ n;
     filter_ := v; cache_ := cache_ n |}.

Definition set_cache (v : LruCache.t Identity SerialisedData) (n : RoutingNode)
  : RoutingNode :=
  {| our_fob_ := our_fob_ n; message_id_ := message_id_ n;
     bootstrap_node_ := bootstrap_node_ n;
     our_external_endpoint_ := our_external_endpoint_ n;
     bootstrap_handler_ := bootstrap_handler_ n;
     connection_manager_ := connection_manager_ n;
     filter_ := filter_ n; cache_ := v |}.

(** [Address OurId() const { return Address(our_fob_.name()); }] *)
Definition OurId (n : RoutingNode) : Address := name (our_fob_ n).

(** ** Effects and the node monad *)

(** What leaves the node: calls into the connection manager and upcalls
    into [Child].  [Dispatched] marks the moment the [switch] at the end
    of [MessageReceived] hands a parsed body to its [HandleMessage]. *)
Inductive Effect :=
| Send (target : Address) (message : SerialisedMessage)
| SendToNonRoutingNode (target : Address) (message : SerialisedMessage)
| ConnectTo (endpoint : Endpoint) (contact : Contact)
| AddNode (info : NodeInfo) (endpoints : EndpointPair)
| AddNodeAccept (info : NodeInfo) (endpoints : EndpointPair)
| HandleChurn (diff : CloseGroupDifference)
| HandleGet (from : SourceAddress) (authority : Authority)
            (tag : DataTagValue) (data_name : Identity)
| Dispatched (tag : MessageTypeTag) (header : MessageHeader).

Inductive Error := parsing_error | invalid_parameter.

Inductive Outcome (A : Type) :=
| Returned (a : A)
| Threw (e : Error)
| AssertFailed.
Arguments Returned {A} a.
Arguments Threw {A} e.
Arguments AssertFailed {A}.

Record Run (A : Type) := {
  outcome : Outcome A;
  state : RoutingNode;
  effects : list Effect
}.
Arguments outcome {A} _.
Arguments state {A} _.
Arguments effects {A} _.

Definition M (A : Type) : Type := RoutingNode -> Run A.

#[global] Instance M_ret : MRet M := fun A a n =>
  {| outcome := Returned a; state := n; effects := [] |}.

#[global] Instance M_bind : MBind M := fun A B k m n =>
  let r := m n in
  match outcome r with
  | Returned a =>
      let r' := k a (state r) in
      {| outcome := outcome r'; state := state r';
         effects := effects r ++ effects r' |}
  | Threw e => {| outcome := Threw e; state := state r; effects := effects r |}
  | AssertFailed => {| outcome := AssertFailed; state := state r; effects := effects r |}
  end.

Definition get : M RoutingNode := fun n =>
  {| outcome := Returned n; state := n; effects := [] |}.

Definition modify (f : RoutingNode -> RoutingNode) : M unit := fun n =>
  {| outcome := Returned tt; state := f n; effects := [] |}.

Definition emit (e : Effect) : M unit := fun n =>
  {| outcome := Returned tt; state := n; effects := [e] |}.

Definition throw {A : Type} (e : Error) : M A := fun n =>
  {| outcome := Threw e; state := n; effects := [] |}.

(** [assert(b)] *)
Definition assert (b : bool) : M unit := fun n =>
  {| outcome := if b then Returned tt else AssertFailed; state := n; effects := [] |}.

(** A parse that throws when it fails. *)
Definition parsed {A : Type} (r : option A) : M A :=
  match r with
  | Some a => mret a
  | None => throw parsing_error
  end.

(** [for (const auto& x : xs) body(x);] *)
Fixpoint for_each {A : Type} (xs : list A) (body : A -> M unit) : M unit :=
  match xs with
  | [] => mret tt
  | x :: rest => body x ;; for_each rest body
  end.

(** ** Member functions of [RoutingNode] *)

Section RoutingNode.

(** [QuorumSize] ([types.h]) and [GetLocalIp()] (the common library) are
    not under src/; the node is verified for every value of them. *)
Variable QuorumSize : nat.
Variable GetLocalIp : N.

(** [MessageHeader(destination, source, message_id, authority)] *)
Definition MessageHeader_unsigned (d : DestinationAddress) (s : SourceAddress)
    (i : MessageId) (a : Authority) : MessageHeader :=
  {| destination_ := d; source_ := s; header_message_id_ := i;
     authority_ := a; signature_ := None |}.

(** [std::make_pair(Destination(a), boost::none)] *)
Definition to_destination (a : Address) : DestinationAddress :=
  {| first := a; second := None |}.

(** [AddBootstrapContact(Contact bootstrap_contact)] *)
Definition AddBootstrapContact (bootstrap_contact : Contact) : M unit :=
  modify (fun n =>
    set_bootstrap_handler
      (AddBootstrapContacts (bootstrap_handler_ n) [bootstrap_contact]) n).

Definition NextEndpointPair (n : RoutingNode) : EndpointPair :=
  match our_external_endpoint_ n with
  | None => EndpointPair_default
  | Some ext =>
      let accepting := AcceptingPort (connection_manager_ n) in
      {| local := {| address := GetLocalIp; port := accepting |};
         external := {| address := address ext; port := accepting |} |}
  end.

Definition OurSourceAddress (n : RoutingNode) : SourceAddress :=
  match bootstrap_node_ n with
  | Some b =>
      {| node_address := b; group_address := None;
         reply_to_address := Some (OurId n) |}
  | None =>
      {| node_address := OurId n; group_address := None;
         reply_to_address := None |}
  end.

(** [OurSourceAddress(GroupAddress group)] *)
Definition OurSourceAddress_group (n : RoutingNode) (g : Address) : SourceAddress :=
  {| node_address := OurId n; group_address := Some g; reply_to_address := None |}.

(** [++message_id_] on a [uint32_t]: the new value, which is also stored. *)
Definition increment_message_id : M MessageId :=
  n ← get;
  let v := (message_id_ n + 1) mod 2 ^ 32 in
  modify (set_message_id v);;
  mret v.

Definition send_to_targets (targets : list NodeInfo) (message : SerialisedMessage)
  : M unit :=
  for_each targets (fun target => emit (Send (id target) message)).

Definition Get (data_tag : DataTagValue) (data_name : Identity) : M unit :=
  n ← get;
  v ← increment_message_id;
  let our_header :=
    MessageHeader_unsigned (to_destination data_name) (OurSourceAddress n) v node in
  let request :=
    {| get_data_tag := data_tag; get_data_name := data_name;
       get_data_requester := OurSourceAddress n |} in
  let message := Serialise our_header TagGetData (BodyGetData request) in
  send_to_targets (GetTarget (connection_manager_ n) data_name) message.

Definition Put (to : Address) (data_tag : DataTagValue) (serialised : SerialisedData)
  : M unit :=
  n ← get;
  v ← increment_message_id;
  let our_header :=
    MessageHeader_unsigned (to_destination to) (OurSourceAddress n) v client in
  let request := {| put_data_tag := data_tag; put_data_payload := serialised |} in
  let message := Serialise our_header TagPutData (BodyPutData request) in
  send_to_targets (GetTarget (connection_manager_ n) to) message.

(** The body is built as a [PutData] and sent under the tag of [Post]. *)
Definition Post (to : Address) (functor_tag : DataTagValue) (functor : SerialisedData)
  : M unit :=
  n ← get;
  v ← increment_message_id;
  let our_header :=
    MessageHeader_unsigned (to_destination to) (OurSourceAddress n) v node in
  let request := {| put_data_tag := functor_tag; put_data_payload := functor |} in
  let message := Serialise our_header TagPost (BodyPutData request) in
  send_to_targets (GetTarget (connection_manager_ n) to) message.

Definition ConnectToCloseGroup : M unit :=
  n ← get;
  let message :=
    {| find_group_requester_id := OurId n; find_group_target_id := OurId n |} in
  v ← increment_message_id;
  let header :=
    MessageHeader_unsigned (to_destination (OurId n)) (OurSourceAddress n) v node in
  match bootstrap_node_ n with
  | Some bootstrap =>
      let msg_data := Serialise header TagFindGroup (BodyFindGroup message) in
      emit (Send bootstrap msg_data)
  | None =>
      for_each (GetTarget (connection_manager_ n) (OurId n)) (fun target =>
        let msg_data := Serialise header TagConnect (BodyFindGroup message) in
        emit (Send (id target) msg_data))
  end.

(** The completion handler given to [connection_manager_.Connect] by the
    constructor, for one bootstrap contact; [error] is the value of the
    [asio::error_code], zero for success. *)
Definition OnConnect (contact : Contact) (error : N) (addr : Address)
    (our_endpoint : Endpoint) : M unit :=
  if negb (N.eqb error 0) then mret tt
  else if negb (N.eqb addr (contact_id contact)) then mret tt
  else
    modify (set_bootstrap_node (Some (contact_id contact)));;
    modify (set_our_external_endpoint (Some our_endpoint));;
    ConnectToCloseGroup.

(** The constructor: [fob] is the freshly created Pmid, [random] the
    value of [RandomUint32()], [contacts] what the bootstrap handler has
    persisted. *)
Definition RoutingNode_new (fob : Pmid) (random : Z) (contacts : list Contact)
    (accepting_port : N) (now : Z) : Run unit :=
  let constructed :=
    {| our_fob_ := fob;
       message_id_ := random;
       bootstrap_node_ := None;
       our_external_endpoint_ := None;
       bootstrap_handler_ := contacts;
       connection_manager_ := ConnectionManager_new (name fob) accepting_port;
       filter_ := LruCache.create (minutes 20);
       cache_ := LruCache.create (minutes 60) |} in
  (n ← get;
   modify (set_cache
     (LruCache.Add (cache_ n) now (name fob) (SerialisePublicPmid (PublicPmid_of fob))));;
   for_each contacts (fun contact =>
     emit (ConnectTo (external (endpoint_pair contact)) contact))) constructed.

Definition OurAuthority (n : RoutingNode) (element : Address) (header : MessageHeader)
  : Outcome Authority :=
  let cm := connection_manager_ n in
  let target := first (Destination header) in
  if negb (bool_decide (is_Some (FromGroup header)))
     && AddressInCloseGroupRange cm (FromNode header)
     && negb (N.eqb target element)
  then Returned client_manager
  else if AddressInCloseGroupRange cm element && N.eqb target element
  then Returned nae_manager
  else if bool_decide (is_Some (FromGroup header))
          && AddressInCloseGroupRange cm target
          && negb (N.eqb target (OurId n))
  then Returned node_manager
  else if match FromGroup header with
          | Some g => AddressInCloseGroupRange cm g
          | None => false
          end
          && N.eqb target (OurId n)
  then Returned managed_node
  else Threw invalid_parameter.

(** A [const] member function that may throw, run inside a handler. *)
Definition lift {A : Type} (f : RoutingNode -> Outcome A) : M A := fun n =>
  {| outcome := f n; state := n; effects := [] |}.

(** The completion handler given to [AddNodeAccept]; [alive] is the
    result of [destroy_guard.lock()]. *)
Definition OnAddNodeAccept (alive : bool) (added : option CloseGroupDifference)
  : M unit :=
  if negb alive then mret tt
  else match added with
       | Some diff => emit (HandleChurn diff)
       | None => mret tt
       end.

(** [HandleMessage(Connect connect, MessageHeader original_header)] *)
Definition HandleMessage_Connect (connect : Connect) (original_header : MessageHeader)
  : M unit :=
  n ← get;
  if negb (SuggestNodeToAdd (connection_manager_ n) (connect_requester_id connect))
  then mret tt
  else
    let targets := GetTarget (connection_manager_ n) (connect_requester_id connect) in
    let respond :=
      {| response_requester_endpoints := connect_requester_endpoints connect;
         response_receiver_endpoints := NextEndpointPair n;
         response_requester_id := connect_requester_id connect;
         response_receiver_id := OurId n;
         response_receiver_fob := PublicPmid_of (our_fob_ n) |} in
    assert (N.eqb (connect_receiver_id connect) (OurId n));;
    let header :=
      {| destination_ := ReturnDestinationAddress original_header;
         source_ := OurSourceAddress n;
         header_message_id_ := MessageId_of original_header;
         authority_ := node;
         signature_ := Some {| signed_body := BodyConnectResponse respond;
                               signing_key := private_key (our_fob_ n) |} |} in
    for_each targets (fun target =>
      let message := Serialise header TagConnectResponse (BodyConnectResponse respond) in
      emit (Send (id target) message));;
    emit (AddNodeAccept
            {| id := connect_requester_id connect;
               dht_fob := connect_requester_fob connect;
               connected := true |}
            (connect_requester_endpoints connect)).

(** The completion handler given to [AddNode]. *)
Definition OnAddNode (alive : bool) (added : option CloseGroupDifference) : M unit :=
  if negb alive then mret tt
  else
    match added with
    | Some diff => emit (HandleChurn diff)
    | None => mret tt
    end;;
    n ← get;
    if (QuorumSize <=? Size (connection_manager_ n))%nat
    then modify (set_bootstrap_node None)
    else mret tt.

(** [HandleMessage(ConnectResponse connect_response)] *)
Definition HandleMessage_ConnectResponse (connect_response : ConnectResponse) : M unit :=
  n ← get;
  if negb (SuggestNodeToAdd (connection_manager_ n)
             (response_requester_id connect_response))
  then mret tt
  else
    emit (AddNode
            {| id := response_requester_id connect_response;
               dht_fob := response_receiver_fob connect_response;
               connected := true |}
            (response_receiver_endpoints connect_response)).

(** [HandleMessage(FindGroup find_group, MessageHeader original_header)] *)
Definition HandleMessage_FindGroup (find_group : FindGroup)
    (original_header : MessageHeader) : M unit :=
  n ← get;
  let close_group := OurCloseGroup (connection_manager_ n) in
  let members := map dht_fob close_group ++ [PublicPmid_of (our_fob_ n)] in
  let response :=
    {| find_group_response_target_id := find_group_target_id find_group;
       group := members |} in
  let header :=
    {| destination_ := ReturnDestinationAddress original_header;
       source_ := OurSourceAddress_group n (find_group_target_id find_group);
       header_message_id_ := MessageId_of original_header;
       authority_ := nae_manager;
       signature_ := Some {| signed_body := BodyFindGroupResponse response;
                             signing_key := private_key (our_fob_ n) |} |} in
  let message := Serialise header TagFindGroupResponse (BodyFindGroupResponse response) in
  send_to_targets (GetTarget (connection_manager_ n) (FromNode original_header)) message.

(** One turn of the loop of [HandleMessage(FindGroupResponse)]: a
    [Connect] for one member of the group, if the table would take it. *)
Definition connect_to (node_pmid : PublicPmid) : M unit :=
  let node_id := public_name node_pmid in
  n ← get;
  if negb (SuggestNodeToAdd (connection_manager_ n) node_id) then mret tt
  else
    let message :=
      {| connect_requester_endpoints := NextEndpointPair n;
         connect_requester_id := OurId n;
         connect_receiver_id := node_id;
         connect_requester_fob := PublicPmid_of (our_fob_ n) |} in
    v ← increment_message_id;
    let header :=
      MessageHeader_unsigned (to_destination node_id) (OurSourceAddress n) v
        nae_manager in
    for_each (GetTarget (connection_manager_ n) node_id) (fun target =>
      let message_data := Serialise header TagConnect (BodyConnect message) in
      emit (Send (id target) message_data)).

(** [HandleMessage(FindGroupResponse find_group_reponse, MessageHeader)] *)
Definition HandleMessage_FindGroupResponse (find_group_reponse : FindGroupResponse)
    (original_header : MessageHeader) : M unit :=
  for_each (group find_group_reponse) connect_to.

(** [HandleMessage(GetData get_data, MessageHeader header)]: the answer of
    [Child::HandleGet] is looked at and not acted on. *)
Definition HandleMessage_GetData (get_data : GetData) (header : MessageHeader)
  : M unit :=
  authority ← lift (fun n => OurAuthority n (get_data_name get_data) header);
  emit (HandleGet (Source header) authority (get_data_tag get_data)
          (get_data_name get_data)).

Definition HandleMessage_PutData (put_data : PutData) (original_header : MessageHeader)
  : M unit := mret tt.

Definition HandleMessage_Post (post : PostMessage) (original_header : MessageHeader)
  : M unit := mret tt.

(** The first half of the cache hook of [MessageReceived]: a
    [GetDataResponse] that carries data is put in the cache.  The body is
    read off the stream here. *)
Definition add_to_cache (now : Z) (tag : MessageTypeTag) (stream : InputVectorStream)
  : M InputVectorStream :=
  if bool_decide (tag = TagGetDataResponse) then
    '(response, rest) ← parsed (ParseBody asGetDataResponse stream);
    match data response with
    | Some payload =>
        modify (fun n =>
          set_cache
            (LruCache.Add (cache_ n) now (get_data_response_name response) payload) n)
    | None => mret tt
    end;;
    mret rest
  else mret stream.

(** The second half: a [GetData] is looked up in the cache; answering
    from the cache is commented out in the source ("move to upper
    layer"), so the result is dropped. *)
Definition try_cache (now : Z) (tag : MessageTypeTag) (stream : InputVectorStream)
  : M InputVectorStream :=
  if bool_decide (tag = TagGetData) then
    '(get_data, rest) ← parsed (ParseBody asGetData stream);
    n ← get;
    let test := LruCache.Get (cache_ n) now (get_data_name get_data) in
    mret rest
  else mret stream.

(** The [switch (tag)] that ends [MessageReceived]. *)
Definition dispatch (tag : MessageTypeTag) (stream : InputVectorStream)
    (header : MessageHeader) : M unit :=
  match tag with
  | TagConnect =>
      '(m, _) ← parsed (ParseBody asConnect stream);
      emit (Dispatched tag header);;
      HandleMessage_Connect m header
  | TagConnectResponse =>
      '(m, _) ← parsed (ParseBody asConnectResponse stream);
      emit (Dispatched tag header);;
      HandleMessage_ConnectResponse m
  | TagFindGroup =>
      '(m, _) ← parsed (ParseBody asFindGroup stream);
      emit (Dispatched tag header);;
      HandleMessage_FindGroup m header
  | TagFindGroupResponse =>
      '(m, _) ← parsed (ParseBody asFindGroupResponse stream);
      emit (Dispatched tag header);;
      HandleMessage_FindGroupResponse m header
  | TagGetData =>
      '(m, _) ← parsed (ParseBody asGetData stream);
      emit (Dispatched tag header);;
      HandleMessage_GetData m header
  | TagGetDataResponse => mret tt
  | TagPutData =>
      '(m, _) ← parsed (ParseBody asPutData stream);
      emit (Dispatched tag header);;
      HandleMessage_PutData m header
  | TagPost =>
      '(m, _) ← parsed (ParseBody asPost stream);
      emit (Dispatched tag header);;
      HandleMessage_Post m header
  | TagPutDataResponse | TagPostResponse => mret tt
  end.

(** Is the reply-to address of the header one of the connected
    non-routing nodes? *)
Definition reply_to_is_connected (cm : ConnectionManager) (header : MessageHeader)
  : bool :=
  existsb (fun connected_node =>
             match ReplyToAddress header with
             | Some reply_to => N.eqb connected_node reply_to
             | None => false
             end)
          (GetNonRoutingNodes cm).

(** [MessageReceived] from the cache lookup on: forward, relay to a
    connected client, and hand over to a handler when the message is
    for this node. *)
Definition route (now : Z) (serialised_message : SerialisedMessage)
    (header : MessageHeader) (tag : MessageTypeTag) (stream : InputVectorStream)
  : M unit :=
  stream ← try_cache now tag stream;
  n ← get;
  let cm := connection_manager_ n in
  send_to_targets (GetTarget cm (first (Destination header))) serialised_message;;
  if RelayedMessage header && reply_to_is_connected cm header then
    match ReplyToAddress header with
    | Some reply_to => emit (SendToNonRoutingNode reply_to serialised_message)
    | None => mret tt
    end
  else if negb (AddressInCloseGroupRange cm (first (Destination header))) then mret tt
  else if (bool_decide (tag = TagConnect) || bool_decide (tag = TagConnectResponse))
          && negb (N.eqb (first (Destination header)) (cm_OurId cm))
  then mret tt
  else dispatch tag stream header.

(** What follows the duplicate filter in [MessageReceived]. *)
Definition process (now : Z) (serialised_message : SerialisedMessage)
    (header : MessageHeader) (tag : MessageTypeTag) (stream : InputVectorStream)
  : M unit :=
  stream ← add_to_cache now tag stream;
  route now serialised_message header tag stream.

Definition MessageReceived (now : Z) (peer_id : Address)
    (serialised_message : SerialisedMessage) : M unit :=
  match ParseHeader serialised_message with
  | None => mret tt
  | Some (header, tag, stream) =>
      n ← get;
      if LruCache.Check (filter_ n) now (FilterValue header) then mret tt
      else
        modify (fun n =>
          set_filter (LruCache.Add (filter_ n) now (FilterValue header) tt) n);;
        process now serialised_message header tag stream
  end.

(** [ConnectionLost(boost::optional<CloseGroupDifference> diff, Address)] *)
Definition ConnectionLost (diff : option CloseGroupDifference) (peer : Address)
  : M unit :=
  match diff with
  | Some d => emit (HandleChurn d)
  | None => mret tt
  end.

(** ** The life of a node

    Everything that happens to a constructed node is one of these
    events: a datagram arrives, a completion handler fires, the
    application calls in, or the transport changes the connection
    manager's tables. *)
Inductive Event :=
| Received (now : Z) (peer_id : Address) (serialised_message : SerialisedMessage)
| Lost (diff : option CloseGroupDifference) (peer : Address)
| ConnectCompleted (contact : Contact) (error : N) (addr : Address)
    (our_endpoint : Endpoint)
| AddNodeCompleted (alive : bool) (added : option CloseGroupDifference)
| AddNodeAcceptCompleted (alive : bool) (added : option CloseGroupDifference)
| CallGet (data_tag : DataTagValue) (data_name : Identity)
| CallPut (to : Address) (data_tag : DataTagValue) (serialised : SerialisedData)
| CallPost (to : Address) (functor_tag : DataTagValue) (functor : SerialisedData)
| CallAddBootstrapContact (bootstrap_contact : Contact)
| TablesChanged (view : ConnectionManager).

Definition handle (e : Event) : M unit :=
  match e with
  | Received now peer_id serialised_message =>
      MessageReceived now peer_id serialised_message
  | Lost diff peer => ConnectionLost diff peer
  | ConnectCompleted contact error addr our_endpoint =>
      OnConnect contact error addr our_endpoint
  | AddNodeCompleted alive added => OnAddNode alive added
  | AddNodeAcceptCompleted alive added => OnAddNodeAccept alive added
  | CallGet data_tag data_name => Get data_tag data_name
  | CallPut to data_tag serialised => Put to data_tag serialised
  | CallPost to functor_tag functor => Post to functor_tag functor
  | CallAddBootstrapContact bootstrap_contact => AddBootstrapContact bootstrap_contact
  | TablesChanged view =>
      modify (fun n =>
        set_connection_manager
          {| cm_OurId := cm_OurId (connection_manager_ n);
             GetTarget := GetTarget view;
             GetNonRoutingNodes := GetNonRoutingNodes view;
             AddressInCloseGroupRange := AddressInCloseGroupRange view;
             SuggestNodeToAdd := SuggestNodeToAdd view;
             OurCloseGroup := OurCloseGroup view;
             Size := Size view;
             AcceptingPort := AcceptingPort (connection_manager_ n) |} n)
  end.

(** A run of events: the node after them and everything it emitted.  An
    exception leaves the handler that raised it and the node goes on
    with the next event; a failed [assert] ends the process. *)
Fixpoint run (events : list Event) (n : RoutingNode) : RoutingNode * list Effect :=
  match events with
  | [] => (n, [])
  | e :: rest =>
      let r := handle e n in
      match outcome r with
      | AssertFailed => (state r, effects r)
      | _ =>
          let '(n', later) := run rest (state r) in
          (n', effects r ++ later)
      end
  end.

End RoutingNode.

(** * The accounts of [tests/routing_network_init_test.cc]

    [struct MaidManagerAccount]: a name and two [uint64_t] counters,
    compared as the tuple [(name, stored, available)].  [std::tie(...) <
    std::tie(...)] is the lexicographic comparison of the standard
    library, written out with the [<] of the members.
    [PmidManagerAccount] has the same members and operators, word for
    word. *)

Module MaidManagerAccount.

Record t := { name : Address; stored : N; available : N }.

(** [operator==] *)
Definition equal (a b : t) : bool :=
  N.eqb (name a) (name b) && N.eqb (stored a) (stored b)
  && N.eqb (available a) (available b).

(** [operator!=] *)
Definition not_equal (a b : t) : bool := negb (equal a b).

(** [operator<] *)
Definition less (a b : t) : bool :=
  N.ltb (name a) (name b)
  || negb (N.ltb (name b) (name a))
     && (N.ltb (stored a) (stored b)
         || negb (N.ltb (stored b) (stored a))
            && N.ltb (available a) (available b)).

(** [operator>]: [return operator<(other);] *)
Definition greater (a b : t) : bool := less a b.

(** [operator<=]: [return !operator>(other);] *)
Definition less_equal (a b : t) : bool := negb (greater a b).

(** [operator>=]: [return !operator<(other);] *)
Definition greater_equal (a b : t) : bool := negb (less a b).

End MaidManagerAccount.

Module PmidManagerAccount := MaidManagerAccount.

(** * Vocabulary of the specification

    What the theorems below observe of a run, the properties of
    computations they are proved with, and the sample nodes and
    messages they are tried on. *)

(** ** Observations on effect logs *)

(** The effect is the start of a handler for the message with filter
    key [k]. *)
Definition is_dispatch_of (k : Address * MessageId) (e : Effect) : bool :=
  match e with
  | Dispatched _ header => bool_decide (FilterValue header = k)
  | _ => false
  end.

(** How many handlers were started for the message with filter key [k]. *)
Definition dispatches (k : Address * MessageId) (log : list Effect) : nat :=
  length (List.filter (is_dispatch_of k) log).

Definition is_dispatch (e : Effect) : bool :=
  match e with
  | Dispatched _ _ => true
  | _ => false
  end.

(** No handler is started. *)
Definition no_dispatch (e : Effect) : Prop := is_dispatch e = false.

(** One for the key of the header, none for any other key. *)
Definition share (k : Address * MessageId) (header : MessageHeader) : nat :=
  if bool_decide (FilterValue header = k) then 1%nat else 0%nat.

(** The messages handed to [connection_manager_.Send], in order. *)
Fixpoint sent (log : list Effect) : list SerialisedMessage :=
  match log with
  | [] => []
  | Send _ message :: rest => message :: sent rest
  | _ :: rest => sent rest
  end.

(** The message id in the header of a serialised message. *)
Definition wire_message_id (message : SerialisedMessage) : MessageId :=
  match ParseHeader message with
  | Some (header, _, _) => MessageId_of header
  | None => 0
  end.

(** [after log r]: the run [r], with [log] emitted before it. *)
Definition after {A : Type} (log : list Effect) (r : Run A) : Run A :=
  {| outcome := outcome r; state := state r; effects := log ++ effects r |}.

(** The original bytes, once to every routing target of the destination. *)
Definition forwarded (cm : ConnectionManager) (header : MessageHeader)
    (message : SerialisedMessage) : list Effect :=
  map (fun target => Send (id target) message)
      (GetTarget cm (first (Destination header))).

(** The copy for a connected client the message is relayed to. *)
Definition relayed (cm : ConnectionManager) (header : MessageHeader)
    (message : SerialisedMessage) : list Effect :=
  if RelayedMessage header && reply_to_is_connected cm header then
    match ReplyToAddress header with
    | Some reply_to => [SendToNonRoutingNode reply_to message]
    | None => []
    end
  else [].

(** ** Runs and the duplicate filter *)

(** Every datagram of the run arrives at a clock reading in
    [[start, start + span]]. *)
Definition received_within (start span : Z) (events : list Event) : Prop :=
  Forall (fun e =>
            match e with
            | Received now _ _ => start ≤ now ≤ start + span
            | _ => True
            end) events.

(** The event [e], if it is a reception, comes within one time to live
    of the filter of [n] after [start]. *)
Definition in_window (start : Z) (n : RoutingNode) (e : Event) : Prop :=
  match e with
  | Received now _ _ => start ≤ now ≤ start + LruCache.time_to_live (filter_ n)
  | _ => True
  end.

(** An entry for [k] stamped no earlier than [start]. *)
Definition holds_since {K V : Type} `{Countable K} (c : LruCache.t K V) (k : K)
    (start : Z) : Prop :=
  exists v t, LruCache.storage c !! k = Some (v, t) /\ start ≤ t.

(** The node's own idea of its id and the connection manager's agree, as
    the constructor sets them up. *)
Definition ids_agree (n : RoutingNode) : Prop :=
  cm_OurId (connection_manager_ n) = OurId n.

(** ** Properties of computations

    [preserves proj m]: running [m] leaves the part [proj] of the node
    unchanged, however it ends. *)

Definition preserves {A B : Type} (proj : RoutingNode -> B) (m : M A) : Prop :=
  forall n, proj (state (m n)) = proj n.

(** [emits P m]: every effect of [m] satisfies [P]. *)
Definition emits {A : Type} (P : Effect -> Prop) (m : M A) : Prop :=
  forall n, Forall P (effects (m n)).

(** [dispatch_bound k b m]: [m] starts at most [b] handlers for key [k]. *)
Definition dispatch_bound {A : Type} (k : Address * MessageId) (b : nat) (m : M A)
  : Prop :=
  forall n, (dispatches k (effects (m n)) ≤ b)%nat.

(** ** Messages the node originates *)

(** [++message_id_] as a value. *)
Definition next_message_id (n : RoutingNode) : MessageId :=
  (message_id_ n + 1) mod 2 ^ 32.

(** The operations that compose a header of their own. *)
Inductive Origination :=
| ByGet (data_tag : DataTagValue) (data_name : Identity)
| ByPut (to : Address) (data_tag : DataTagValue) (serialised : SerialisedData)
| ByPost (to : Address) (functor_tag : DataTagValue) (functor : SerialisedData)
| ByConnectToCloseGroup
| ByFindGroupResponse (response : FindGroupResponse) (original_header : MessageHeader).

Definition originate (GetLocalIp : N) (o : Origination) : M unit :=
  match o with
  | ByGet data_tag data_name => Get data_tag data_name
  | ByPut to data_tag serialised => Put to data_tag serialised
  | ByPost to functor_tag functor => Post to functor_tag functor
  | ByConnectToCloseGroup => ConnectToCloseGroup
  | ByFindGroupResponse response original_header =>
      HandleMessage_FindGroupResponse GetLocalIp response original_header
  end.

(** The originations of a list, one after the other. *)
Definition originate_all (GetLocalIp : N) (os : list Origination) : M unit :=
  for_each os (originate GetLocalIp).

(** No more headers are composed by [o] than this. *)
Definition headers_at_most (o : Origination) : Z :=
  match o with
  | ByFindGroupResponse response _ => Z.of_nat (length (group response))
  | _ => 1
  end.

Definition headers_at_most_all (os : list Origination) : Z :=
  fold_right (fun o total => headers_at_most o + total) 0 os.

(** Of two messages sent one after the other, the later is the earlier
    one again (sent to another target) or carries a greater id. *)
Definition ids_increase (messages : list SerialisedMessage) : Prop :=
  forall i j a b,
    (i < j)%nat -> messages !! i = Some a -> messages !! j = Some b ->
    a = b \/ wire_message_id a < wire_message_id b.

(** The header of a serialised message has this source. *)
Definition from_source (s : SourceAddress) (message : SerialisedMessage) : Prop :=
  exists header tag rest,
    ParseHeader message = Some (header, tag, rest) /\ Source header = s.

(** The [FindGroup] message and its header, as [ConnectToCloseGroup]
    composes them. *)
Definition find_group_header (n : RoutingNode) : MessageHeader :=
  MessageHeader_unsigned (to_destination (OurId n)) (OurSourceAddress n)
    (next_message_id n) node.

Definition find_group_body (n : RoutingNode) : MessageBody :=
  BodyFindGroup {| find_group_requester_id := OurId n; find_group_target_id := OurId n |}.

(** [counts_up n r budget]: the run [r] from [n] returned, changed
    nothing but the counter and sent 32-bit ids only; and, when the
    counter has room for [budget] more ids, it moved the counter up by
    at most [budget] and gave every message it sent an id above the old
    counter and up to the new one, in increasing order. *)
Definition counts_up (n : RoutingNode) (r : Run unit) (budget : Z) : Prop :=
  outcome r = Returned tt
  /\ state r = set_message_id (message_id_ (state r)) n
  /\ Forall (fun message => 0 ≤ wire_message_id message < 2 ^ 32) (sent (effects r))
  /\ (0 ≤ message_id_ n -> message_id_ n + budget < 2 ^ 32 ->
      message_id_ n ≤ message_id_ (state r) ≤ message_id_ n + budget
      /\ Forall (fun message =>
                   message_id_ n < wire_message_id message ≤ message_id_ (state r))
                (sent (effects r))
      /\ ids_increase (sent (effects r))).

(** ** Rows of the authority table *)

Section Rows.
Variables (n : RoutingNode) (element : Address) (header : MessageHeader).

Definition client_manager_row : Prop :=
  FromGroup header = None
  /\ AddressInCloseGroupRange (connection_manager_ n) (FromNode header) = true
  /\ first (Destination header) ≠ element.

Definition nae_manager_row : Prop :=
  AddressInCloseGroupRange (connection_manager_ n) element = true
  /\ first (Destination header) = element.

Definition node_manager_row : Prop :=
  is_Some (FromGroup header)
  /\ AddressInCloseGroupRange (connection_manager_ n) (first (Destination header)) = true
  /\ first (Destination header) ≠ OurId n.

Definition managed_node_row : Prop :=
  (exists g, FromGroup header = Some g
             /\ AddressInCloseGroupRange (connection_manager_ n) g = true)
  /\ first (Destination header) = OurId n.

End Rows.

(** ** Sample nodes and messages *)

Definition sample_fob : Pmid :=
  {| name := 7%N; public_key := 70%N; private_key := 700%N |}.

Definition sample_contact : Contact :=
  {| contact_id := 2%N;
     endpoint_pair :=
       {| local := {| address := 167772162%N; port := 5483%N |};
          external := {| address := 3232235778%N; port := 5483%N |} |} |}.

(** A node as the constructor leaves it, its counter two short of the
    largest 32-bit value. *)
Definition fresh_node : RoutingNode :=
  state (RoutingNode_new sample_fob 4294967294 [sample_contact] 5483%N 0).

Definition sample_peer : NodeInfo :=
  {| id := 3%N;
     dht_fob := {| public_name := 3%N; public_value := 30%N |};
     connected := true |}.

(** Tables that know one peer and send everything to it. *)
Definition one_peer_view : ConnectionManager :=
  {| cm_OurId := 7%N;
     GetTarget := fun _ => [sample_peer];
     GetNonRoutingNodes := [];
     AddressInCloseGroupRange := fun _ => true;
     SuggestNodeToAdd := fun a => negb (N.eqb a 7);
     OurCloseGroup := [sample_peer];
     Size := 1%nat;
     AcceptingPort := 5483%N |}.

(** [fresh_node] after it joined: one peer in the tables and no
    bootstrap node. *)
Definition joined_node : RoutingNode := set_connection_manager one_peer_view fresh_node.

(** The same node while [sample_contact] is still its bootstrap node. *)
Definition bootstrapping_node : RoutingNode :=
  set_bootstrap_node (Some 2%N) joined_node.

Definition sample_header (origin : Address) (message_id : MessageId)
    (target : Address) : MessageHeader :=
  {| destination_ := {| first := target; second := None |};
     source_ := {| node_address := origin; group_address := None;
                   reply_to_address := None |};
     header_message_id_ := message_id;
     authority_ := node;
     signature_ := None |}.

(** A [FindGroup] from node 9 for the group of [fresh_node]. *)
Definition sample_find_group (message_id : MessageId) : SerialisedMessage :=
  Serialise (sample_header 9%N message_id 7%N) TagFindGroup
    (BodyFindGroup {| find_group_requester_id := 9%N; find_group_target_id := 7%N |}).

(** A [Connect] from node 9 with [receiver] in its body, addressed to
    [target]. *)
Definition sample_connect (target receiver : Address) : SerialisedMessage :=
  Serialise (sample_header 9%N 1 target) TagConnect
    (BodyConnect
       {| connect_requester_endpoints := EndpointPair_default;
          connect_requester_id := 9%N;
          connect_receiver_id := receiver;
          connect_requester_fob := {| public_name := 9%N; public_value := 90%N |} |}).

Definition sample_get_data_response (payload : option SerialisedData)
  : SerialisedMessage :=
  Serialise (sample_header 9%N 1 7%N) TagGetDataResponse
    (BodyGetDataResponse {| get_data_response_name := 5%N; data := payload |}).

(** The filter key of [sample_find_group 1]. *)
Definition sample_key : Address * MessageId := (9%N, 1).

(** The same [FindGroup] received again 1301 seconds later.  A message
    with another key arrived in between, so the filter was written to
    after the first entry had outlived its 20 minutes. *)
Definition late_echo : list Event :=
  [Received 0 9%N (sample_find_group 1);
   Received 1300 9%N (sample_find_group 2);
   Received 1301 9%N (sample_find_group 1)].

(** The echo of a [FindGroup] ten minutes after it. *)
Definition early_echo : list Event :=
  [Received 0 9%N (sample_find_group 1);
   Received 300 9%N (sample_find_group 2);
   Received 600 9%N (sample_find_group 1)].

(** A node whose counter has room. *)
Definition young_node : RoutingNode := set_message_id 41 joined_node.

(** Headers for each row, at [joined_node] (id 7, every address in
    range): from node 9 alone, and from node 9 for group 4. *)
Definition direct_header (target : Address) : MessageHeader := sample_header 9%N 1 target.

Definition group_header_to (target : Address) : MessageHeader :=
  {| destination_ := {| first := target; second := None |};
     source_ := {| node_address := 9%N; group_address := Some 4%N;
                   reply_to_address := None |};
     header_message_id_ := 1;
     authority_ := nae_manager;
     signature_ := None |}.

(** A header from group 4 for destination 5, to be classified for
    element 5. *)
Definition group_header : MessageHeader := group_header_to 5%N.

(** Tables for which no address is in close-group range. *)
Definition far_view : ConnectionManager :=
  {| cm_OurId := 7%N;
     GetTarget := fun _ => [sample_peer];
     GetNonRoutingNodes := [];
     AddressInCloseGroupRange := fun _ => false;
     SuggestNodeToAdd := fun a => negb (N.eqb a 7);
     OurCloseGroup := [sample_peer];
     Size := 1%nat;
     AcceptingPort := 5483%N |}.

Definition far_node : RoutingNode := set_connection_manager far_view fresh_node.

(** A [ConnectResponse] from node 3 that names node 9 as requester. *)
Definition sample_connect_response : ConnectResponse :=
  {| response_requester_endpoints := EndpointPair_default;
     response_receiver_endpoints := endpoint_pair sample_contact;
     response_requester_id := 9%N;
     response_receiver_id := 3%N;
     response_receiver_fob := dht_fob sample_peer |}.

Definition connect_for_this_node : Connect :=
  {| connect_requester_endpoints := EndpointPair_default;
     connect_requester_id := 9%N;
     connect_receiver_id := 7%N;
     connect_requester_fob := {| public_name := 9%N; public_value := 90%N |} |}.

(** ** Stages of a reception *)

(** What is left of the input stream when the [switch] is reached: the
    cache hook reads the body of a [GetDataResponse] off it, the cache
    lookup that of a [GetData]; [None] when that read throws. *)
Definition unread (tag : MessageTypeTag) (stream : InputVectorStream)
  : option InputVectorStream :=
  match tag with
  | TagGetDataResponse => snd <$> ParseBody asGetDataResponse stream
  | TagGetData => snd <$> ParseBody asGetData stream
  | _ => Some stream
  end.

(** The node once the cache hook has run. *)
Definition cached (now : Z) (tag : MessageTypeTag) (stream : InputVectorStream)
    (n : RoutingNode) : RoutingNode :=
  match tag, ParseBody asGetDataResponse stream with
  | TagGetDataResponse, Some (response, _) =>
      match data response with
      | Some payload =>
          set_cache
            (LruCache.Add (cache_ n) now (get_data_response_name response) payload) n
      | None => n
      end
  | _, _ => n
  end.

(** The node with the filter key of [header] written to the filter. *)
Definition remembered (now : Z) (header : MessageHeader) (n : RoutingNode)
  : RoutingNode :=
  set_filter (LruCache.Add (filter_ n) now (FilterValue header) tt) n.

(** What [MessageReceived] does with a message it has forwarded. *)
Definition deliver (GetLocalIp : N) (message : SerialisedMessage)
    (header : MessageHeader) (tag : MessageTypeTag) (stream : InputVectorStream)
    (n : RoutingNode) : Run unit :=
  let cm := connection_manager_ n in
  if RelayedMessage header && reply_to_is_connected cm header then
    {| outcome := Returned tt; state := n; effects := relayed cm header message |}
  else if negb (AddressInCloseGroupRange cm (first (Destination header))) then
    {| outcome := Returned tt; state := n; effects := [] |}
  else if (bool_decide (tag = TagConnect) || bool_decide (tag = TagConnectResponse))
          && negb (N.eqb (first (Destination header)) (cm_OurId cm))
  then {| outcome := Returned tt; state := n; effects := [] |}
  else dispatch GetLocalIp tag stream header n.

(** The tags for which the [switch] has no handler to call. *)
Definition without_handler (tag : MessageTypeTag) : Prop :=
  tag = TagGetDataResponse \/ tag = TagPutDataResponse \/ tag = TagPostResponse.

(** The effect hands a message to the transport, for a peer or for a
    connected client. *)
Definition is_transmission (e : Effect) : Prop :=
  match e with
  | Send _ _ | SendToNonRoutingNode _ _ => True
  | _ => False
  end.

(** The effect hands the bytes [message] to the transport, for a peer or
    for a connected client. *)
Definition passes_on (message : SerialisedMessage) (e : Effect) : Prop :=
  match e with
  | Send _ m | SendToNonRoutingNode _ m => m = message
  | _ => False
  end.

(** A [GetData] cut off after its tag. *)
Definition truncated_get_data : SerialisedMessage :=
  [EncHeader (sample_header 9%N 1 7%N); EncTag TagGetData].

(** A [GetDataResponse] cut off after its tag. *)
Definition truncated_get_data_response : SerialisedMessage :=
  [EncHeader (sample_header 9%N 1 7%N); EncTag TagGetDataResponse].

(** A header from node 9 for node 7, to be relayed to client 11. *)
Definition relayed_header : MessageHeader :=
  {| destination_ := {| first := 7%N; second := Some 11%N |};
     source_ := {| node_address := 9%N; group_address := None;
                   reply_to_address := None |};
     header_message_id_ := 1;
     authority_ := node;
     signature_ := None |}.

(** [joined_node] with client 11 connected to it. *)
Definition serving_node : RoutingNode :=
  set_connection_manager
    {| cm_OurId := 7%N;
       GetTarget := fun _ => [sample_peer];
       GetNonRoutingNodes := [11%N];
       AddressInCloseGroupRange := fun _ => true;
       SuggestNodeToAdd := fun a => negb (N.eqb a 7);
       OurCloseGroup := [sample_peer];
       Size := 1%nat;
       AcceptingPort := 5483%N |}
    fresh_node.

Definition sample_get_data : GetData :=
  {| get_data_tag := 1%N; get_data_name := 5%N;
     get_data_requester := {| node_address := 9%N; group_address := None;
                              reply_to_address := None |} |}.

(** ** The handshake *)

(** The [FindGroupResponse] a node composes for [find_group]. *)
Definition response_to_find_group (find_group : FindGroup) (n : RoutingNode)
  : FindGroupResponse :=
  {| find_group_response_target_id := find_group_target_id find_group;
     group := map dht_fob (OurCloseGroup (connection_manager_ n))
              ++ [PublicPmid_of (our_fob_ n)] |}.

(** The [ConnectResponse] a node composes for [connect]. *)
Definition response_to_connect (GetLocalIp : N) (connect : Connect) (n : RoutingNode)
  : ConnectResponse :=
  {| response_requester_endpoints := connect_requester_endpoints connect;
     response_receiver_endpoints := NextEndpointPair GetLocalIp n;
     response_requester_id := connect_requester_id connect;
     response_receiver_id := OurId n;
     response_receiver_fob := PublicPmid_of (our_fob_ n) |}.

(** The header of an answer to [original_header]: it goes back to where
    the request came from, under the id of the request. *)
Definition answers (original_header answer : MessageHeader) : Prop :=
  Destination answer = ReturnDestinationAddress original_header
  /\ MessageId_of answer = MessageId_of original_header.

(** The header is signed by [n] over [body]. *)
Definition signed_by (n : RoutingNode) (body : MessageBody) (header : MessageHeader)
  : Prop :=
  signature_ header
  = Some {| signed_body := body; signing_key := private_key (our_fob_ n) |}.

(** The members of [response] that the tables of [n] would take. *)
Definition accepted (n : RoutingNode) (response : FindGroupResponse) : list PublicPmid :=
  List.filter (fun member => SuggestNodeToAdd (connection_manager_ n) (public_name member))
    (group response).

(** [n] after [count] times [++message_id_]. *)
Definition after_ids (count : nat) (n : RoutingNode) : RoutingNode :=
  Nat.iter count (fun s => set_message_id (next_message_id s) s) n.

(** The effect sends, to a routing target of [member], a [Connect] from
    [n] that is addressed to [member] and names it as receiver. *)
Definition is_connect_to (GetLocalIp : N) (n : RoutingNode) (member : PublicPmid)
    (e : Effect) : Prop :=
  exists target header,
    e = Send (id target)
          (Serialise header TagConnect
             (BodyConnect
                {| connect_requester_endpoints := NextEndpointPair GetLocalIp n;
                   connect_requester_id := OurId n;
                   connect_receiver_id := public_name member;
                   connect_requester_fob := PublicPmid_of (our_fob_ n) |}))
    /\ In target (GetTarget (connection_manager_ n) (public_name member))
    /\ Destination header = to_destination (public_name member)
    /\ Source header = OurSourceAddress n.

(** A group of three: the peer, this node, and node 9. *)
Definition sample_group_response : FindGroupResponse :=
  {| find_group_response_target_id := 7%N;
     group := [dht_fob sample_peer; PublicPmid_of sample_fob;
               {| public_name := 9%N; public_value := 90%N |}] |}.

(** A node with id 3, as the constructor leaves it. *)
Definition peer_node : RoutingNode :=
  state (RoutingNode_new {| name := 3%N; public_key := 30%N; private_key := 300%N |}
           10 [] 5483%N 0).

(** The [Connect] that [joined_node] sends to node 3. *)
Definition connect_from_joined_node : Connect :=
  {| connect_requester_endpoints := EndpointPair_default;
     connect_requester_id := 7%N;
     connect_receiver_id := 3%N;
     connect_requester_fob := PublicPmid_of sample_fob |}.

(** The [FindGroup] request a node sends once the bootstrap attempt for
    [contact] has succeeded. *)
Definition joining_request (contact : Contact) (n : RoutingNode) : SerialisedMessage :=
  Serialise
    (MessageHeader_unsigned (to_destination (OurId n))
       {| node_address := contact_id contact; group_address := None;
          reply_to_address := Some (OurId n) |}
       (next_message_id n) node)
    TagFindGroup
    (BodyFindGroup {| find_group_requester_id := OurId n; find_group_target_id := OurId n |}).

(** The members of a node that [MessageReceived] never assigns. *)
Definition standing (n : RoutingNode)
  : Pmid * option Address * option Endpoint * list Contact :=
  (our_fob_ n, bootstrap_node_ n, our_external_endpoint_ n, bootstrap_handler_ n).

(** A second node, with id 8, that is about to join with the same
    counter as [fresh_node]. *)
Definition other_joiner : RoutingNode :=
  state (RoutingNode_new {| name := 8%N; public_key := 80%N; private_key := 800%N |}
           4294967294 [sample_contact] 5483%N 0).

(** ** The life of a node *)

(** The event is the completion of a bootstrap attempt that reached the
    contact. *)
Definition bootstrap_success (e : Event) : Prop :=
  match e with
  | ConnectCompleted contact error addr _ => error = 0%N /\ addr = contact_id contact
  | _ => False
  end.

(** A day in the life of [fresh_node]: a failed bootstrap attempt, a
    request from node 9, and a call of [Get]. *)
Definition quiet_day : list Event :=
  [ConnectCompleted sample_contact 111%N 2%N (external (endpoint_pair sample_contact));
   Received 0 9%N (sample_find_group 1);
   CallGet 1%N 5%N].

(** What a node is given at its construction and keeps: its key pair
    and the times to live of its duplicate filter and of its cache. *)
Definition endowment (n : RoutingNode) : Pmid * Z * Z :=
  (our_fob_ n, LruCache.time_to_live (filter_ n), LruCache.time_to_live (cache_ n)).

(** The event is a call of [AddBootstrapContact]. *)
Definition adds_a_contact (e : Event) : Prop :=
  match e with
  | CallAddBootstrapContact _ => True
  | _ => False
  end.

(** The calls of the application that make the node compose a message. *)
Inductive Request :=
| RequestGet (data_tag : DataTagValue) (data_name : Identity)
| RequestPut (to : Address) (data_tag : DataTagValue) (serialised : SerialisedData)
| RequestPost (to : Address) (functor_tag : DataTagValue) (functor : SerialisedData).

Definition request (q : Request) : M unit :=
  match q with
  | RequestGet data_tag data_name => Get data_tag data_name
  | RequestPut to data_tag serialised => Put to data_tag serialised
  | RequestPost to functor_tag functor => Post to functor_tag functor
  end.

(** Where the request goes, the authority it claims, and the tag and
    the body it is sent with. *)
Definition request_destination (q : Request) : Address :=
  match q with
  | RequestGet _ data_name => data_name
  | RequestPut to _ _ | RequestPost to _ _ => to
  end.

Definition request_authority (q : Request) : Authority :=
  match q with
  | RequestPut _ _ _ => client
  | RequestGet _ _ | RequestPost _ _ _ => node
  end.

Definition request_tag (q : Request) : MessageTypeTag :=
  match q with
  | RequestGet _ _ => TagGetData
  | RequestPut _ _ _ => TagPutData
  | RequestPost _ _ _ => TagPost
  end.

Definition request_body (q : Request) (n : RoutingNode) : MessageBody :=
  match q with
  | RequestGet data_tag data_name =>
      BodyGetData {| get_data_tag := data_tag; get_data_name := data_name;
                     get_data_requester := OurSourceAddress n |}
  | RequestPut _ data_tag serialised =>
      BodyPutData {| put_data_tag := data_tag; put_data_payload := serialised |}
  | RequestPost _ functor_tag functor =>
      BodyPutData {| put_data_tag := functor_tag; put_data_payload := functor |}
  end.

(** ** Accounts *)

(** Two accounts of one client; the second has more stored. *)
Definition small_account : MaidManagerAccount.t :=
  {| MaidManagerAccount.name := 7%N; MaidManagerAccount.stored := 10%N;
     MaidManagerAccount.available := 100%N |}.

Definition large_account : MaidManagerAccount.t :=
  {| MaidManagerAccount.name := 7%N; MaidManagerAccount.stored := 20%N;
     MaidManagerAccount.available := 100%N |}.

(** ** Requests that reach a handler *)

(** The tags whose handler has an empty body. *)
Definition with_empty_handler (tag : MessageTypeTag) : Prop :=
  tag = TagPutData \/ tag = TagPost.

Definition sample_put_data : SerialisedMessage :=
  Serialise (sample_header 9%N 1 7%N) TagPutData
    (BodyPutData {| put_data_tag := 1%N; put_data_payload := [1%N] |}).

(** * Proofs *)

(** ** The node monad: frame rules *)

Section Frame.
Context {B : Type} (proj : RoutingNode -> B).

Lemma preserves_ret {A} (a : A) : preserves proj (mret a).
Proof. intros n. reflexivity. Qed.

Lemma preserves_bind {A C} (m : M A) (k : A -> M C) :
  preserves proj m -> (forall a, preserves proj (k a)) -> preserves proj (m ≫= k).
Proof.
  intros Hm Hk n. unfold mbind, M_bind.
  destruct (outcome (m n)) eqn:E; simpl; try apply Hm.
  rewrite Hk. apply Hm.
Qed.

Lemma preserves_get : preserves proj get.
Proof. intros n. reflexivity. Qed.

Lemma preserves_emit e : preserves proj (emit e).
Proof. intros n. reflexivity. Qed.

Lemma preserves_throw {A} e : preserves proj (@throw A e).
Proof. intros n. reflexivity. Qed.

Lemma preserves_assert b : preserves proj (assert b).
Proof. intros n. reflexivity. Qed.

Lemma preserves_lift {A} (f : RoutingNode -> Outcome A) : preserves proj (lift f).
Proof. intros n. reflexivity. Qed.

Lemma preserves_parsed {A} (r : option A) : preserves proj (parsed r).
Proof. destruct r; intros n; reflexivity. Qed.

Lemma preserves_modify f :
  (forall n, proj (f n) = proj n) -> preserves proj (modify f).
Proof. intros Hf n. apply Hf. Qed.

Lemma preserves_for_each {A} (xs : list A) (body : A -> M unit) :
  (forall x, preserves proj (body x)) -> preserves proj (for_each xs body).
Proof.
  intros Hbody. induction xs as [|x xs IH]; simpl.
  - apply preserves_ret.
  - apply preserves_bind; [apply Hbody | intros _; exact IH].
Qed.

End Frame.

Ltac frame_step :=
  first
    [ apply preserves_bind; [|intros ?]
    | apply preserves_ret
    | apply preserves_get
    | apply preserves_emit
    | apply preserves_throw
    | apply preserves_assert
    | apply preserves_lift
    | apply preserves_parsed
    | apply preserves_for_each; intros ?
    | match goal with
      | |- preserves _ (if ?b then _ else _) => destruct b
      | |- preserves _ (match ?x with _ => _ end) => destruct x
      end ].

Section FrameOfHandlers.
Variable QuorumSize : nat.
Variable GetLocalIp : N.
Context {B : Type} (proj : RoutingNode -> B).
Hypothesis proj_message_id : forall v n, proj (set_message_id v n) = proj n.

Ltac frame :=
  repeat frame_step;
  try (apply preserves_modify; intros ?; apply proj_message_id).

Lemma preserves_send_to_targets targets message :
  preserves proj (send_to_targets targets message).
Proof. unfold send_to_targets. frame. Qed.

Lemma preserves_Get data_tag data_name : preserves proj (Get data_tag data_name).
Proof. unfold Get. frame. Qed.

Lemma preserves_Put to data_tag serialised : preserves proj (Put to data_tag serialised).
Proof. unfold Put. frame. Qed.

Lemma preserves_Post to functor_tag functor :
  preserves proj (Post to functor_tag functor).
Proof. unfold Post. frame. Qed.

Lemma preserves_ConnectToCloseGroup : preserves proj ConnectToCloseGroup.
Proof. unfold ConnectToCloseGroup. frame. Qed.

Lemma preserves_dispatch tag stream header :
  preserves proj (dispatch GetLocalIp tag stream header).
Proof.
  unfold dispatch, HandleMessage_Connect, HandleMessage_ConnectResponse,
    HandleMessage_FindGroup, HandleMessage_FindGroupResponse,
    HandleMessage_GetData, HandleMessage_PutData, HandleMessage_Post.
  destruct tag; frame.
Qed.

Lemma preserves_ConnectionLost diff peer : preserves proj (ConnectionLost diff peer).
Proof. unfold ConnectionLost. frame. Qed.

Lemma preserves_OnAddNodeAccept alive added :
  preserves proj (OnAddNodeAccept alive added).
Proof. unfold OnAddNodeAccept. frame. Qed.

End FrameOfHandlers.

(** ** The LRU cache: what an access sees *)

Section LruCacheFacts.
Context {K V : Type} `{Countable K}.
Implicit Types (c : LruCache.t K V) (k : K) (v : V).

Lemma live_lookup_Some c now k v t :
  LruCache.live c now !! k = Some (v, t) <->
  LruCache.storage c !! k = Some (v, t) /\ now - t ≤ LruCache.time_to_live c.
Proof. unfold LruCache.live. rewrite map_lookup_filter_Some. reflexivity. Qed.

Lemma Check_true c now k :
  LruCache.Check c now k = true <->
  exists v t, LruCache.storage c !! k = Some (v, t)
              /\ now - t ≤ LruCache.time_to_live c.
Proof.
  unfold LruCache.Check. rewrite bool_decide_eq_true. split.
  - intros [[v t] Hl]. exists v, t. by apply live_lookup_Some.
  - intros (v & t & Hs & Ht). exists (v, t). by apply live_lookup_Some.
Qed.

Lemma time_to_live_Add c now k v :
  LruCache.time_to_live (LruCache.Add c now k v) = LruCache.time_to_live c.
Proof. reflexivity. Qed.

Lemma storage_Add_same c now k v :
  LruCache.storage (LruCache.Add c now k v) !! k = Some (v, now).
Proof. unfold LruCache.Add; simpl. apply lookup_insert_eq. Qed.

Lemma storage_Add_other c now k k' v :
  k' ≠ k ->
  LruCache.storage (LruCache.Add c now k' v) !! k = LruCache.live c now !! k.
Proof. intros Hne. unfold LruCache.Add; simpl. by apply lookup_insert_ne. Qed.

(** What was added is served until it has outlived the time to live. *)
Lemma Get_Add_same c now k v later :
  later - now ≤ LruCache.time_to_live c ->
  LruCache.Get (LruCache.Add c now k v) later k = Some v.
Proof.
  intros Hlive. unfold LruCache.Get.
  assert (Hl : LruCache.live (LruCache.Add c now k v) later !! k = Some (v, now)).
  { apply live_lookup_Some. split; [apply storage_Add_same | done]. }
  by rewrite Hl.
Qed.

Lemma holds_since_Check c k start now :
  holds_since c k start -> now ≤ start + LruCache.time_to_live c ->
  LruCache.Check c now k = true.
Proof.
  intros (v & t & Hs & Ht) Hnow. apply Check_true. exists v, t. split; [done | lia].
Qed.

Lemma holds_since_Add_same c k start now v :
  start ≤ now -> holds_since (LruCache.Add c now k v) k start.
Proof. intros Hle. exists v, now. split; [apply storage_Add_same | done]. Qed.

Lemma holds_since_Add_other c k k' start now v :
  k' ≠ k -> holds_since c k start -> now ≤ start + LruCache.time_to_live c ->
  holds_since (LruCache.Add c now k' v) k start.
Proof.
  intros Hne (w & t & Hs & Ht) Hnow. exists w, t. split; [|done].
  rewrite storage_Add_other by done. apply live_lookup_Some. split; [done | lia].
Qed.

End LruCacheFacts.

(** ** The node monad: what a computation emits *)

Section Emits.
Context (P : Effect -> Prop).

Lemma emits_ret {A} (a : A) : emits P (mret a).
Proof. intros n. constructor. Qed.

Lemma emits_bind {A C} (m : M A) (k : A -> M C) :
  emits P m -> (forall a, emits P (k a)) -> emits P (m ≫= k).
Proof.
  intros Hm Hk n. unfold mbind, M_bind.
  destruct (outcome (m n)) eqn:E; simpl; try apply Hm.
  apply Forall_app. split; [apply Hm | apply Hk].
Qed.

Lemma emits_get : emits P get.
Proof. intros n. constructor. Qed.

Lemma emits_modify f : emits P (modify f).
Proof. intros n. constructor. Qed.

Lemma emits_emit e : P e -> emits P (emit e).
Proof. intros He n. repeat constructor. exact He. Qed.

Lemma emits_throw {A} e : emits P (@throw A e).
Proof. intros n. constructor. Qed.

Lemma emits_assert b : emits P (assert b).
Proof. intros n. constructor. Qed.

Lemma emits_lift {A} (f : RoutingNode -> Outcome A) : emits P (lift f).
Proof. intros n. constructor. Qed.

Lemma emits_parsed {A} (r : option A) : emits P (parsed r).
Proof. destruct r; intros n; constructor. Qed.

Lemma emits_for_each {A} (xs : list A) (body : A -> M unit) :
  (forall x, emits P (body x)) -> emits P (for_each xs body).
Proof.
  intros Hbody. induction xs as [|x xs IH]; simpl.
  - apply emits_ret.
  - apply emits_bind; [apply Hbody | intros _; exact IH].
Qed.

End Emits.

Ltac emits_step :=
  first
    [ apply emits_bind; [|intros ?]
    | apply emits_ret
    | apply emits_get
    | apply emits_modify
    | apply emits_throw
    | apply emits_assert
    | apply emits_lift
    | apply emits_parsed
    | apply emits_for_each; intros ?
    | apply emits_emit; simpl; solve [auto]
    | match goal with
      | |- emits _ (if ?b then _ else _) => destruct b
      | |- emits _ (match ?x with _ => _ end) => destruct x
      end ].

Section Handlers.
Variable QuorumSize : nat.
Variable GetLocalIp : N.

Lemma Get_no_dispatch data_tag data_name : emits no_dispatch (Get data_tag data_name).
Proof. unfold Get, send_to_targets, increment_message_id, no_dispatch. repeat emits_step. Qed.

Lemma Put_no_dispatch to data_tag serialised :
  emits no_dispatch (Put to data_tag serialised).
Proof. unfold Put, send_to_targets, increment_message_id, no_dispatch. repeat emits_step. Qed.

Lemma Post_no_dispatch to functor_tag functor :
  emits no_dispatch (Post to functor_tag functor).
Proof. unfold Post, send_to_targets, increment_message_id, no_dispatch. repeat emits_step. Qed.

Lemma ConnectToCloseGroup_no_dispatch : emits no_dispatch ConnectToCloseGroup.
Proof. unfold ConnectToCloseGroup, increment_message_id, no_dispatch. repeat emits_step. Qed.

Lemma OnConnect_no_dispatch contact error addr our_endpoint :
  emits no_dispatch (OnConnect contact error addr our_endpoint).
Proof.
  unfold OnConnect.
  repeat first [apply ConnectToCloseGroup_no_dispatch | emits_step].
Qed.

Lemma OnAddNode_no_dispatch alive added :
  emits no_dispatch (OnAddNode QuorumSize alive added).
Proof. unfold OnAddNode, no_dispatch. repeat emits_step. Qed.

Lemma OnAddNodeAccept_no_dispatch alive added :
  emits no_dispatch (OnAddNodeAccept alive added).
Proof. unfold OnAddNodeAccept, no_dispatch. repeat emits_step. Qed.

Lemma ConnectionLost_no_dispatch diff peer :
  emits no_dispatch (ConnectionLost diff peer).
Proof. unfold ConnectionLost, no_dispatch. repeat emits_step. Qed.

Lemma handlers_no_dispatch :
  (forall m h, emits no_dispatch (HandleMessage_Connect GetLocalIp m h))
  /\ (forall m, emits no_dispatch (HandleMessage_ConnectResponse m))
  /\ (forall m h, emits no_dispatch (HandleMessage_FindGroup m h))
  /\ (forall m h, emits no_dispatch (HandleMessage_FindGroupResponse GetLocalIp m h))
  /\ (forall m h, emits no_dispatch (HandleMessage_GetData m h))
  /\ (forall m h, emits no_dispatch (HandleMessage_PutData m h))
  /\ (forall m h, emits no_dispatch (HandleMessage_Post m h)).
Proof.
  unfold HandleMessage_Connect, HandleMessage_ConnectResponse,
    HandleMessage_FindGroup, HandleMessage_FindGroupResponse,
    HandleMessage_GetData, HandleMessage_PutData, HandleMessage_Post,
    send_to_targets, increment_message_id, no_dispatch.
  repeat split; intros; repeat emits_step.
Qed.

End Handlers.

(** ** Counting dispatches *)

Lemma dispatches_app k l1 l2 :
  dispatches k (l1 ++ l2) = (dispatches k l1 + dispatches k l2)%nat.
Proof. unfold dispatches. rewrite List.filter_app, length_app. reflexivity. Qed.

Lemma dispatches_no_dispatch k l : Forall no_dispatch l -> dispatches k l = 0%nat.
Proof.
  unfold dispatches. induction 1 as [|e l He _ IH]; [reflexivity|].
  simpl. destruct e; simpl in *; try exact IH. discriminate He.
Qed.

Lemma dispatch_bound_quiet {A} k b (m : M A) :
  emits no_dispatch m -> dispatch_bound k b m.
Proof. intros Hm n. rewrite dispatches_no_dispatch by apply Hm. lia. Qed.

Lemma dispatch_bound_bind {A C} k b (m : M A) (f : A -> M C) :
  emits no_dispatch m -> (forall a, dispatch_bound k b (f a)) ->
  dispatch_bound k b (m ≫= f).
Proof.
  intros Hm Hf n. unfold mbind, M_bind.
  destruct (outcome (m n)) eqn:E; simpl.
  - rewrite dispatches_app, (dispatches_no_dispatch _ _ (Hm n)). apply Hf.
  - rewrite (dispatches_no_dispatch _ _ (Hm n)). lia.
  - rewrite (dispatches_no_dispatch _ _ (Hm n)). lia.
Qed.

Section Dispatching.
Variable QuorumSize : nat.
Variable GetLocalIp : N.

Lemma dispatch_bound_started {A} k tag header (handler : M A) :
  emits no_dispatch handler ->
  dispatch_bound k (share k header) (emit (Dispatched tag header) ;; handler).
Proof.
  intros Hh n. unfold mbind, M_bind, emit; simpl.
  pose proof (dispatches_no_dispatch k _ (Hh n)) as Hzero.
  unfold dispatches, share in *; simpl.
  destruct (bool_decide _); simpl; lia.
Qed.

Lemma dispatch_bound_dispatch k tag stream header :
  dispatch_bound k (share k header) (dispatch GetLocalIp tag stream header).
Proof.
  destruct (handlers_no_dispatch GetLocalIp) as (H1 & H2 & H3 & H4 & H5 & H6 & H7).
  unfold dispatch.
  destruct tag;
    try (apply dispatch_bound_quiet; apply emits_ret);
    (apply dispatch_bound_bind; [apply emits_parsed | intros [m rest]]);
    apply dispatch_bound_started; auto.
Qed.

Lemma add_to_cache_no_dispatch now tag stream :
  emits no_dispatch (add_to_cache now tag stream).
Proof. unfold add_to_cache, no_dispatch. repeat emits_step. Qed.

Lemma try_cache_no_dispatch now tag stream :
  emits no_dispatch (try_cache now tag stream).
Proof. unfold try_cache, no_dispatch. repeat emits_step. Qed.

Lemma send_to_targets_no_dispatch targets message :
  emits no_dispatch (send_to_targets targets message).
Proof. unfold send_to_targets, no_dispatch. repeat emits_step. Qed.

Lemma dispatch_bound_process k now message header tag stream :
  dispatch_bound k (share k header) (process GetLocalIp now message header tag stream).
Proof.
  unfold process, route.
  apply dispatch_bound_bind; [apply add_to_cache_no_dispatch | intros s1].
  apply dispatch_bound_bind; [apply try_cache_no_dispatch | intros s2].
  apply dispatch_bound_bind; [apply emits_get | intros n].
  apply dispatch_bound_bind; [apply send_to_targets_no_dispatch | intros _].
  destruct (_ && _).
  { apply dispatch_bound_quiet. unfold no_dispatch. repeat emits_step. }
  destruct (negb _); [apply dispatch_bound_quiet, emits_ret|].
  destruct (_ && _); [apply dispatch_bound_quiet, emits_ret|].
  apply dispatch_bound_dispatch.
Qed.

End Dispatching.

(** ** What a reception does to the node *)

Section Reception.
Variable QuorumSize : nat.
Variable GetLocalIp : N.

Section FrameOfProcess.
Context {B : Type} (proj : RoutingNode -> B).
Hypothesis proj_message_id : forall v n, proj (set_message_id v n) = proj n.

Lemma preserves_route now message header tag stream :
  preserves proj (route GetLocalIp now message header tag stream).
Proof.
  unfold route, try_cache.
  repeat first
    [ apply preserves_dispatch; assumption
    | apply preserves_send_to_targets; assumption
    | frame_step ].
Qed.

Hypothesis proj_cache : forall v n, proj (set_cache v n) = proj n.

Lemma preserves_process now message header tag stream :
  preserves proj (process GetLocalIp now message header tag stream).
Proof.
  unfold process, add_to_cache.
  repeat first
    [ apply preserves_route
    | apply preserves_modify; intros ?; apply proj_cache
    | frame_step ].
Qed.

End FrameOfProcess.

(** A reception either does nothing at all, or it is the first of its
    key: the key goes into the filter and the rest of the pipeline
    runs. *)
Lemma MessageReceived_cases now peer_id message n :
  MessageReceived GetLocalIp now peer_id message n
    = {| outcome := Returned tt; state := n; effects := [] |}
  \/ exists header tag stream,
       ParseHeader message = Some (header, tag, stream)
       /\ LruCache.Check (filter_ n) now (FilterValue header) = false
       /\ MessageReceived GetLocalIp now peer_id message n
          = process GetLocalIp now message header tag stream
              (set_filter (LruCache.Add (filter_ n) now (FilterValue header) tt) n).
Proof.
  unfold MessageReceived.
  destruct (ParseHeader message) as [[[header tag] stream]|] eqn:Hparse; [|by left].
  unfold mbind, M_bind; simpl.
  destruct (LruCache.Check _ _ _) eqn:Hcheck; simpl; [by left|].
  right. exists header, tag, stream. repeat split; try done.
  destruct (process _ _ _ _ _ _ _) as [o s l]; simpl. by destruct o.
Qed.

Lemma other_events_keep_filter e n :
  match e with Received _ _ _ => False | _ => True end ->
  filter_ (state (handle QuorumSize GetLocalIp e n)) = filter_ n
  /\ Forall no_dispatch (effects (handle QuorumSize GetLocalIp e n)).
Proof.
  destruct e; simpl; intros He; try contradiction; split;
    try (apply (preserves_ConnectionLost filter_)
         || apply (preserves_OnAddNodeAccept filter_)
         || apply (preserves_Get filter_)
         || apply (preserves_Put filter_)
         || apply (preserves_Post filter_)); try done;
    try (apply ConnectionLost_no_dispatch || apply OnConnect_no_dispatch
         || apply OnAddNode_no_dispatch || apply OnAddNodeAccept_no_dispatch
         || apply Get_no_dispatch || apply Put_no_dispatch
         || apply Post_no_dispatch).
  - assert (Hp : preserves filter_ (OnConnect contact error addr our_endpoint)).
    { unfold OnConnect.
      repeat first
        [ apply preserves_ConnectToCloseGroup; done
        | apply preserves_modify; done
        | frame_step ]. }
    apply Hp.
  - assert (Hp : preserves filter_ (OnAddNode QuorumSize alive added)).
    { unfold OnAddNode.
      repeat first [ apply preserves_modify; done | frame_step ]. }
    apply Hp.
Qed.

Section OneKey.
Variable k : Address * MessageId.
Variable start : Z.

Lemma handle_step e n :
  in_window start n e ->
  let r := handle QuorumSize GetLocalIp e n in
  LruCache.time_to_live (filter_ (state r)) = LruCache.time_to_live (filter_ n)
  /\ (dispatches k (effects r) ≤ 1)%nat
  /\ (holds_since (filter_ n) k start ->
      holds_since (filter_ (state r)) k start /\ dispatches k (effects r) = 0%nat)
  /\ (dispatches k (effects r) ≠ 0%nat -> holds_since (filter_ (state r)) k start).
Proof.
  intros Hwin r.
  destruct e as [now peer_id message| | | | | | | | |];
    try (match goal with
         | r := handle _ _ ?ev _ |- _ =>
             destruct (other_events_keep_filter ev n I) as [Hf Hq]
         end;
         fold r in Hf, Hq; rewrite Hf, (dispatches_no_dispatch _ _ Hq);
         repeat split; try done; lia).
  simpl in Hwin. subst r. simpl.
  destruct (MessageReceived_cases now peer_id message n)
    as [-> | (header & tag & stream & Hparse & Hcheck & ->)]; simpl.
  { repeat split; try done; unfold dispatches; simpl; lia. }
  set (n' := set_filter _ n).
  assert (Hfilter : filter_ (state (process GetLocalIp now message header tag stream n'))
                    = LruCache.Add (filter_ n) now (FilterValue header) tt).
  { by rewrite (preserves_process filter_). }
  pose proof (dispatch_bound_process GetLocalIp k now message header tag stream n')
    as Hbound.
  rewrite Hfilter, time_to_live_Add. unfold share in Hbound.
  split; [done|]. split; [destruct (bool_decide _); lia|]. split.
  - intros Hheld.
    assert (Hne : FilterValue header ≠ k).
    { intros Heq. rewrite Heq in Hcheck.
      rewrite (holds_since_Check _ _ start) in Hcheck by (done || lia).
      discriminate. }
    split; [apply holds_since_Add_other; (done || lia)|].
    rewrite bool_decide_eq_false_2 in Hbound by done. lia.
  - intros Hsome.
    destruct (bool_decide_reflect (FilterValue header = k)) as [Heq|]; [|lia].
    rewrite Heq. apply holds_since_Add_same. lia.
Qed.

Lemma run_cons e events n :
  snd (run QuorumSize GetLocalIp (e :: events) n)
  = effects (handle QuorumSize GetLocalIp e n)
    ++ match outcome (handle QuorumSize GetLocalIp e n) with
       | AssertFailed => []
       | _ => snd (run QuorumSize GetLocalIp events
                     (state (handle QuorumSize GetLocalIp e n)))
       end.
Proof.
  simpl. destruct (outcome _); simpl; try (by rewrite app_nil_r);
    by destruct (run _ _ _ _).
Qed.

Lemma no_dispatch_while_held events : forall n,
  holds_since (filter_ n) k start ->
  received_within start (LruCache.time_to_live (filter_ n)) events ->
  dispatches k (snd (run QuorumSize GetLocalIp events n)) = 0%nat.
Proof.
  induction events as [|e events IH]; intros n Hheld Hwin; [reflexivity|].
  apply Forall_cons in Hwin as [He Hwin].
  destruct (handle_step e n) as (Httl & _ & Hkeep & _).
  { destruct e; simpl; done. }
  destruct (Hkeep Hheld) as [Hheld' Hzero].
  rewrite run_cons, dispatches_app, Hzero. simpl.
  destruct (outcome _); try reflexivity; apply IH; try done; by rewrite Httl.
Qed.

Lemma at_most_one_dispatch events : forall n,
  received_within start (LruCache.time_to_live (filter_ n)) events ->
  (dispatches k (snd (run QuorumSize GetLocalIp events n)) ≤ 1)%nat.
Proof.
  induction events as [|e events IH]; intros n Hwin; [simpl; unfold dispatches; simpl; lia|].
  apply Forall_cons in Hwin as [He Hwin].
  destruct (handle_step e n) as (Httl & Hone & _ & Hheld).
  { destruct e; simpl; done. }
  rewrite run_cons, dispatches_app.
  destruct (decide (dispatches k (effects (handle QuorumSize GetLocalIp e n)) = 0%nat))
    as [Hzero | Hsome].
  - rewrite Hzero. simpl.
    destruct (outcome _); try (unfold dispatches; simpl; lia);
      apply IH; by rewrite Httl.
  - specialize (Hheld Hsome).
    assert (Hrest : dispatches k
              (snd (run QuorumSize GetLocalIp events
                      (state (handle QuorumSize GetLocalIp e n)))) = 0%nat).
    { apply no_dispatch_while_held; [done | by rewrite Httl]. }
    destruct (outcome _); rewrite ?Hrest;
      change (dispatches k []) with 0%nat; lia.
Qed.

End OneKey.

End Reception.

(** ** Run equations *)

Lemma send_to_targets_run targets message n :
  send_to_targets targets message n
  = {| outcome := Returned tt; state := n;
       effects := map (fun target => Send (id target) message) targets |}.
Proof.
  unfold send_to_targets.
  induction targets as [|target targets IH]; [reflexivity|].
  simpl. unfold mbind, M_bind; simpl. by rewrite IH.
Qed.

Section DirectMessages.
Variable GetLocalIp : N.

Lemma route_direct now message header tag stream n :
  tag = TagConnect \/ tag = TagConnectResponse ->
  let cm := connection_manager_ n in
  route GetLocalIp now message header tag stream n
  = after (forwarded cm header message)
      (if RelayedMessage header && reply_to_is_connected cm header then
         {| outcome := Returned tt; state := n;
            effects := relayed cm header message |}
       else if negb (AddressInCloseGroupRange cm (first (Destination header))) then
         {| outcome := Returned tt; state := n; effects := [] |}
       else if negb (N.eqb (first (Destination header)) (cm_OurId cm)) then
         {| outcome := Returned tt; state := n; effects := [] |}
       else dispatch GetLocalIp tag stream header n).
Proof.
  intros Htag cm. unfold route, try_cache, relayed, forwarded.
  assert (Hcache : bool_decide (tag = TagGetData) = false)
    by (destruct Htag as [-> | ->]; reflexivity).
  assert (Hdirect : bool_decide (tag = TagConnect) || bool_decide (tag = TagConnectResponse)
                    = true)
    by (destruct Htag as [-> | ->]; reflexivity).
  rewrite Hcache, Hdirect. unfold mbind, M_bind; simpl.
  rewrite send_to_targets_run; simpl. fold cm.
  destruct (RelayedMessage header && reply_to_is_connected cm header); simpl.
  { unfold after; simpl. destruct (ReplyToAddress header); reflexivity. }
  destruct (AddressInCloseGroupRange cm (first (Destination header))); simpl;
    [|reflexivity].
  destruct (N.eqb (first (Destination header)) (cm_OurId cm)); reflexivity.
Qed.

Lemma process_direct now message header tag stream n :
  tag = TagConnect \/ tag = TagConnectResponse ->
  process GetLocalIp now message header tag stream n
  = route GetLocalIp now message header tag stream n.
Proof.
  intros Htag. unfold process, add_to_cache.
  assert (Hcache : bool_decide (tag = TagGetDataResponse) = false)
    by (destruct Htag as [-> | ->]; reflexivity).
  rewrite Hcache. unfold mbind, M_bind; simpl.
  destruct (route _ _ _ _ _ _ _) as [o s l]; simpl. by destruct o.
Qed.

End DirectMessages.

Lemma forwarded_no_dispatch cm header message :
  Forall no_dispatch (forwarded cm header message).
Proof. unfold forwarded. apply Forall_map, Forall_forall. by intros. Qed.

Lemma relayed_no_dispatch cm header message :
  Forall no_dispatch (relayed cm header message).
Proof.
  unfold relayed. destruct (_ && _); [|constructor].
  destruct (ReplyToAddress header); repeat constructor.
Qed.

Section FirstAndLater.
Variable GetLocalIp : N.

Lemma MessageReceived_duplicate now peer_id message header tag stream n :
  ParseHeader message = Some (header, tag, stream) ->
  LruCache.Check (filter_ n) now (FilterValue header) = true ->
  MessageReceived GetLocalIp now peer_id message n
  = {| outcome := Returned tt; state := n; effects := [] |}.
Proof.
  intros Hparse Hcheck. unfold MessageReceived. rewrite Hparse.
  unfold mbind, M_bind; simpl. by rewrite Hcheck.
Qed.

Lemma MessageReceived_first now peer_id message header tag stream n :
  ParseHeader message = Some (header, tag, stream) ->
  LruCache.Check (filter_ n) now (FilterValue header) = false ->
  MessageReceived GetLocalIp now peer_id message n
  = process GetLocalIp now message header tag stream
      (set_filter (LruCache.Add (filter_ n) now (FilterValue header) tt) n).
Proof.
  intros Hparse Hcheck. unfold MessageReceived. rewrite Hparse.
  unfold mbind, M_bind; simpl. rewrite Hcheck; simpl.
  destruct (process _ _ _ _ _ _ _) as [o s l]; simpl. by destruct o.
Qed.

End FirstAndLater.

(** ** The node monad: running a bind *)

Lemma bind_run {A B} (m : M A) (k : A -> M B) n r :
  m n = r ->
  (m ≫= k) n
  = match outcome r with
    | Returned a => after (effects r) (k a (state r))
    | Threw e => {| outcome := Threw e; state := state r; effects := effects r |}
    | AssertFailed =>
        {| outcome := AssertFailed; state := state r; effects := effects r |}
    end.
Proof. intros <-. unfold mbind, M_bind, after. by destruct (outcome (m n)). Qed.

Lemma bind_returned {A B} (m : M A) (k : A -> M B) n a s :
  m n = {| outcome := Returned a; state := s; effects := [] |} ->
  (m ≫= k) n = k a s.
Proof.
  intros Hm. rewrite (bind_run _ _ _ _ Hm); simpl.
  unfold after; simpl. by destruct (k a s).
Qed.

Lemma get_run n : get n = {| outcome := Returned n; state := n; effects := [] |}.
Proof. reflexivity. Qed.

Lemma try_cache_run now tag stream n :
  try_cache now tag stream n
  = {| outcome :=
         match (if bool_decide (tag = TagGetData)
                then snd <$> ParseBody asGetData stream else Some stream) with
         | Some rest => Returned rest
         | None => Threw parsing_error
         end;
       state := n; effects := [] |}.
Proof.
  unfold try_cache. destruct (bool_decide (tag = TagGetData)); [|reflexivity].
  by destruct (ParseBody asGetData stream) as [[get_data rest]|].
Qed.

Lemma add_to_cache_run now tag stream n :
  add_to_cache now tag stream n
  = {| outcome :=
         match (if bool_decide (tag = TagGetDataResponse)
                then snd <$> ParseBody asGetDataResponse stream else Some stream) with
         | Some rest => Returned rest
         | None => Threw parsing_error
         end;
       state := cached now tag stream n; effects := [] |}.
Proof.
  unfold add_to_cache, cached.
  destruct (bool_decide (tag = TagGetDataResponse)) eqn:Htag.
  - apply bool_decide_eq_true in Htag. subst tag.
    destruct (ParseBody asGetDataResponse stream) as [[response rest]|];
      [|reflexivity].
    unfold mbind, M_bind; simpl. by destruct (data response).
  - apply bool_decide_eq_false in Htag. by destruct tag.
Qed.

(** ** The stages of a reception *)

Section Stages.
Variable GetLocalIp : N.

Lemma route_run now message header tag stream n :
  route GetLocalIp now message header tag stream n
  = match (if bool_decide (tag = TagGetData)
           then snd <$> ParseBody asGetData stream else Some stream) with
    | None => {| outcome := Threw parsing_error; state := n; effects := [] |}
    | Some rest =>
        after (forwarded (connection_manager_ n) header message)
          (deliver GetLocalIp message header tag rest n)
    end.
Proof.
  unfold route. rewrite (bind_run _ _ _ _ (try_cache_run now tag stream n)).
  cbn [outcome state effects].
  destruct (if bool_decide (tag = TagGetData) then _ else _) as [rest|];
    [|reflexivity].
  cbv beta. rewrite (bind_returned _ _ _ _ _ (get_run n)).
  rewrite (bind_run _ _ _ _ (send_to_targets_run _ message n)).
  unfold forwarded, deliver, relayed, after; cbn [outcome state effects].
  destruct (RelayedMessage header && reply_to_is_connected _ header).
  { destruct (ReplyToAddress header); reflexivity. }
  destruct (negb (AddressInCloseGroupRange _ _)); [reflexivity|].
  destruct (_ && _); reflexivity.
Qed.

Lemma process_run now message header tag stream n :
  process GetLocalIp now message header tag stream n
  = match unread tag stream with
    | None => {| outcome := Threw parsing_error; state := n; effects := [] |}
    | Some rest =>
        let n' := cached now tag stream n in
        after (forwarded (connection_manager_ n') header message)
          (deliver GetLocalIp message header tag rest n')
    end.
Proof.
  unfold process. rewrite (bind_run _ _ _ _ (add_to_cache_run now tag stream n)).
  cbn [outcome state effects].
  destruct tag; cbn [bool_decide decide_rel unread]; simpl;
    try (rewrite route_run; simpl; unfold after; simpl;
         by match goal with |- context [deliver ?a ?b ?c ?d ?e ?f] =>
              destruct (deliver a b c d e f) end).
  - rewrite route_run; simpl.
    destruct (ParseBody asGetData stream) as [[get_data rest]|]; simpl;
      [|reflexivity].
    unfold after; simpl. by destruct (deliver _ _ _ _ _ _).
  - unfold cached.
    destruct (ParseBody asGetDataResponse stream) as [[response rest]|]; simpl;
      [|reflexivity].
    rewrite route_run; simpl. unfold after; simpl.
    by destruct (deliver _ _ _ _ _ _).
Qed.

Lemma connection_manager_cached now tag stream n :
  connection_manager_ (cached now tag stream n) = connection_manager_ n.
Proof.
  unfold cached. destruct tag; try reflexivity.
  destruct (ParseBody _ _) as [[response rest]|]; [|reflexivity].
  by destruct (data response).
Qed.

(** A first reception, stage by stage. *)
Lemma MessageReceived_run now peer_id message header tag stream n :
  ParseHeader message = Some (header, tag, stream) ->
  LruCache.Check (filter_ n) now (FilterValue header) = false ->
  MessageReceived GetLocalIp now peer_id message n
  = match unread tag stream with
    | None =>
        {| outcome := Threw parsing_error; state := remembered now header n;
           effects := [] |}
    | Some rest =>
        let n' := cached now tag stream (remembered now header n) in
        after (forwarded (connection_manager_ n) header message)
          (deliver GetLocalIp message header tag rest n')
    end.
Proof.
  intros Hparse Hcheck.
  rewrite (MessageReceived_first _ _ _ _ _ _ _ _ Hparse Hcheck), process_run.
  fold (remembered now header n).
  destruct (unread tag stream); [|reflexivity].
  cbv zeta. by rewrite connection_manager_cached.
Qed.

End Stages.

(** ** What is passed on *)

Lemma forwarded_passes_on cm header message :
  Forall (passes_on message) (forwarded cm header message).
Proof. unfold forwarded. apply Forall_map, Forall_forall. by intros. Qed.

Lemma relayed_passes_on cm header message :
  Forall (passes_on message) (relayed cm header message).
Proof.
  unfold relayed. destruct (_ && _); [|constructor].
  destruct (ReplyToAddress header); repeat constructor.
Qed.

Lemma reply_to_is_connected_client cm header client :
  ReplyToAddress header = Some client ->
  In client (GetNonRoutingNodes cm) ->
  RelayedMessage header && reply_to_is_connected cm header = true.
Proof.
  intros Hreply Hin. unfold RelayedMessage, reply_to_is_connected.
  unfold ReplyToAddress in *. rewrite Hreply.
  apply andb_true_intro. split; [by apply bool_decide_eq_true|].
  apply existsb_exists. exists client. split; [done|]. apply N.eqb_refl.
Qed.

Lemma deliver_without_handler GetLocalIp message header tag stream n :
  without_handler tag ->
  deliver GetLocalIp message header tag stream n
  = {| outcome := Returned tt; state := n;
       effects := relayed (connection_manager_ n) header message |}.
Proof.
  intros Htag. unfold deliver, relayed.
  destruct (RelayedMessage header && reply_to_is_connected _ header); [reflexivity|].
  destruct (negb (AddressInCloseGroupRange _ _)); [reflexivity|].
  destruct (_ && _); [reflexivity|].
  destruct Htag as [-> | [-> | ->]]; reflexivity.
Qed.

(** ** What no event changes *)

Section FrameOfEvents.
Variable QuorumSize : nat.
Variable GetLocalIp : N.
Context {B : Type} (proj : RoutingNode -> B).
Hypothesis proj_message_id : forall v n, proj (set_message_id v n) = proj n.
Hypothesis proj_cache : forall v n, proj (set_cache v n) = proj n.
Hypothesis proj_filter : forall v n, proj (set_filter v n) = proj n.
Hypothesis proj_bootstrap_node : forall v n, proj (set_bootstrap_node v n) = proj n.
Hypothesis proj_our_external_endpoint :
  forall v n, proj (set_our_external_endpoint v n) = proj n.
Hypothesis proj_bootstrap_handler :
  forall v n, proj (set_bootstrap_handler v n) = proj n.
Hypothesis proj_tables :
  forall view n,
    proj (set_connection_manager
            {| cm_OurId := cm_OurId (connection_manager_ n);
               GetTarget := GetTarget view;
               GetNonRoutingNodes := GetNonRoutingNodes view;
               AddressInCloseGroupRange := AddressInCloseGroupRange view;
               SuggestNodeToAdd := SuggestNodeToAdd view;
               OurCloseGroup := OurCloseGroup view;
               Size := Size view;
               AcceptingPort := AcceptingPort (connection_manager_ n) |} n)
    = proj n.

Lemma preserves_handle e : preserves proj (handle QuorumSize GetLocalIp e).
Proof.
  destruct e; cbn [handle].
  - intros n.
    destruct (MessageReceived_cases GetLocalIp now peer_id serialised_message n)
      as [-> | (header & tag & stream & _ & _ & ->)]; [reflexivity|].
    rewrite (preserves_process GetLocalIp proj) by done. apply proj_filter.
  - apply preserves_ConnectionLost.
  - unfold OnConnect.
    repeat first
      [ apply preserves_ConnectToCloseGroup; done
      | apply preserves_modify; done
      | frame_step ].
  - unfold OnAddNode.
    repeat first [ apply preserves_modify; done | frame_step ].
  - apply preserves_OnAddNodeAccept.
  - by apply preserves_Get.
  - by apply preserves_Put.
  - by apply preserves_Post.
  - apply preserves_modify. intros n. apply proj_bootstrap_handler.
  - apply preserves_modify. intros n. apply proj_tables.
Qed.

Lemma preserves_run events : forall n,
  proj (fst (run QuorumSize GetLocalIp events n)) = proj n.
Proof.
  induction events as [|e events IH]; intros n; [reflexivity|].
  simpl. pose proof (preserves_handle e n) as He.
  destruct (outcome _); simpl; try exact He;
    specialize (IH (state (handle QuorumSize GetLocalIp e n)));
    destruct (run _ _ events _); simpl in *; congruence.
Qed.

End FrameOfEvents.

(** The two ids of a node agree from its construction on. *)
Lemma ids_agree_constructed fob random contacts accepting_port now :
  ids_agree (state (RoutingNode_new fob random contacts accepting_port now)).
Proof.
  unfold RoutingNode_new.
  match goal with
  | |- ids_agree (state (_ ?constructed)) =>
      assert (Hinit : ids_agree constructed) by reflexivity;
      generalize dependent constructed
  end.
  intros constructed Hinit. unfold ids_agree in *.
  assert (Hp : forall m : M unit,
             preserves (fun n => (cm_OurId (connection_manager_ n), OurId n)) m ->
             cm_OurId (connection_manager_ (state (m constructed)))
             = OurId (state (m constructed))).
  { intros m Hm. specialize (Hm constructed). simpl in Hm. congruence. }
  apply Hp.
  repeat first [ apply preserves_modify; done | frame_step ].
Qed.

(** And no event makes them differ. *)
Lemma ids_agree_run QuorumSize GetLocalIp events n :
  ids_agree n -> ids_agree (fst (run QuorumSize GetLocalIp events n)).
Proof.
  unfold ids_agree. intros Hn.
  pose proof (preserves_run QuorumSize GetLocalIp
                (fun n => (cm_OurId (connection_manager_ n), OurId n))) as Hrun.
  specialize (Hrun ltac:(done) ltac:(done) ltac:(done) ltac:(done) ltac:(done)
                ltac:(done) ltac:(done) events n).
  simpl in Hrun. congruence.
Qed.

Lemma ids_agree_joined_node : ids_agree joined_node.
Proof. reflexivity. Qed.

(** The filter of a constructed node remembers a key for 20 minutes. *)
Lemma filter_time_to_live_constructed fob random contacts accepting_port now :
  LruCache.time_to_live
    (filter_ (state (RoutingNode_new fob random contacts accepting_port now)))
  = 1200.
Proof.
  unfold RoutingNode_new.
  match goal with
  | |- LruCache.time_to_live (filter_ (state (?m ?constructed))) = _ =>
      assert (Hp : preserves filter_ m)
        by (repeat first [ apply preserves_modify; done | frame_step ]);
      rewrite (Hp constructed)
  end.
  reflexivity.
Qed.

(** ** Direct messages *)

(** C3 (as amended). A [Connect] or [ConnectResponse] whose destination
    is not this node never starts a handler here, whether or not the
    destination is in close-group range; when it passes the duplicate
    filter, the original bytes go to every routing target of the
    destination (and to the connected client it is relayed to, if any),
    and nothing else happens. *)
Theorem direct_message_for_another_node
    (GetLocalIp : N) now peer_id message header tag stream n :
  ParseHeader message = Some (header, tag, stream) ->
  tag = TagConnect \/ tag = TagConnectResponse ->
  ids_agree n ->
  first (Destination header) ≠ OurId n ->
  let r := MessageReceived GetLocalIp now peer_id message n in
  Forall no_dispatch (effects r)
  /\ (LruCache.Check (filter_ n) now (FilterValue header) = false ->
      outcome r = Returned tt
      /\ effects r = forwarded (connection_manager_ n) header message
                     ++ relayed (connection_manager_ n) header message).
Proof.
  intros Hparse Htag Hids Hother r. subst r.
  destruct (LruCache.Check (filter_ n) now (FilterValue header)) eqn:Hcheck.
  { rewrite (MessageReceived_duplicate _ _ _ _ _ _ _ _ Hparse Hcheck); simpl.
    split; [constructor | discriminate]. }
  rewrite (MessageReceived_first _ _ _ _ _ _ _ _ Hparse Hcheck).
  rewrite process_direct, route_direct by done. simpl.
  set (cm := connection_manager_ n).
  assert (Hne : N.eqb (first (Destination header)) (cm_OurId cm) = false).
  { apply N.eqb_neq. unfold cm. by rewrite Hids. }
  rewrite Hne; simpl.
  destruct (RelayedMessage header && reply_to_is_connected cm header) eqn:Hrelay;
    [|destruct (AddressInCloseGroupRange cm (first (Destination header)))]; simpl.
  - split; [|done]. apply Forall_app. split;
      [apply forwarded_no_dispatch | apply relayed_no_dispatch].
  - unfold relayed. rewrite Hrelay, !app_nil_r.
    split; [apply forwarded_no_dispatch | done].
  - unfold relayed. rewrite Hrelay, !app_nil_r.
    split; [apply forwarded_no_dispatch | done].
Qed.

(** C3 at [joined_node]: a first [Connect] for node 5 is sent on to
    node 3 and starts no handler. *)
Lemma direct_message_for_another_node_witness :
  Forall no_dispatch
    (effects (MessageReceived 2130706433%N 0 9%N (sample_connect 5%N 5%N) joined_node))
  /\ outcome (MessageReceived 2130706433%N 0 9%N (sample_connect 5%N 5%N) joined_node)
     = Returned tt
  /\ effects (MessageReceived 2130706433%N 0 9%N (sample_connect 5%N 5%N) joined_node)
     = forwarded (connection_manager_ joined_node) (sample_header 9%N 1 5%N)
         (sample_connect 5%N 5%N)
       ++ relayed (connection_manager_ joined_node) (sample_header 9%N 1 5%N)
            (sample_connect 5%N 5%N).
Proof.
  destruct (direct_message_for_another_node 2130706433%N 0 9%N (sample_connect 5%N 5%N)
              (sample_header 9%N 1 5%N) TagConnect
              [EncBody
                 (BodyConnect
                    {| connect_requester_endpoints := EndpointPair_default;
                       connect_requester_id := 9%N;
                       connect_receiver_id := 5%N;
                       connect_requester_fob :=
                         {| public_name := 9%N; public_value := 90%N |} |})]
              joined_node)
    as (Hquiet & Hforward).
  - reflexivity.
  - by left.
  - exact ids_agree_joined_node.
  - discriminate.
  - split; [exact Hquiet|]. apply Hforward. vm_compute. reflexivity.
Defined.

(** C3 needs the duplicate filter to be passed: [joined_node], once it
    has seen the [Connect] for node 5, does not forward it again, while
    node 3 still is the routing target. *)
Lemma duplicate_direct_message_is_not_forwarded :
  let seen :=
    fst (run 8%nat 2130706433%N [Received 0 9%N (sample_connect 5%N 5%N)] joined_node) in
  effects (MessageReceived 2130706433%N 1 9%N (sample_connect 5%N 5%N) seen) = []
  /\ forwarded (connection_manager_ seen) (sample_header 9%N 1 5%N)
       (sample_connect 5%N 5%N)
     = [Send 3%N (sample_connect 5%N 5%N)].
Proof. split; vm_compute; reflexivity. Qed.

Lemma HandleMessage_Connect_returns GetLocalIp connect original_header n :
  connect_receiver_id connect = OurId n ->
  outcome (HandleMessage_Connect GetLocalIp connect original_header n) = Returned tt.
Proof.
  intros Hme. unfold HandleMessage_Connect. unfold mbind, M_bind; simpl.
  destruct (SuggestNodeToAdd _ _); simpl; [|reflexivity].
  rewrite Hme, N.eqb_refl; simpl.
  match goal with
  | |- context [for_each ?targets (fun target => emit (Send (id target) ?msg))] =>
      change (for_each targets (fun target => emit (Send (id target) msg)))
        with (send_to_targets targets msg)
  end.
  rewrite send_to_targets_run. reflexivity.
Qed.

Lemma not_in_no_dispatch tag header log :
  Forall no_dispatch log -> ¬ In (Dispatched tag header) log.
Proof.
  intros Hall Hin. rewrite Forall_forall in Hall.
  apply list_elem_of_In, Hall in Hin. discriminate Hin.
Qed.

(** C9. When the header of a [Connect] names as its destination the
    receiver the body names, [MessageReceived] never ends in the failed
    [assert] of [HandleMessage(Connect)]: the handler is started only
    for a destination that is this node, so the body's receiver is this
    node as well. *)
Theorem dispatched_Connect_is_for_this_node
    (GetLocalIp : N) now peer_id message header stream connect rest n :
  ids_agree n ->
  ParseHeader message = Some (header, TagConnect, stream) ->
  ParseBody asConnect stream = Some (connect, rest) ->
  first (Destination header) = connect_receiver_id connect ->
  let r := MessageReceived GetLocalIp now peer_id message n in
  outcome r ≠ AssertFailed
  /\ (In (Dispatched TagConnect header) (effects r) ->
      connect_receiver_id connect = OurId n).
Proof.
  intros Hids Hparse Hbody Hsame r. subst r.
  destruct (LruCache.Check (filter_ n) now (FilterValue header)) eqn:Hcheck.
  { rewrite (MessageReceived_duplicate _ _ _ _ _ _ _ _ Hparse Hcheck); simpl.
    split; [discriminate | contradiction]. }
  rewrite (MessageReceived_first _ _ _ _ _ _ _ _ Hparse Hcheck).
  rewrite process_direct, route_direct by auto. simpl.
  set (cm := connection_manager_ n).
  set (n' := set_filter _ n).
  destruct (RelayedMessage header && reply_to_is_connected cm header);
    [|destruct (AddressInCloseGroupRange cm (first (Destination header)));
      [destruct (N.eqb_spec (first (Destination header)) (cm_OurId cm)) as [Hme|]|]];
    simpl;
    try (split; [discriminate|]; intros Hin; exfalso;
         eapply not_in_no_dispatch; [|exact Hin];
         rewrite ?app_nil_r; try apply Forall_app;
         auto using forwarded_no_dispatch, relayed_no_dispatch).
  assert (Hreceiver : connect_receiver_id connect = OurId n).
  { rewrite <- Hsame, Hme. exact Hids. }
  split; [|done].
  unfold dispatch. rewrite Hbody. unfold mbind, M_bind.
  cbn -[HandleMessage_Connect].
  rewrite (HandleMessage_Connect_returns GetLocalIp connect header n') by done.
  discriminate.
Qed.

(** C9 at [joined_node]: a [Connect] addressed to it and naming it as
    receiver is handled. *)
Lemma dispatched_Connect_is_for_this_node_witness :
  outcome (MessageReceived 2130706433%N 0 9%N (sample_connect 7%N 7%N) joined_node)
  ≠ AssertFailed
  /\ connect_receiver_id connect_for_this_node = OurId joined_node.
Proof.
  destruct (dispatched_Connect_is_for_this_node 2130706433%N 0 9%N
              (sample_connect 7%N 7%N) (sample_header 9%N 1 7%N)
              [EncBody (BodyConnect connect_for_this_node)]
              connect_for_this_node [] joined_node)
    as (Hassert & Hreceiver).
  - exact ids_agree_joined_node.
  - reflexivity.
  - reflexivity.
  - reflexivity.
  - split; [exact Hassert|]. apply Hreceiver. vm_compute. right. left. reflexivity.
Defined.

(** Without the precondition the assertion can fail: a [Connect] whose
    header is addressed to this node and whose body names node 5 as
    receiver. *)
Example Connect_naming_another_receiver_fails_the_assert :
  outcome (MessageReceived 2130706433%N 0 9%N (sample_connect 7%N 5%N) joined_node)
  = AssertFailed.
Proof. vm_compute. reflexivity. Qed.

(** ** The content cache *)

Lemma bind_keeps_what_the_rest_preserves {A B C} (proj : RoutingNode -> B)
    (m : M A) (k : A -> M C) n :
  (forall a, preserves proj (k a)) ->
  proj (state ((m ≫= k) n)) = proj (state (m n)).
Proof.
  intros Hk. unfold mbind, M_bind.
  destruct (outcome (m n)); simpl; try reflexivity. apply Hk.
Qed.

Lemma add_to_cache_emits_nothing now tag stream n :
  effects (add_to_cache now tag stream n) = [].
Proof.
  unfold add_to_cache. destruct (bool_decide _); [|reflexivity].
  destruct (ParseBody asGetDataResponse stream) as [[response rest]|]; [|reflexivity].
  unfold mbind, M_bind; simpl. by destruct (data response).
Qed.

(** C6. On a message that passes the duplicate filter, a
    [GetDataResponse] whose body carries data puts (name, payload) in
    the cache; a [GetDataResponse] without data and a message of any
    other tag leave the cache as it was.  The cache is written by the
    cache hook, which emits nothing and runs before the forwarding
    loop: the cache the hook leaves is the cache at the end of
    [MessageReceived]; when the hook cannot read the body of a
    [GetDataResponse] the exception leaves [MessageReceived] before
    anything is sent; and when it can, the message is then forwarded
    and relayed, and [MessageReceived] returns. *)
Theorem GetDataResponse_is_cached
    (GetLocalIp : N) now peer_id message header tag stream n :
  ParseHeader message = Some (header, tag, stream) ->
  LruCache.Check (filter_ n) now (FilterValue header) = false ->
  let r := MessageReceived GetLocalIp now peer_id message n in
  let hook :=
    add_to_cache now tag stream
      (set_filter (LruCache.Add (filter_ n) now (FilterValue header) tt) n) in
  (forall response rest payload,
     tag = TagGetDataResponse ->
     ParseBody asGetDataResponse stream = Some (response, rest) ->
     data response = Some payload ->
     cache_ (state r)
     = LruCache.Add (cache_ n) now (get_data_response_name response) payload)
  /\ (forall response rest,
        tag = TagGetDataResponse ->
        ParseBody asGetDataResponse stream = Some (response, rest) ->
        data response = None ->
        cache_ (state r) = cache_ n)
  /\ (tag ≠ TagGetDataResponse -> cache_ (state r) = cache_ n)
  /\ effects hook = []
  /\ cache_ (state hook) = cache_ (state r)
  /\ (tag = TagGetDataResponse ->
      ParseBody asGetDataResponse stream = None ->
      outcome r = Threw parsing_error
      /\ effects r = []
      /\ cache_ (state r) = cache_ n)
  /\ (forall response rest,
        tag = TagGetDataResponse ->
        ParseBody asGetDataResponse stream = Some (response, rest) ->
        outcome r = Returned tt
        /\ effects r
           = map (fun target => Send (id target) message)
               (GetTarget (connection_manager_ n) (first (Destination header)))
             ++ relayed (connection_manager_ n) header message).
Proof.
  intros Hparse Hcheck r hook.
  assert (Hr : cache_ (state r) = cache_ (state hook)).
  { subst r hook. rewrite (MessageReceived_first _ _ _ _ _ _ _ _ Hparse Hcheck).
    unfold process. apply bind_keeps_what_the_rest_preserves.
    intros s. by apply preserves_route. }
  split; [|split; [|split; [|split; [|split; [|split]]]]].
  - rewrite Hr. subst hook. unfold add_to_cache.
    intros response rest payload -> Hbody Hdata. simpl. rewrite Hbody.
    unfold mbind, M_bind; simpl. by rewrite Hdata.
  - rewrite Hr. subst hook. unfold add_to_cache.
    intros response rest -> Hbody Hdata. simpl. rewrite Hbody.
    unfold mbind, M_bind; simpl. by rewrite Hdata.
  - rewrite Hr. subst hook. unfold add_to_cache.
    intros Hother. by rewrite bool_decide_eq_false_2.
  - apply add_to_cache_emits_nothing.
  - by rewrite Hr.
  - intros -> Hbody. subst r.
    rewrite (MessageReceived_run _ _ _ _ _ _ _ _ Hparse Hcheck).
    cbn [unread]. rewrite Hbody. by repeat split.
  - intros response rest -> Hbody. subst r.
    rewrite (MessageReceived_run _ _ _ _ _ _ _ _ Hparse Hcheck).
    cbn [unread]. rewrite Hbody. cbn [fmap option_fmap option_map snd]. cbv zeta.
    rewrite deliver_without_handler by (by left).
    rewrite connection_manager_cached. by split.
Qed.

(** C6 at [joined_node]: a response with data, one without, a
    [FindGroup], and a response cut off after its tag. *)
Lemma GetDataResponse_is_cached_witness :
  cache_ (state (MessageReceived 2130706433%N 10 9%N
                   (sample_get_data_response (Some [1%N; 2%N; 3%N])) joined_node))
  = LruCache.Add (cache_ joined_node) 10 5%N [1%N; 2%N; 3%N]
  /\ cache_ (state (MessageReceived 2130706433%N 10 9%N
                      (sample_get_data_response None) joined_node))
     = cache_ joined_node
  /\ cache_ (state (MessageReceived 2130706433%N 10 9%N (sample_find_group 1)
                      joined_node))
     = cache_ joined_node
  /\ effects (MessageReceived 2130706433%N 10 9%N truncated_get_data_response
                joined_node)
     = [].
Proof.
  split; [|split; [|split]].
  - destruct (GetDataResponse_is_cached 2130706433%N 10 9%N
                (sample_get_data_response (Some [1%N; 2%N; 3%N]))
                (sample_header 9%N 1 7%N) TagGetDataResponse
                [EncBody (BodyGetDataResponse
                            {| get_data_response_name := 5%N;
                               data := Some [1%N; 2%N; 3%N] |})]
                joined_node) as (Hdata & _).
    + reflexivity.
    + vm_compute. reflexivity.
    + by apply (Hdata {| get_data_response_name := 5%N;
                         data := Some [1%N; 2%N; 3%N] |} [] [1%N; 2%N; 3%N]).
  - destruct (GetDataResponse_is_cached 2130706433%N 10 9%N
                (sample_get_data_response None)
                (sample_header 9%N 1 7%N) TagGetDataResponse
                [EncBody (BodyGetDataResponse
                            {| get_data_response_name := 5%N; data := None |})]
                joined_node) as (_ & Hnone & _).
    + reflexivity.
    + vm_compute. reflexivity.
    + by apply (Hnone {| get_data_response_name := 5%N; data := None |} []).
  - destruct (GetDataResponse_is_cached 2130706433%N 10 9%N (sample_find_group 1)
                (sample_header 9%N 1 7%N) TagFindGroup
                [EncBody (BodyFindGroup {| find_group_requester_id := 9%N;
                                           find_group_target_id := 7%N |})]
                joined_node) as (_ & _ & Hother & _).
    + reflexivity.
    + vm_compute. reflexivity.
    + apply Hother. discriminate.
  - destruct (GetDataResponse_is_cached 2130706433%N 10 9%N truncated_get_data_response
                (sample_header 9%N 1 7%N) TagGetDataResponse [] joined_node)
      as (_ & _ & _ & _ & _ & Hunreadable & _).
    + reflexivity.
    + vm_compute. reflexivity.
    + destruct Hunreadable as (_ & Hnothing & _); [reflexivity | reflexivity | exact Hnothing].
Defined.

(** What the cache then answers: the payload, for as long as it lives. *)
Example cached_payload_is_served :
  LruCache.Get
    (cache_ (state (MessageReceived 2130706433%N 10 9%N
                      (sample_get_data_response (Some [1%N; 2%N; 3%N])) joined_node)))
    3610 5%N
  = Some [1%N; 2%N; 3%N]
  /\ LruCache.Get
       (cache_ (state (MessageReceived 2130706433%N 10 9%N
                         (sample_get_data_response (Some [1%N; 2%N; 3%N])) joined_node)))
       3611 5%N
     = None.
Proof. split; vm_compute; reflexivity. Qed.

(** ** Messages the node originates *)

Lemma Get_run data_tag data_name n :
  Get data_tag data_name n
  = {| outcome := Returned tt;
       state := set_message_id (next_message_id n) n;
       effects :=
         map (fun target =>
                Send (id target)
                  (Serialise
                     (MessageHeader_unsigned (to_destination data_name)
                        (OurSourceAddress n) (next_message_id n) node)
                     TagGetData
                     (BodyGetData
                        {| get_data_tag := data_tag; get_data_name := data_name;
                           get_data_requester := OurSourceAddress n |})))
             (GetTarget (connection_manager_ n) data_name) |}.
Proof.
  unfold Get, increment_message_id. unfold mbind, M_bind; simpl.
  rewrite send_to_targets_run. reflexivity.
Qed.

Lemma Put_run to data_tag serialised n :
  Put to data_tag serialised n
  = {| outcome := Returned tt;
       state := set_message_id (next_message_id n) n;
       effects :=
         map (fun target =>
                Send (id target)
                  (Serialise
                     (MessageHeader_unsigned (to_destination to)
                        (OurSourceAddress n) (next_message_id n) client)
                     TagPutData
                     (BodyPutData
                        {| put_data_tag := data_tag;
                           put_data_payload := serialised |})))
             (GetTarget (connection_manager_ n) to) |}.
Proof.
  unfold Put, increment_message_id. unfold mbind, M_bind; simpl.
  rewrite send_to_targets_run. reflexivity.
Qed.

Lemma Post_run to functor_tag functor n :
  Post to functor_tag functor n
  = {| outcome := Returned tt;
       state := set_message_id (next_message_id n) n;
       effects :=
         map (fun target =>
                Send (id target)
                  (Serialise
                     (MessageHeader_unsigned (to_destination to)
                        (OurSourceAddress n) (next_message_id n) node)
                     TagPost
                     (BodyPutData
                        {| put_data_tag := functor_tag;
                           put_data_payload := functor |})))
             (GetTarget (connection_manager_ n) to) |}.
Proof.
  unfold Post, increment_message_id. unfold mbind, M_bind; simpl.
  rewrite send_to_targets_run. reflexivity.
Qed.

Lemma ConnectToCloseGroup_run n :
  ConnectToCloseGroup n
  = {| outcome := Returned tt;
       state := set_message_id (next_message_id n) n;
       effects :=
         match bootstrap_node_ n with
         | Some bootstrap =>
             [Send bootstrap
                (Serialise (find_group_header n) TagFindGroup (find_group_body n))]
         | None =>
             map (fun target =>
                    Send (id target)
                      (Serialise (find_group_header n) TagConnect (find_group_body n)))
                 (GetTarget (connection_manager_ n) (OurId n))
         end |}.
Proof.
  unfold ConnectToCloseGroup, increment_message_id. unfold mbind, M_bind; simpl.
  destruct (bootstrap_node_ n); [reflexivity|].
  match goal with
  | |- context [for_each ?targets (fun target => emit (Send (id target) ?msg))] =>
      change (for_each targets (fun target => emit (Send (id target) msg)))
        with (send_to_targets targets msg)
  end.
  rewrite send_to_targets_run. reflexivity.
Qed.

Lemma sent_app l1 l2 : sent (l1 ++ l2) = sent l1 ++ sent l2.
Proof.
  induction l1 as [|e l1 IH]; [reflexivity|].
  destruct e; simpl; rewrite IH; reflexivity.
Qed.

Lemma sent_sends {A} (f : A -> Address) message (targets : list A) :
  sent (map (fun target => Send (f target) message) targets)
  = map (fun _ => message) targets.
Proof. induction targets as [|t ts IH]; simpl; [|rewrite IH]; reflexivity. Qed.

Lemma ids_increase_nil : ids_increase [].
Proof. intros i j a b _ Hi. by rewrite lookup_nil in Hi. Qed.

Lemma ids_increase_same {A} message (targets : list A) :
  ids_increase (map (fun _ => message) targets).
Proof.
  intros i j a b _ Hi Hj. left.
  change (map (fun _ => message) targets) with ((fun _ => message) <$> targets) in *.
  rewrite list_lookup_fmap in Hi, Hj.
  destruct (targets !! i), (targets !! j); simpl in *; congruence.
Qed.

Lemma ids_increase_app l1 l2 :
  ids_increase l1 -> ids_increase l2 ->
  (forall a b, a ∈ l1 -> b ∈ l2 -> wire_message_id a < wire_message_id b) ->
  ids_increase (l1 ++ l2).
Proof.
  intros H1 H2 Hacross i j a b Hij Hi Hj.
  apply lookup_app_Some in Hi as [Hi | [Hlen Hi]];
    apply lookup_app_Some in Hj as [Hj | [Hlen' Hj]].
  - by apply (H1 i j).
  - right. apply Hacross; by eapply list_elem_of_lookup_2.
  - apply lookup_lt_Some in Hj. lia.
  - apply (H2 (i - length l1)%nat (j - length l1)%nat); [lia | done | done].
Qed.

Lemma counts_up_nothing n budget :
  0 ≤ budget ->
  counts_up n {| outcome := Returned tt; state := n; effects := [] |} budget.
Proof.
  intros Hb. split; [done|]. split; [by destruct n|]. split; [constructor|].
  intros Hn Hroom; simpl.
  split; [lia|]. split; [constructor | apply ids_increase_nil].
Qed.

Lemma next_message_id_no_wrap n :
  0 ≤ message_id_ n -> message_id_ n + 1 < 2 ^ 32 ->
  next_message_id n = message_id_ n + 1.
Proof. intros Hn Hroom. unfold next_message_id. apply Z.mod_small. lia. Qed.

Lemma counts_up_one {A} n header tag body (f : A -> Address) (targets : list A) :
  header_message_id_ header = next_message_id n ->
  counts_up n
    {| outcome := Returned tt;
       state := set_message_id (next_message_id n) n;
       effects := map (fun target => Send (f target) (Serialise header tag body))
                      targets |} 1.
Proof.
  intros Hid. split; [done|]. split; [done|]. split.
  { simpl. rewrite sent_sends. apply Forall_map, Forall_forall. intros _ _.
    unfold wire_message_id; simpl. unfold MessageId_of. rewrite Hid.
    apply Z.mod_pos_bound. lia. }
  intros Hn Hroom; simpl.
  rewrite sent_sends, (next_message_id_no_wrap n) by done.
  split; [lia|]. split; [|apply ids_increase_same].
  apply Forall_map, Forall_forall. intros _ _.
  unfold wire_message_id; simpl. unfold MessageId_of. rewrite Hid.
  rewrite (next_message_id_no_wrap n) by done. lia.
Qed.

Lemma counts_up_bind n (m : M unit) (k : M unit) b1 b2 :
  0 ≤ b1 -> 0 ≤ b2 ->
  counts_up n (m n) b1 ->
  counts_up (state (m n)) (k (state (m n))) b2 ->
  counts_up n ((m ;; k) n) (b1 + b2).
Proof.
  intros Hb1 Hb2. unfold counts_up, mbind, M_bind.
  destruct (m n) as [o1 s1 l1]; simpl. destruct (k s1) as [o2 s2 l2]; simpl.
  intros (-> & Hs1 & Hrange1 & Hids1) (-> & Hs2 & Hrange2 & Hids2); simpl.
  split; [done|]. split.
  { rewrite Hs2, Hs1. reflexivity. }
  split.
  { rewrite sent_app. by apply Forall_app. }
  intros Hn Hroom.
  destruct Hids1 as (Hm1 & Hall1 & Hinc1); [done | lia |].
  destruct Hids2 as (Hm2 & Hall2 & Hinc2); [lia | lia |].
  rewrite sent_app. split; [lia|]. split.
  - apply Forall_app. split.
    + eapply Forall_impl; [exact Hall1|]. simpl. intros; lia.
    + eapply Forall_impl; [exact Hall2|]. simpl. intros; lia.
  - apply ids_increase_app; try done. intros a b Ha Hb.
    rewrite Forall_forall in Hall1, Hall2.
    specialize (Hall1 a Ha). specialize (Hall2 b Hb). simpl in *. lia.
Qed.

Section Originations.
Variable GetLocalIp : N.

Lemma HandleMessage_FindGroupResponse_loop response original_header :
  HandleMessage_FindGroupResponse GetLocalIp response original_header
  = for_each (group response) (connect_to GetLocalIp).
Proof. reflexivity. Qed.

Lemma connect_to_run node_pmid n :
  connect_to GetLocalIp node_pmid n
  = if negb (SuggestNodeToAdd (connection_manager_ n) (public_name node_pmid))
    then {| outcome := Returned tt; state := n; effects := [] |}
    else
      {| outcome := Returned tt;
         state := set_message_id (next_message_id n) n;
         effects :=
           map (fun target =>
                  Send (id target)
                    (Serialise
                       (MessageHeader_unsigned
                          (to_destination (public_name node_pmid))
                          (OurSourceAddress n) (next_message_id n) nae_manager)
                       TagConnect
                       (BodyConnect
                          {| connect_requester_endpoints :=
                               NextEndpointPair GetLocalIp n;
                             connect_requester_id := OurId n;
                             connect_receiver_id := public_name node_pmid;
                             connect_requester_fob := PublicPmid_of (our_fob_ n) |})))
               (GetTarget (connection_manager_ n) (public_name node_pmid)) |}.
Proof.
  unfold connect_to, increment_message_id. unfold mbind, M_bind; simpl.
  destruct (SuggestNodeToAdd _ _); simpl; [|reflexivity].
  match goal with
  | |- context [for_each ?targets (fun target => emit (Send (id target) ?msg))] =>
      change (for_each targets (fun target => emit (Send (id target) msg)))
        with (send_to_targets targets msg)
  end.
  rewrite send_to_targets_run. reflexivity.
Qed.

Lemma counts_up_connect_to node_pmid n :
  counts_up n (connect_to GetLocalIp node_pmid n) 1.
Proof.
  rewrite connect_to_run. destruct (negb _).
  - apply counts_up_nothing. lia.
  - by apply counts_up_one.
Qed.

Lemma counts_up_for_each {A} (body : A -> M unit) (cost : A -> Z) (xs : list A) :
  (forall x, 0 ≤ cost x) ->
  (forall x n, counts_up n (body x n) (cost x)) ->
  forall n,
    counts_up n (for_each xs body n) (fold_right (fun x total => cost x + total) 0 xs).
Proof.
  intros Hcost Hbody. induction xs as [|x xs IH]; intros n; simpl.
  - apply counts_up_nothing. lia.
  - apply counts_up_bind; auto.
    clear -Hcost. induction xs as [|y ys IH]; simpl; [lia|].
    specialize (Hcost y). lia.
Qed.

Lemma headers_at_most_nonnegative o : 0 ≤ headers_at_most o.
Proof. destruct o; simpl; lia. Qed.

Lemma counts_up_originate o n : counts_up n (originate GetLocalIp o n) (headers_at_most o).
Proof.
  destruct o; simpl.
  - rewrite Get_run. by apply counts_up_one.
  - rewrite Put_run. by apply counts_up_one.
  - rewrite Post_run. by apply counts_up_one.
  - rewrite ConnectToCloseGroup_run. destruct (bootstrap_node_ n) as [bootstrap|].
    + by apply (counts_up_one n _ _ _ (fun b : Address => b) [bootstrap]).
    + by apply counts_up_one.
  - rewrite HandleMessage_FindGroupResponse_loop.
    assert (Hcost : Z.of_nat (length (group response))
                    = fold_right (fun _ total => 1 + total) 0 (group response)).
    { induction (group response) as [|p ps IH]; simpl length; simpl fold_right; lia. }
    rewrite Hcost.
    apply (counts_up_for_each (connect_to GetLocalIp) (fun _ => 1));
      [lia | apply counts_up_connect_to].
Qed.

Lemma counts_up_originate_all os n :
  counts_up n (originate_all GetLocalIp os n) (headers_at_most_all os).
Proof.
  apply (counts_up_for_each (originate GetLocalIp) headers_at_most).
  - apply headers_at_most_nonnegative.
  - intros. apply counts_up_originate.
Qed.

End Originations.

(** ** Duplicate suppression *)

(** C1 (as amended). A datagram whose filter key is in the filter is
    discarded: the node is left as it was and nothing is emitted (no
    cache update, no forwarding, no relay, no dispatch).  A first
    reception puts the key in the filter, however the rest of the call
    ends.  So among the datagrams a node receives within one time to
    live of the filter, whatever else happens to the node in between,
    every (origin, message id) pair starts a handler at most once. *)
Theorem duplicates_are_dropped_while_remembered (QuorumSize : nat) (GetLocalIp : N) :
  (forall now peer_id message header tag stream n,
      ParseHeader message = Some (header, tag, stream) ->
      LruCache.Check (filter_ n) now (FilterValue header) = true ->
      MessageReceived GetLocalIp now peer_id message n
      = {| outcome := Returned tt; state := n; effects := [] |})
  /\ (forall now peer_id message header tag stream n,
         ParseHeader message = Some (header, tag, stream) ->
         LruCache.Check (filter_ n) now (FilterValue header) = false ->
         filter_ (state (MessageReceived GetLocalIp now peer_id message n))
         = LruCache.Add (filter_ n) now (FilterValue header) tt)
  /\ (forall k start events n,
         received_within start (LruCache.time_to_live (filter_ n)) events ->
         (dispatches k (snd (run QuorumSize GetLocalIp events n)) ≤ 1)%nat).
Proof.
  split; [|split].
  - intros. by eapply MessageReceived_duplicate.
  - intros now peer_id message header tag stream n Hparse Hcheck.
    rewrite (MessageReceived_first _ _ _ _ _ _ _ _ Hparse Hcheck).
    by rewrite (preserves_process GetLocalIp filter_).
  - intros k start events n Hwithin.
    by apply (at_most_one_dispatch QuorumSize GetLocalIp k start).
Qed.

(** C1 stops at the time to live: in [late_echo] the same [FindGroup]
    comes back after 1301 seconds and its handler is started a second
    time. *)
Lemma late_duplicate_is_dispatched_again :
  dispatches sample_key (snd (run 8%nat 2130706433%N late_echo fresh_node)) = 2%nat
  /\ ¬ (dispatches sample_key (snd (run 8%nat 2130706433%N late_echo fresh_node)) ≤ 1)%nat.
Proof.
  assert (H : dispatches sample_key (snd (run 8%nat 2130706433%N late_echo fresh_node))
              = 2%nat) by (vm_compute; reflexivity).
  split; [exact H|]. rewrite H. lia.
Qed.

(** C1 at [fresh_node]: the echo within ten minutes is dropped. *)
Lemma duplicates_are_dropped_while_remembered_witness :
  MessageReceived 2130706433%N 600 9%N (sample_find_group 1)
    (fst (run 8%nat 2130706433%N [Received 0 9%N (sample_find_group 1)] fresh_node))
  = {| outcome := Returned tt;
       state := fst (run 8%nat 2130706433%N [Received 0 9%N (sample_find_group 1)]
                       fresh_node);
       effects := [] |}
  /\ filter_ (state (MessageReceived 2130706433%N 0 9%N (sample_find_group 1) fresh_node))
     = LruCache.Add (filter_ fresh_node) 0 (FilterValue (sample_header 9%N 1 7%N)) tt
  /\ (dispatches sample_key (snd (run 8%nat 2130706433%N early_echo fresh_node)) ≤ 1)%nat.
Proof.
  destruct (duplicates_are_dropped_while_remembered 8%nat 2130706433%N)
    as (Hdrop & Hadd & Honce).
  split; [|split].
  - eapply Hdrop; [reflexivity | vm_compute; reflexivity].
  - eapply (Hadd 0 9%N (sample_find_group 1)); [reflexivity | vm_compute; reflexivity].
  - apply (Honce sample_key 0 early_echo fresh_node).
    repeat constructor; vm_compute; discriminate.
Defined.

(** ** Message ids *)

(** C8 (as amended). The id in the header of a message the node
    originates is the counter after [++message_id_], that is the old
    counter plus one modulo 2^32: so for [Get], [Put], [Post],
    [ConnectToCloseGroup] and for each [Connect] sent on a
    [FindGroupResponse].  Every such id is a 32-bit value.  As long as
    the counter does not wrap, each newly composed message carries an id
    strictly greater than every id issued before it: of two messages
    sent, the later is the earlier one sent to another target, or has
    the greater id. *)
Theorem message_ids_count_up_modulo_2_32 (GetLocalIp : N) :
  (forall o n,
      match o with ByFindGroupResponse _ _ => False | _ => True end ->
      message_id_ (state (originate GetLocalIp o n)) = (message_id_ n + 1) mod 2 ^ 32
      /\ Forall (fun message => wire_message_id message = (message_id_ n + 1) mod 2 ^ 32)
                (sent (effects (originate GetLocalIp o n))))
  /\ (forall node_pmid n,
         SuggestNodeToAdd (connection_manager_ n) (public_name node_pmid) = true ->
         message_id_ (state (connect_to GetLocalIp node_pmid n))
         = (message_id_ n + 1) mod 2 ^ 32
         /\ Forall (fun message =>
                      wire_message_id message = (message_id_ n + 1) mod 2 ^ 32)
                   (sent (effects (connect_to GetLocalIp node_pmid n))))
  /\ (forall os n,
         Forall (fun message => 0 ≤ wire_message_id message < 2 ^ 32)
                (sent (effects (originate_all GetLocalIp os n))))
  /\ (forall os n,
         0 ≤ message_id_ n ->
         message_id_ n + headers_at_most_all os < 2 ^ 32 ->
         ids_increase (sent (effects (originate_all GetLocalIp os n)))
         /\ Forall (fun message => message_id_ n < wire_message_id message)
                   (sent (effects (originate_all GetLocalIp os n)))).
Proof.
  assert (Hsame : forall {A} (f : A -> Address) message v (targets : list A),
             wire_message_id message = v ->
             Forall (fun message => wire_message_id message = v)
               (sent (map (fun target => Send (f target) message) targets))).
  { intros A f message v targets Hv. rewrite sent_sends.
    apply Forall_map, Forall_forall. by intros. }
  split; [|split; [|split]].
  - intros o n Ho. destruct o; try contradiction; cbn [originate].
    + rewrite Get_run; simpl. split; [done | by apply Hsame].
    + rewrite Put_run; simpl. split; [done | by apply Hsame].
    + rewrite Post_run; simpl. split; [done | by apply Hsame].
    + rewrite ConnectToCloseGroup_run; simpl. split; [done|].
      destruct (bootstrap_node_ n); [by repeat constructor | by apply Hsame].
  - intros node_pmid n Hsuggest. rewrite connect_to_run, Hsuggest; simpl.
    split; [done | by apply Hsame].
  - intros os n. apply (counts_up_originate_all GetLocalIp os n).
  - intros os n Hn Hroom.
    destruct (counts_up_originate_all GetLocalIp os n) as (_ & _ & _ & Hids).
    destruct (Hids Hn Hroom) as (_ & Hall & Hinc). split; [done|].
    eapply Forall_impl; [exact Hall|]. simpl. intros; lia.
Qed.

(** C8 stops at the wrap: two [Get]s by a node whose counter is at
    2^32 - 2 carry the ids 2^32 - 1 and 0. *)
Lemma message_id_wraps_to_zero :
  map wire_message_id
      (sent (effects (originate_all 2130706433%N [ByGet 0%N 5%N; ByGet 0%N 6%N]
                        joined_node)))
  = [4294967295; 0]
  /\ ¬ ids_increase
        (sent (effects (originate_all 2130706433%N [ByGet 0%N 5%N; ByGet 0%N 6%N]
                          joined_node))).
Proof.
  split; [vm_compute; reflexivity|].
  intros Hinc.
  destruct (Hinc 0%nat 1%nat
              (Serialise
                 (MessageHeader_unsigned (to_destination 5%N)
                    (OurSourceAddress joined_node) 4294967295 node)
                 TagGetData
                 (BodyGetData {| get_data_tag := 0%N; get_data_name := 5%N;
                                 get_data_requester := OurSourceAddress joined_node |}))
              (Serialise
                 (MessageHeader_unsigned (to_destination 6%N)
                    (OurSourceAddress joined_node) 0 node)
                 TagGetData
                 (BodyGetData {| get_data_tag := 0%N; get_data_name := 6%N;
                                 get_data_requester := OurSourceAddress joined_node |})))
    as [Hsame | Hless].
  - lia.
  - vm_compute; reflexivity.
  - vm_compute; reflexivity.
  - discriminate Hsame.
  - vm_compute in Hless. discriminate Hless.
Qed.

(** C8 at [joined_node] and, with room in the counter, at
    [young_node]. *)
Lemma message_ids_count_up_modulo_2_32_witness :
  (message_id_ (state (originate 2130706433%N (ByGet 0%N 5%N) joined_node))
   = (message_id_ joined_node + 1) mod 2 ^ 32
   /\ Forall (fun message =>
                wire_message_id message = (message_id_ joined_node + 1) mod 2 ^ 32)
             (sent (effects (originate 2130706433%N (ByGet 0%N 5%N) joined_node))))
  /\ (message_id_ (state (connect_to 2130706433%N (dht_fob sample_peer) joined_node))
      = (message_id_ joined_node + 1) mod 2 ^ 32
      /\ Forall (fun message =>
                   wire_message_id message = (message_id_ joined_node + 1) mod 2 ^ 32)
                (sent (effects (connect_to 2130706433%N (dht_fob sample_peer)
                                  joined_node))))
  /\ (ids_increase
        (sent (effects (originate_all 2130706433%N
                          [ByGet 0%N 5%N; ByConnectToCloseGroup; ByPut 6%N 0%N [1%N]]
                          young_node)))
      /\ Forall (fun message => message_id_ young_node < wire_message_id message)
                (sent (effects (originate_all 2130706433%N
                                  [ByGet 0%N 5%N; ByConnectToCloseGroup;
                                   ByPut 6%N 0%N [1%N]]
                                  young_node)))).
Proof.
  destruct (message_ids_count_up_modulo_2_32 2130706433%N)
    as (Hone & Hturn & _ & Hmany).
  split; [|split].
  - apply (Hone (ByGet 0%N 5%N) joined_node). exact I.
  - apply (Hturn (dht_fob sample_peer) joined_node). reflexivity.
  - apply (Hmany [ByGet 0%N 5%N; ByConnectToCloseGroup; ByPut 6%N 0%N [1%N]] young_node).
    + vm_compute; discriminate.
    + vm_compute; reflexivity.
Defined.

(** ** ConnectToCloseGroup *)

(** C2. While it bootstraps, the node sends its [FindGroup] to the
    bootstrap node only, under the tag of [FindGroup].  Once joined, it
    sends the same header and body to every routing target of its own
    id, but under the tag of [Connect]. *)
Theorem ConnectToCloseGroup_of_a_joined_node_sends_the_tag_of_Connect :
  effects (ConnectToCloseGroup bootstrapping_node)
  = [Send 2%N
       (Serialise (find_group_header bootstrapping_node) TagFindGroup
          (find_group_body bootstrapping_node))]
  /\ bootstrap_node_ joined_node = None
  /\ GetTarget (connection_manager_ joined_node) (OurId joined_node) = [sample_peer]
  /\ effects (ConnectToCloseGroup joined_node)
     = [Send 3%N
          (Serialise (find_group_header joined_node) TagConnect
             (find_group_body joined_node))]
  /\ find_group_body joined_node
     = BodyFindGroup {| find_group_requester_id := 7%N; find_group_target_id := 7%N |}.
Proof. repeat split. Qed.

(** ** The authority classifier *)

(** C4 (as amended). [OurAuthority] depends on the node only through the
    connection manager's tables and the node's id.  It tries the rows in
    order and the first that matches decides: [client_manager] for a
    header not from a group whose sender is in close-group range and
    whose destination is not the element; [nae_manager] for an element
    in range that is the destination; [node_manager] for a header from a
    group with the destination in range and not this node, when the
    [nae_manager] row does not match; [managed_node] for a header from a
    group that is in range with this node as destination, when the
    [nae_manager] row does not match; and when no row matches it throws
    [invalid_parameter]. *)
Theorem OurAuthority_takes_the_first_matching_row n element header :
  (client_manager_row n element header ->
   OurAuthority n element header = Returned client_manager)
  /\ (nae_manager_row n element header ->
      OurAuthority n element header = Returned nae_manager)
  /\ (node_manager_row n header -> ¬ nae_manager_row n element header ->
      OurAuthority n element header = Returned node_manager)
  /\ (managed_node_row n header -> ¬ nae_manager_row n element header ->
      OurAuthority n element header = Returned managed_node)
  /\ (¬ client_manager_row n element header -> ¬ nae_manager_row n element header ->
      ¬ node_manager_row n header -> ¬ managed_node_row n header ->
      OurAuthority n element header = Threw invalid_parameter)
  /\ (forall n',
         connection_manager_ n' = connection_manager_ n -> OurId n' = OurId n ->
         OurAuthority n' element header = OurAuthority n element header).
Proof.
  unfold client_manager_row, nae_manager_row, node_manager_row, managed_node_row,
    OurAuthority.
  repeat split.
  - intros (Hg & Hr & Hne). rewrite Hg, Hr. simpl.
    by destruct (N.eqb_spec (first (Destination header)) element).
  - intros (Hr & He). rewrite Hr, He, N.eqb_refl. simpl.
    by rewrite andb_false_r.
  - intros ([g Hg] & Hr & Hne) Hnae. rewrite Hg, Hr. simpl.
    destruct (N.eqb_spec (first (Destination header)) (OurId n)); [done|].
    destruct (AddressInCloseGroupRange _ element) eqn:Hre; [|done].
    destruct (N.eqb_spec (first (Destination header)) element); [|done].
    by destruct Hnae.
  - intros ((g & Hg & Hrg) & Hme) Hnae. rewrite Hg, Hrg, Hme, N.eqb_refl. simpl.
    rewrite andb_false_r.
    destruct (AddressInCloseGroupRange _ element) eqn:Hre; [|done].
    destruct (N.eqb_spec (OurId n) element) as [He|]; [|done].
    destruct Hnae. by rewrite Hme.
  - intros H1 H2 H3 H4.
    destruct (FromGroup header) as [g|] eqn:Hg; simpl.
    + destruct (AddressInCloseGroupRange _ element) eqn:Hre;
        destruct (N.eqb_spec (first (Destination header)) element); simpl;
        try (by destruct H2);
        destruct (AddressInCloseGroupRange _ (first (Destination header))) eqn:Hrd;
        destruct (N.eqb_spec (first (Destination header)) (OurId n)); simpl;
        try (destruct H3; by eauto);
        destruct (AddressInCloseGroupRange _ g) eqn:Hrg; simpl;
        try done; destruct H4; by eauto.
    + destruct (AddressInCloseGroupRange _ (FromNode header)) eqn:Hrf;
        destruct (N.eqb_spec (first (Destination header)) element); simpl;
        try (by destruct H1);
        destruct (AddressInCloseGroupRange _ element) eqn:Hre; simpl;
        try done; by destruct H2.
  - intros n' Hcm Hid. by rewrite Hcm, Hid.
Qed.

(** C4 needs the order of the rows: for [group_header] and element 5 the
    [node_manager] row matches and the answer is [nae_manager]. *)
Lemma node_manager_row_yields_to_nae_manager :
  node_manager_row joined_node group_header
  /\ OurAuthority joined_node 5%N group_header = Returned nae_manager
  /\ OurAuthority joined_node 5%N group_header ≠ Returned node_manager.
Proof.
  split; [|split].
  - split; [by eexists | split; [reflexivity | discriminate]].
  - reflexivity.
  - discriminate.
Qed.

(** C4 row by row. *)
Lemma OurAuthority_takes_the_first_matching_row_witness :
  OurAuthority joined_node 6%N (direct_header 5%N) = Returned client_manager
  /\ OurAuthority joined_node 5%N (direct_header 5%N) = Returned nae_manager
  /\ OurAuthority joined_node 6%N (group_header_to 5%N) = Returned node_manager
  /\ OurAuthority joined_node 6%N (group_header_to 7%N) = Returned managed_node
  /\ OurAuthority far_node 5%N (direct_header 5%N) = Threw invalid_parameter
  /\ OurAuthority young_node 5%N (direct_header 5%N)
     = OurAuthority joined_node 5%N (direct_header 5%N).
Proof.
  split; [|split; [|split; [|split; [|split]]]].
  - destruct (OurAuthority_takes_the_first_matching_row joined_node 6%N
                (direct_header 5%N)) as (Hrow & _).
    apply Hrow. split; [reflexivity | split; [reflexivity | discriminate]].
  - destruct (OurAuthority_takes_the_first_matching_row joined_node 5%N
                (direct_header 5%N)) as (_ & Hrow & _).
    apply Hrow. split; reflexivity.
  - destruct (OurAuthority_takes_the_first_matching_row joined_node 6%N
                (group_header_to 5%N)) as (_ & _ & Hrow & _).
    apply Hrow.
    + split; [by eexists | split; [reflexivity | discriminate]].
    + intros [_ Heq]. discriminate Heq.
  - destruct (OurAuthority_takes_the_first_matching_row joined_node 6%N
                (group_header_to 7%N)) as (_ & _ & _ & Hrow & _).
    apply Hrow.
    + split; [exists 4%N; split; reflexivity | reflexivity].
    + intros [_ Heq]. discriminate Heq.
  - destruct (OurAuthority_takes_the_first_matching_row far_node 5%N
                (direct_header 5%N)) as (_ & _ & _ & _ & Hrow & _).
    apply Hrow.
    + intros (_ & Hr & _). discriminate Hr.
    + intros (Hr & _). discriminate Hr.
    + intros (_ & Hr & _). discriminate Hr.
    + intros ((g & _ & Hr) & _). discriminate Hr.
  - destruct (OurAuthority_takes_the_first_matching_row joined_node 5%N
                (direct_header 5%N)) as (_ & _ & _ & _ & _ & Hrow).
    apply Hrow; reflexivity.
Defined.

(** ** Joining *)

Lemma every_other_event_keeps_the_bootstrap_node QuorumSize GetLocalIp e n bootstrap :
  match e with AddNodeCompleted _ _ => False | _ => True end ->
  bootstrap_node_ n = Some bootstrap ->
  is_Some (bootstrap_node_ (state (handle QuorumSize GetLocalIp e n))).
Proof.
  intros He Hset. destruct e; try contradiction; cbn [handle].
  - destruct (MessageReceived_cases GetLocalIp now peer_id serialised_message n)
      as [-> | (header & tag & stream & _ & _ & ->)]; simpl; [by eexists|].
    rewrite (preserves_process GetLocalIp bootstrap_node_) by done. by eexists.
  - rewrite (preserves_ConnectionLost bootstrap_node_). by eexists.
  - unfold OnConnect.
    destruct (negb (N.eqb error 0)); [by eexists|].
    destruct (negb (N.eqb addr (contact_id contact))); [by eexists|].
    unfold mbind, M_bind; cbn -[ConnectToCloseGroup].
    rewrite (preserves_ConnectToCloseGroup bootstrap_node_) by done. by eexists.
  - rewrite (preserves_OnAddNodeAccept bootstrap_node_). by eexists.
  - rewrite (preserves_Get bootstrap_node_) by done. by eexists.
  - rewrite (preserves_Put bootstrap_node_) by done. by eexists.
  - rewrite (preserves_Post bootstrap_node_) by done. by eexists.
  - by eexists.
  - by eexists.
Qed.

Lemma HandleMessage_Connect_run GetLocalIp connect original_header n :
  HandleMessage_Connect GetLocalIp connect original_header n
  = if negb (SuggestNodeToAdd (connection_manager_ n) (connect_requester_id connect))
    then {| outcome := Returned tt; state := n; effects := [] |}
    else if negb (N.eqb (connect_receiver_id connect) (OurId n))
    then {| outcome := AssertFailed; state := n; effects := [] |}
    else
      {| outcome := Returned tt; state := n;
         effects :=
           map (fun target =>
                  Send (id target)
                    (Serialise
                       {| destination_ := ReturnDestinationAddress original_header;
                          source_ := OurSourceAddress n;
                          header_message_id_ := MessageId_of original_header;
                          authority_ := node;
                          signature_ :=
                            Some {| signed_body :=
                                      BodyConnectResponse
                                        (response_to_connect GetLocalIp connect n);
                                    signing_key := private_key (our_fob_ n) |} |}
                       TagConnectResponse
                       (BodyConnectResponse (response_to_connect GetLocalIp connect n))))
               (GetTarget (connection_manager_ n) (connect_requester_id connect))
           ++ [AddNodeAccept
                 {| id := connect_requester_id connect;
                    dht_fob := connect_requester_fob connect;
                    connected := true |}
                 (connect_requester_endpoints connect)] |}.
Proof.
  unfold HandleMessage_Connect.
  rewrite (bind_returned _ _ _ _ _ (get_run n)).
  destruct (negb (SuggestNodeToAdd _ _)); [reflexivity|].
  destruct (N.eqb (connect_receiver_id connect) (OurId n)); [|reflexivity].
  rewrite (bind_returned (assert true) _ n tt n) by reflexivity.
  match goal with
  | |- context [for_each ?targets (fun target => emit (Send (id target) ?msg))] =>
      change (for_each targets (fun target => emit (Send (id target) msg)))
        with (send_to_targets targets msg)
  end.
  rewrite (bind_run _ _ _ _ (send_to_targets_run _ _ n)).
  reflexivity.
Qed.

Lemma HandleMessage_ConnectResponse_run response n :
  HandleMessage_ConnectResponse response n
  = {| outcome := Returned tt; state := n;
       effects :=
         if SuggestNodeToAdd (connection_manager_ n) (response_requester_id response)
         then [AddNode {| id := response_requester_id response;
                          dht_fob := response_receiver_fob response;
                          connected := true |}
                       (response_receiver_endpoints response)]
         else [] |}.
Proof.
  unfold HandleMessage_ConnectResponse.
  rewrite (bind_returned _ _ _ _ _ (get_run n)).
  by destruct (SuggestNodeToAdd _ _).
Qed.

(** C5. [HandleMessage(ConnectResponse)] asks the tables about the
    requester id of the response and hands to [AddNode] a node with
    that id and with the receiver's key and endpoints; the receiver id
    is not read.  In the answer that node [b] gives to a [Connect] of
    node [a] the requester id is the id of [a]: when the tables of [a]
    do not take its own id nothing is dialled, whatever they would say
    of [b], and whatever is dialled carries the id of [a], not that of
    [b].  When an [AddNode] completes, the bootstrap node is cleared if
    the table holds at least [QuorumSize] nodes, and the node is left as
    it was if the table holds fewer.  No other event clears the
    bootstrap node: a table that grows through an accepted [Connect] or
    through the transport leaves it set. *)
Theorem ConnectResponse_dials_under_the_requester_id
    (QuorumSize : nat) (GetLocalIp : N) :
  (forall response n,
      HandleMessage_ConnectResponse response n
      = {| outcome := Returned tt; state := n;
           effects :=
             if SuggestNodeToAdd (connection_manager_ n) (response_requester_id response)
             then [AddNode {| id := response_requester_id response;
                              dht_fob := response_receiver_fob response;
                              connected := true |}
                           (response_receiver_endpoints response)]
             else [] |})
  /\ (forall connect original_header a b,
        connect_requester_id connect = OurId a ->
        OurId b <> OurId a ->
        let answer := response_to_connect GetLocalIp connect b in
        Forall (fun message => exists reply,
                  message
                  = Serialise reply TagConnectResponse (BodyConnectResponse answer))
          (sent (effects (HandleMessage_Connect GetLocalIp connect original_header b)))
        /\ response_receiver_id answer = OurId b
        /\ (SuggestNodeToAdd (connection_manager_ a) (OurId a) = false ->
            effects (HandleMessage_ConnectResponse answer a) = [])
        /\ (forall info endpoints,
              In (AddNode info endpoints)
                 (effects (HandleMessage_ConnectResponse answer a)) ->
              id info = OurId a /\ id info <> OurId b))
  /\ (forall added n,
        (QuorumSize ≤ Size (connection_manager_ n))%nat ->
        bootstrap_node_ (state (OnAddNode QuorumSize true added n)) = None)
  /\ (forall added n,
        (Size (connection_manager_ n) < QuorumSize)%nat ->
        state (OnAddNode QuorumSize true added n) = n)
  /\ (forall e bootstrap n,
        bootstrap_node_ n = Some bootstrap ->
        bootstrap_node_ (state (handle QuorumSize GetLocalIp e n)) = None ->
        (QuorumSize ≤ Size (connection_manager_ n))%nat
        /\ exists diff, e = AddNodeCompleted true diff)
  /\ (forall view alive added n,
        bootstrap_node_ (state (handle QuorumSize GetLocalIp (TablesChanged view) n))
        = bootstrap_node_ n
        /\ bootstrap_node_
             (state (handle QuorumSize GetLocalIp (AddNodeAcceptCompleted alive added) n))
           = bootstrap_node_ n).
Proof.
  split; [|split; [|split; [|split; [|split]]]].
  - apply HandleMessage_ConnectResponse_run.
  - intros connect original_header a b Hrequester Hother answer.
    split; [|split; [reflexivity|split]].
    + rewrite HandleMessage_Connect_run.
      destruct (negb (SuggestNodeToAdd _ _)); [constructor|].
      destruct (negb (N.eqb _ _)); [constructor|].
      cbn [effects]. rewrite sent_app, sent_sends, app_nil_r.
      apply Forall_map, Forall_forall. intros _ _. by eexists.
    + intros Hrefused. rewrite HandleMessage_ConnectResponse_run.
      unfold answer; simpl. by rewrite Hrequester, Hrefused.
    + intros info endpoints. rewrite HandleMessage_ConnectResponse_run.
      unfold answer; simpl. rewrite Hrequester.
      destruct (SuggestNodeToAdd _ _); [|intros []].
      intros [Hdialled | []]. inversion Hdialled; subst. simpl. by split.
  - intros added n Hquorum. unfold OnAddNode. unfold mbind, M_bind; simpl.
    apply Nat.leb_le in Hquorum. destruct added; simpl; by rewrite Hquorum.
  - intros added n Hfew. unfold OnAddNode. unfold mbind, M_bind; simpl.
    apply Nat.leb_gt in Hfew. destruct added; simpl; by rewrite Hfew.
  - intros e bootstrap n Hset Hcleared.
    destruct e as [| | |alive diff| | | | | |];
      try (match type of Hcleared with
           | context [handle _ _ ?ev _] =>
               destruct (every_other_event_keeps_the_bootstrap_node
                           QuorumSize GetLocalIp ev n bootstrap I Hset) as [b Hb]
           end;
           congruence).
    simpl in Hcleared. unfold OnAddNode in Hcleared.
    destruct alive; simpl in Hcleared; [|congruence].
    unfold mbind, M_bind in Hcleared.
    destruct (Nat.leb_spec QuorumSize (Size (connection_manager_ n))) as [Hq | Hq].
    + split; [done | by eexists].
    + apply Nat.leb_gt in Hq.
      destruct diff; simpl in Hcleared; rewrite Hq in Hcleared; simpl in Hcleared;
        congruence.
  - intros view alive added n. split; [reflexivity|].
    cbn [handle]. apply preserves_OnAddNodeAccept.
Qed.

(** C5 for the answer of [peer_node] to [connect_from_joined_node]:
    the tables of [joined_node] would take node 3 and do not take its own
    id 7, and nothing is dialled.  And at [bootstrapping_node], whose
    table holds one node, for a quorum of one and a quorum of eight. *)
Lemma ConnectResponse_dials_under_the_requester_id_witness :
  SuggestNodeToAdd (connection_manager_ joined_node) (OurId peer_node) = true
  /\ effects (HandleMessage_ConnectResponse
                (response_to_connect 2130706433%N connect_from_joined_node peer_node)
                joined_node)
     = []
  /\ bootstrap_node_ (state (OnAddNode 1%nat true None bootstrapping_node)) = None
  /\ state (OnAddNode 8%nat true None bootstrapping_node) = bootstrapping_node
  /\ ((1 ≤ Size (connection_manager_ bootstrapping_node))%nat
      /\ exists diff, AddNodeCompleted true None = AddNodeCompleted true diff).
Proof.
  destruct (ConnectResponse_dials_under_the_requester_id 1%nat 2130706433%N)
    as (_ & Hanswer & Hclear & _ & Honly & _).
  destruct (ConnectResponse_dials_under_the_requester_id 8%nat 2130706433%N)
    as (_ & _ & _ & Hkeep & _).
  split; [reflexivity|]. split; [|split; [|split]].
  - destruct (Hanswer connect_from_joined_node (direct_header 3%N) joined_node
                peer_node) as (_ & _ & Hrefused & _).
    + reflexivity.
    + discriminate.
    + apply Hrefused. reflexivity.
  - apply Hclear. vm_compute. lia.
  - apply Hkeep. vm_compute. lia.
  - apply (Honly (AddNodeCompleted true None) 2%N bootstrapping_node); reflexivity.
Defined.

(** ** Bootstrap *)

Lemma OnConnect_success contact our_endpoint n :
  OnConnect contact 0%N (contact_id contact) our_endpoint n
  = {| outcome := Returned tt;
       state :=
         set_message_id (next_message_id n)
           (set_our_external_endpoint (Some our_endpoint)
              (set_bootstrap_node (Some (contact_id contact)) n));
       effects := [Send (contact_id contact) (joining_request contact n)] |}.
Proof.
  unfold OnConnect. rewrite !N.eqb_refl. cbn [negb].
  rewrite (bind_returned (modify _) _ n tt _) by reflexivity.
  rewrite (bind_returned (modify _) _ _ tt _) by reflexivity.
  rewrite ConnectToCloseGroup_run. reflexivity.
Qed.

(** C7. A bootstrap attempt that ends in an error, or that reaches a
    node other than the contact, returns at once: the node is left as it
    was and nothing is emitted, so the events that follow run as if the
    attempt had not been made.  The constructor starts an attempt for
    every contact.  An attempt that succeeds with the contact's own id
    goes on with [ConnectToCloseGroup] from a node that has the contact
    as bootstrap node and the observed endpoint as external endpoint:
    when it returns the node holds both, its counter has moved by one,
    and one [FindGroup] has gone to the contact. *)
Theorem failed_bootstrap_attempt_leaves_the_node_alone
    (QuorumSize : nat) (GetLocalIp : N) :
  (forall contact error addr our_endpoint n,
      error ≠ 0%N \/ addr ≠ contact_id contact ->
      OnConnect contact error addr our_endpoint n
      = {| outcome := Returned tt; state := n; effects := [] |})
  /\ (forall contact error addr our_endpoint events n,
         error ≠ 0%N \/ addr ≠ contact_id contact ->
         run QuorumSize GetLocalIp
           (ConnectCompleted contact error addr our_endpoint :: events) n
         = run QuorumSize GetLocalIp events n)
  /\ (forall fob random contacts accepting_port now,
         effects (RoutingNode_new fob random contacts accepting_port now)
         = map (fun contact => ConnectTo (external (endpoint_pair contact)) contact)
               contacts)
  /\ (forall contact our_endpoint n,
         OnConnect contact 0%N (contact_id contact) our_endpoint n
         = ConnectToCloseGroup
             (set_our_external_endpoint (Some our_endpoint)
                (set_bootstrap_node (Some (contact_id contact)) n)))
  /\ (forall contact our_endpoint n,
         let r := OnConnect contact 0%N (contact_id contact) our_endpoint n in
         outcome r = Returned tt
         /\ bootstrap_node_ (state r) = Some (contact_id contact)
         /\ our_external_endpoint_ (state r) = Some our_endpoint
         /\ message_id_ (state r) = next_message_id n
         /\ effects r = [Send (contact_id contact) (joining_request contact n)]).
Proof.
  assert (Hfail : forall contact error addr our_endpoint n,
             error ≠ 0%N \/ addr ≠ contact_id contact ->
             OnConnect contact error addr our_endpoint n
             = {| outcome := Returned tt; state := n; effects := [] |}).
  { intros contact error addr our_endpoint n Hbad. unfold OnConnect.
    destruct (N.eqb_spec error 0); simpl; [|reflexivity].
    destruct (N.eqb_spec addr (contact_id contact)); simpl; [|reflexivity].
    by destruct Hbad. }
  split; [exact Hfail | split; [|split; [|split]]].
  - intros contact error addr our_endpoint events n Hbad. simpl.
    rewrite (Hfail _ _ _ _ _ Hbad). simpl. by destruct (run _ _ events n).
  - intros fob random contacts accepting_port now. unfold RoutingNode_new.
    unfold mbind, M_bind; simpl.
    match goal with
    | |- effects (for_each _ _ ?s) = _ => generalize s
    end.
    induction contacts as [|contact contacts IH]; intros s; [reflexivity|].
    simpl. unfold mbind, M_bind; simpl. by rewrite IH.
  - intros contact our_endpoint n. unfold OnConnect. rewrite !N.eqb_refl.
    unfold mbind, M_bind; cbn -[ConnectToCloseGroup].
    destruct (ConnectToCloseGroup _) as [o s l]. by destruct o.
  - intros contact our_endpoint n r. unfold r.
    rewrite OnConnect_success. by repeat split.
Qed.

(** C7 at [fresh_node]: an attempt that ends in error 111, one that
    reaches node 5 instead of the contact, and one that reaches the
    contact. *)
Lemma failed_bootstrap_attempt_leaves_the_node_alone_witness :
  OnConnect sample_contact 111%N 2%N (external (endpoint_pair sample_contact)) fresh_node
  = {| outcome := Returned tt; state := fresh_node; effects := [] |}
  /\ run 8%nat 2130706433%N
       [ConnectCompleted sample_contact 0%N 5%N (external (endpoint_pair sample_contact));
        Received 0 9%N (sample_find_group 1)] fresh_node
     = run 8%nat 2130706433%N [Received 0 9%N (sample_find_group 1)] fresh_node
  /\ bootstrap_node_
       (state (OnConnect sample_contact 0%N 2%N (external (endpoint_pair sample_contact))
                 fresh_node))
     = Some 2%N.
Proof.
  destruct (failed_bootstrap_attempt_leaves_the_node_alone 8%nat 2130706433%N)
    as (Hfail & Hrun & _ & _ & Hsuccess).
  split; [|split].
  - apply Hfail. left. discriminate.
  - apply Hrun. right. discriminate.
  - destruct (Hsuccess sample_contact (external (endpoint_pair sample_contact))
                fresh_node) as (_ & Hbootstrap & _).
    exact Hbootstrap.
Defined.

(** ** The source address *)

Lemma connect_to_all_from_source GetLocalIp s (ps : list PublicPmid) : forall n,
  OurSourceAddress n = s ->
  Forall (from_source s) (sent (effects (for_each ps (connect_to GetLocalIp) n))).
Proof.
  induction ps as [|p ps IH]; intros n Hs; [constructor|].
  simpl. unfold mbind, M_bind. rewrite connect_to_run.
  destruct (negb _); simpl.
  - by apply IH.
  - rewrite sent_app, sent_sends. apply Forall_app. split.
    + apply Forall_map, Forall_forall. intros _ _. by repeat eexists.
    + by apply IH.
Qed.

(** C10. While the bootstrap node is set, [OurSourceAddress] names the
    bootstrap node as the sender and this node as the address to reply
    to; once it is cleared, it names this node as the sender, with no
    group and no reply-to address.  Every message the node originates
    carries that source address in its header. *)
Theorem OurSourceAddress_names_the_bootstrap_node (GetLocalIp : N) n :
  (forall bootstrap,
      bootstrap_node_ n = Some bootstrap ->
      OurSourceAddress n
      = {| node_address := bootstrap; group_address := None;
           reply_to_address := Some (OurId n) |})
  /\ (bootstrap_node_ n = None ->
      OurSourceAddress n
      = {| node_address := OurId n; group_address := None;
           reply_to_address := None |})
  /\ (forall o,
         Forall (from_source (OurSourceAddress n))
                (sent (effects (originate GetLocalIp o n)))).
Proof.
  split; [|split].
  - intros bootstrap Hset. unfold OurSourceAddress. by rewrite Hset.
  - intros Hcleared. unfold OurSourceAddress. by rewrite Hcleared.
  - assert (Hall : forall {A} (f : A -> Address) header tag body (targets : list A),
               Source header = OurSourceAddress n ->
               Forall (from_source (OurSourceAddress n))
                 (sent (map (fun target => Send (f target) (Serialise header tag body))
                            targets))).
    { intros A f header tag body targets Hsrc. rewrite sent_sends.
      apply Forall_map, Forall_forall. intros _ _. by repeat eexists. }
    intros o. destruct o; cbn [originate].
    + rewrite Get_run. by apply Hall.
    + rewrite Put_run. by apply Hall.
    + rewrite Post_run. by apply Hall.
    + rewrite ConnectToCloseGroup_run; simpl. destruct (bootstrap_node_ n) eqn:Hb.
      * repeat constructor. by repeat eexists.
      * by apply Hall.
    + rewrite HandleMessage_FindGroupResponse_loop. by apply connect_to_all_from_source.
Qed.

(** C10 at [bootstrapping_node] and at [joined_node]. *)
Lemma OurSourceAddress_names_the_bootstrap_node_witness :
  OurSourceAddress bootstrapping_node
  = {| node_address := 2%N; group_address := None; reply_to_address := Some 7%N |}
  /\ OurSourceAddress joined_node
     = {| node_address := 7%N; group_address := None; reply_to_address := None |}.
Proof.
  split.
  - destruct (OurSourceAddress_names_the_bootstrap_node 2130706433%N bootstrapping_node)
      as (Hset & _).
    apply (Hset 2%N). reflexivity.
  - destruct (OurSourceAddress_names_the_bootstrap_node 2130706433%N joined_node)
      as (_ & Hcleared & _).
    apply Hcleared. reflexivity.
Defined.

(** ** What is passed on and what is delivered *)

(** X1.  A datagram the node cannot read goes nowhere.  When the header
    does not parse, [MessageReceived] returns and the node is as it
    was.  When the header parses, the key is new and the body of a
    [GetDataResponse] or of a [GetData] does not, the parse throws out
    of [MessageReceived]: the key has been written to the filter, and
    the message is neither cached nor forwarded nor delivered. *)
Theorem unreadable_message_goes_nowhere (GetLocalIp : N) now peer_id message n :
  (ParseHeader message = None ->
   MessageReceived GetLocalIp now peer_id message n
   = {| outcome := Returned tt; state := n; effects := [] |})
  /\ (forall header tag stream,
        ParseHeader message = Some (header, tag, stream) ->
        LruCache.Check (filter_ n) now (FilterValue header) = false ->
        tag = TagGetDataResponse /\ ParseBody asGetDataResponse stream = None
        \/ tag = TagGetData /\ ParseBody asGetData stream = None ->
        MessageReceived GetLocalIp now peer_id message n
        = {| outcome := Threw parsing_error; state := remembered now header n;
             effects := [] |}).
Proof.
  split.
  - intros Hparse. unfold MessageReceived. by rewrite Hparse.
  - intros header tag stream Hparse Hcheck Hbody.
    rewrite (MessageReceived_run _ _ _ _ _ _ _ _ Hparse Hcheck).
    by destruct Hbody as [[-> Hbody] | [-> Hbody]]; simpl; rewrite Hbody.
Qed.

(** X1 for a datagram of one stray byte and for [truncated_get_data],
    at [joined_node]. *)
Lemma unreadable_message_goes_nowhere_witness :
  MessageReceived 2130706433%N 0 9%N [EncByte 1%N] joined_node
  = {| outcome := Returned tt; state := joined_node; effects := [] |}
  /\ MessageReceived 2130706433%N 0 9%N truncated_get_data joined_node
     = {| outcome := Threw parsing_error;
          state := remembered 0 (sample_header 9%N 1 7%N) joined_node;
          effects := [] |}.
Proof.
  split.
  - destruct (unreadable_message_goes_nowhere 2130706433%N 0 9%N [EncByte 1%N]
                joined_node) as [Hheader _].
    apply Hheader. reflexivity.
  - destruct (unreadable_message_goes_nowhere 2130706433%N 0 9%N truncated_get_data
                joined_node) as [_ Hbody].
    apply (Hbody (sample_header 9%N 1 7%N) TagGetData []).
    + reflexivity.
    + vm_compute. reflexivity.
    + right. split; reflexivity.
Defined.

(** X2.  Whatever its tag, a message received for the first time whose
    body the cache hook could read is first sent on, bytes unchanged, to
    every routing target of its destination: before it is relayed to a
    client, before the close-group test, and before any handler runs. *)
Theorem first_reception_is_forwarded_first (GetLocalIp : N)
    now peer_id message header tag stream rest n :
  ParseHeader message = Some (header, tag, stream) ->
  LruCache.Check (filter_ n) now (FilterValue header) = false ->
  unread tag stream = Some rest ->
  exists later,
    effects (MessageReceived GetLocalIp now peer_id message n)
    = map (fun target => Send (id target) message)
        (GetTarget (connection_manager_ n) (first (Destination header)))
      ++ later.
Proof.
  intros Hparse Hcheck Hrest.
  rewrite (MessageReceived_run _ _ _ _ _ _ _ _ Hparse Hcheck), Hrest.
  eexists. reflexivity.
Qed.

(** X2 for [sample_find_group 1] at [joined_node]. *)
Lemma first_reception_is_forwarded_first_witness :
  exists later,
    effects (MessageReceived 2130706433%N 0 9%N (sample_find_group 1) joined_node)
    = [Send 3%N (sample_find_group 1)] ++ later.
Proof.
  apply (first_reception_is_forwarded_first 2130706433%N 0 9%N (sample_find_group 1)
           (sample_header 9%N 1 7%N) TagFindGroup
           [EncBody (BodyFindGroup {| find_group_requester_id := 9%N;
                                      find_group_target_id := 7%N |})]
           [EncBody (BodyFindGroup {| find_group_requester_id := 9%N;
                                      find_group_target_id := 7%N |})]
           joined_node).
  - reflexivity.
  - vm_compute. reflexivity.
  - reflexivity.
Defined.

(** X3.  A message whose header names a reply-to client that is
    connected to this node is forwarded, handed to that client, and that
    is all: [MessageReceived] returns without testing the close-group
    range and without calling a handler, also when the destination is
    this node. *)
Theorem relayed_message_ends_at_the_client (GetLocalIp : N)
    now peer_id message header tag stream rest client n :
  ParseHeader message = Some (header, tag, stream) ->
  LruCache.Check (filter_ n) now (FilterValue header) = false ->
  unread tag stream = Some rest ->
  ReplyToAddress header = Some client ->
  In client (GetNonRoutingNodes (connection_manager_ n)) ->
  MessageReceived GetLocalIp now peer_id message n
  = {| outcome := Returned tt;
       state := cached now tag stream (remembered now header n);
       effects :=
         map (fun target => Send (id target) message)
           (GetTarget (connection_manager_ n) (first (Destination header)))
         ++ [SendToNonRoutingNode client message] |}.
Proof.
  intros Hparse Hcheck Hrest Hreply Hin.
  rewrite (MessageReceived_run _ _ _ _ _ _ _ _ Hparse Hcheck), Hrest.
  cbv zeta. unfold deliver, relayed. rewrite connection_manager_cached.
  change (connection_manager_ (remembered now header n)) with (connection_manager_ n).
  rewrite (reply_to_is_connected_client _ _ _ Hreply Hin), Hreply.
  reflexivity.
Qed.

(** X3 for a [FindGroup] addressed to [serving_node] itself with client
    11 as reply-to. *)
Lemma relayed_message_ends_at_the_client_witness :
  let message :=
    Serialise relayed_header TagFindGroup
      (BodyFindGroup {| find_group_requester_id := 9%N; find_group_target_id := 7%N |}) in
  effects (MessageReceived 2130706433%N 0 9%N message serving_node)
  = [Send 3%N message; SendToNonRoutingNode 11%N message].
Proof.
  intros message.
  rewrite (relayed_message_ends_at_the_client 2130706433%N 0 9%N message relayed_header
             TagFindGroup
             [EncBody (BodyFindGroup {| find_group_requester_id := 9%N;
                                        find_group_target_id := 7%N |})]
             [EncBody (BodyFindGroup {| find_group_requester_id := 9%N;
                                        find_group_target_id := 7%N |})]
             11%N serving_node).
  - reflexivity.
  - reflexivity.
  - vm_compute. reflexivity.
  - reflexivity.
  - reflexivity.
  - left. reflexivity.
Defined.

(** X4.  A message that is not relayed to a connected client and whose
    destination is outside this node's close-group range is forwarded
    and nothing else: no handler runs, whatever the tag. *)
Theorem message_out_of_range_is_only_forwarded (GetLocalIp : N)
    now peer_id message header tag stream rest n :
  ParseHeader message = Some (header, tag, stream) ->
  LruCache.Check (filter_ n) now (FilterValue header) = false ->
  unread tag stream = Some rest ->
  RelayedMessage header && reply_to_is_connected (connection_manager_ n) header = false ->
  AddressInCloseGroupRange (connection_manager_ n) (first (Destination header)) = false ->
  MessageReceived GetLocalIp now peer_id message n
  = {| outcome := Returned tt;
       state := cached now tag stream (remembered now header n);
       effects :=
         map (fun target => Send (id target) message)
           (GetTarget (connection_manager_ n) (first (Destination header))) |}.
Proof.
  intros Hparse Hcheck Hrest Hrelay Hrange.
  rewrite (MessageReceived_run _ _ _ _ _ _ _ _ Hparse Hcheck), Hrest.
  cbv zeta. unfold deliver. rewrite connection_manager_cached.
  change (connection_manager_ (remembered now header n)) with (connection_manager_ n).
  rewrite Hrelay, Hrange. unfold after, forwarded; simpl. by rewrite app_nil_r.
Qed.

(** X4 for [sample_find_group 1] at [far_node]. *)
Lemma message_out_of_range_is_only_forwarded_witness :
  effects (MessageReceived 2130706433%N 0 9%N (sample_find_group 1) far_node)
  = [Send 3%N (sample_find_group 1)].
Proof.
  rewrite (message_out_of_range_is_only_forwarded 2130706433%N 0 9%N
             (sample_find_group 1) (sample_header 9%N 1 7%N) TagFindGroup
             [EncBody (BodyFindGroup {| find_group_requester_id := 9%N;
                                        find_group_target_id := 7%N |})]
             [EncBody (BodyFindGroup {| find_group_requester_id := 9%N;
                                        find_group_target_id := 7%N |})]
             far_node).
  - reflexivity.
  - reflexivity.
  - vm_compute. reflexivity.
  - reflexivity.
  - reflexivity.
  - reflexivity.
Defined.

(** X5.  [GetDataResponse], [PutDataResponse] and [PostResponse] have no
    handler: on such a message [MessageReceived] returns or throws a
    parsing error, and everything the node does outside itself is to
    pass the received bytes on.  Neither a handler of the node nor the
    application is called. *)
Theorem responses_are_never_delivered (GetLocalIp : N)
    now peer_id message header tag stream n :
  ParseHeader message = Some (header, tag, stream) ->
  without_handler tag ->
  Forall (passes_on message)
    (effects (MessageReceived GetLocalIp now peer_id message n))
  /\ outcome (MessageReceived GetLocalIp now peer_id message n) <> AssertFailed.
Proof.
  intros Hparse Htag.
  destruct (LruCache.Check (filter_ n) now (FilterValue header)) eqn:Hcheck.
  { rewrite (MessageReceived_duplicate _ _ _ _ _ _ _ _ Hparse Hcheck). by split. }
  rewrite (MessageReceived_run _ _ _ _ _ _ _ _ Hparse Hcheck).
  destruct (unread tag stream) as [rest|]; [|by split].
  cbv zeta. rewrite (deliver_without_handler _ _ _ _ _ _ Htag). split; [|done].
  apply Forall_app. split; [apply forwarded_passes_on | apply relayed_passes_on].
Qed.

(** X5 for a [GetDataResponse] addressed to [joined_node] itself. *)
Lemma responses_are_never_delivered_witness :
  Forall (passes_on (sample_get_data_response (Some [1%N])))
    (effects (MessageReceived 2130706433%N 0 9%N
                (sample_get_data_response (Some [1%N])) joined_node)).
Proof.
  destruct (responses_are_never_delivered 2130706433%N 0 9%N
              (sample_get_data_response (Some [1%N])) (sample_header 9%N 1 7%N)
              TagGetDataResponse
              [EncBody (BodyGetDataResponse
                          {| get_data_response_name := 5%N; data := Some [1%N] |})]
              joined_node) as [Hpass _].
  - reflexivity.
  - left. reflexivity.
  - exact Hpass.
Defined.

(** X6.  A well-formed [GetData] never reaches [HandleGet].  Its body is
    read off the input stream for the cache lookup, and the [switch]
    reads a [GetData] from the same stream again, where nothing is
    left: when the message is for this node's close group the second
    read throws after the message was forwarded.  In every case all the
    node does outside itself is to pass the bytes on. *)
Theorem GetData_is_read_twice (GetLocalIp : N) now peer_id header get_data n :
  let message := Serialise header TagGetData (BodyGetData get_data) in
  let r := MessageReceived GetLocalIp now peer_id message n in
  Forall (passes_on message) (effects r)
  /\ (LruCache.Check (filter_ n) now (FilterValue header) = false ->
      RelayedMessage header && reply_to_is_connected (connection_manager_ n) header
      = false ->
      AddressInCloseGroupRange (connection_manager_ n) (first (Destination header))
      = true ->
      r = {| outcome := Threw parsing_error;
             state := remembered now header n;
             effects :=
               map (fun target => Send (id target) message)
                 (GetTarget (connection_manager_ n) (first (Destination header))) |}).
Proof.
  intros message r.
  assert (Hparse : ParseHeader message
                   = Some (header, TagGetData, [EncBody (BodyGetData get_data)]))
    by reflexivity.
  assert (Hfirst : LruCache.Check (filter_ n) now (FilterValue header) = false ->
                   r = after (forwarded (connection_manager_ n) header message)
                         (deliver GetLocalIp message header TagGetData []
                            (remembered now header n))).
  { intros Hcheck. unfold r.
    by rewrite (MessageReceived_run _ _ _ _ _ _ _ _ Hparse Hcheck). }
  split.
  - destruct (LruCache.Check (filter_ n) now (FilterValue header)) eqn:Hcheck.
    { unfold r. rewrite (MessageReceived_duplicate _ _ _ _ _ _ _ _ Hparse Hcheck).
      constructor. }
    rewrite (Hfirst eq_refl). simpl. apply Forall_app.
    split; [apply forwarded_passes_on|].
    unfold deliver.
    change (connection_manager_ (remembered now header n)) with (connection_manager_ n).
    pose proof (relayed_passes_on (connection_manager_ n) header message) as Hrelayed.
    destruct (RelayedMessage header && reply_to_is_connected _ header); [done|].
    destruct (negb (AddressInCloseGroupRange _ _)); [constructor|]. constructor.
  - intros Hcheck Hrelay Hrange. rewrite (Hfirst Hcheck). unfold deliver.
    change (connection_manager_ (remembered now header n)) with (connection_manager_ n).
    rewrite Hrelay, Hrange. unfold after, forwarded; simpl. by rewrite app_nil_r.
Qed.

(** X6 for a [GetData] for name 5 from node 9 at [joined_node], which
    has every address in its close-group range. *)
Lemma GetData_is_read_twice_witness :
  outcome (MessageReceived 2130706433%N 0 9%N
             (Serialise (sample_header 9%N 1 5%N) TagGetData (BodyGetData sample_get_data))
             joined_node)
  = Threw parsing_error.
Proof.
  destruct (GetData_is_read_twice 2130706433%N 0 9%N (sample_header 9%N 1 5%N)
              sample_get_data joined_node) as [_ Hthrows].
  rewrite Hthrows.
  - reflexivity.
  - vm_compute. reflexivity.
  - reflexivity.
  - reflexivity.
Defined.

(** ** The handshake, handler by handler *)

(** X7.  [HandleMessage(FindGroup)] leaves the node as it is (no message
    id is taken: the reply goes out under the id of the request) and
    sends one [FindGroupResponse] to every routing target of the node
    the request came from.  The reply is addressed to where the request
    came from, is sent in the name of the group asked for, with this
    node as sender also while it is bootstrapping, is signed with this
    node's key, and lists the close group with this node added at the
    end. *)
Theorem FindGroup_is_answered_with_the_close_group_and_self
    find_group original_header n :
  exists reply,
    HandleMessage_FindGroup find_group original_header n
    = {| outcome := Returned tt; state := n;
         effects :=
           map (fun target =>
                  Send (id target)
                    (Serialise reply TagFindGroupResponse
                       (BodyFindGroupResponse (response_to_find_group find_group n))))
               (GetTarget (connection_manager_ n) (FromNode original_header)) |}
    /\ answers original_header reply
    /\ Source reply
       = {| node_address := OurId n;
            group_address := Some (find_group_target_id find_group);
            reply_to_address := None |}
    /\ signed_by n (BodyFindGroupResponse (response_to_find_group find_group n)) reply
    /\ last (group (response_to_find_group find_group n)) = Some (PublicPmid_of (our_fob_ n))
    /\ length (group (response_to_find_group find_group n))
       = S (length (OurCloseGroup (connection_manager_ n))).
Proof.
  eexists. split; [|split; [|split; [|split; [|split]]]].
  - unfold HandleMessage_FindGroup.
    rewrite (bind_returned _ _ _ _ _ (get_run n)).
    rewrite send_to_targets_run. reflexivity.
  - by split.
  - reflexivity.
  - reflexivity.
  - simpl. apply last_snoc.
  - simpl. rewrite length_app, length_map. simpl. lia.
Qed.

(** X8.  [HandleMessage(Connect)] writes to no member of the node.
    When the tables would not take the requester it does nothing, and
    the [assert] on the receiver id is not reached.  When they would and
    the [Connect] names another receiver the [assert] fails before
    anything is sent.  When they would and it names this node, the node
    answers every routing target of the requester with a
    [ConnectResponse] under the id of the request, signed, that names
    itself as receiver, and then accepts the requester with
    [AddNodeAccept], once. *)
Theorem Connect_is_answered_when_the_tables_take_the_requester
    (GetLocalIp : N) connect original_header n :
  let r := HandleMessage_Connect GetLocalIp connect original_header n in
  let cm := connection_manager_ n in
  state r = n
  /\ (SuggestNodeToAdd cm (connect_requester_id connect) = false ->
      r = {| outcome := Returned tt; state := n; effects := [] |})
  /\ (SuggestNodeToAdd cm (connect_requester_id connect) = true ->
      connect_receiver_id connect <> OurId n ->
      r = {| outcome := AssertFailed; state := n; effects := [] |})
  /\ (SuggestNodeToAdd cm (connect_requester_id connect) = true ->
      connect_receiver_id connect = OurId n ->
      exists reply,
        r = {| outcome := Returned tt; state := n;
               effects :=
                 map (fun target =>
                        Send (id target)
                          (Serialise reply TagConnectResponse
                             (BodyConnectResponse
                                (response_to_connect GetLocalIp connect n))))
                     (GetTarget cm (connect_requester_id connect))
                 ++ [AddNodeAccept
                       {| id := connect_requester_id connect;
                          dht_fob := connect_requester_fob connect;
                          connected := true |}
                       (connect_requester_endpoints connect)] |}
        /\ answers original_header reply
        /\ Source reply = OurSourceAddress n
        /\ signed_by n (BodyConnectResponse (response_to_connect GetLocalIp connect n))
             reply).
Proof.
  intros r cm. unfold r, cm. rewrite HandleMessage_Connect_run.
  split; [|split; [|split]].
  - destruct (negb (SuggestNodeToAdd _ _)); [reflexivity|].
    destruct (negb (N.eqb _ _)); reflexivity.
  - intros Hsuggest. by rewrite Hsuggest.
  - intros Hsuggest Hother. rewrite Hsuggest.
    apply N.eqb_neq in Hother. by rewrite Hother.
  - intros Hsuggest Hself. rewrite Hsuggest.
    apply N.eqb_eq in Hself. rewrite Hself. simpl.
    eexists. split; [reflexivity|]. by repeat split.
Qed.

(** X8 at [joined_node]: a [Connect] from its own id, which the tables
    do not take, one that names node 5 as receiver, and
    [connect_for_this_node]. *)
Lemma Connect_is_answered_when_the_tables_take_the_requester_witness :
  HandleMessage_Connect 2130706433%N
    {| connect_requester_endpoints := EndpointPair_default;
       connect_requester_id := 7%N;
       connect_receiver_id := 5%N;
       connect_requester_fob := PublicPmid_of sample_fob |}
    (direct_header 7%N) joined_node
  = {| outcome := Returned tt; state := joined_node; effects := [] |}
  /\ HandleMessage_Connect 2130706433%N
       {| connect_requester_endpoints := EndpointPair_default;
          connect_requester_id := 9%N;
          connect_receiver_id := 5%N;
          connect_requester_fob := {| public_name := 9%N; public_value := 90%N |} |}
       (direct_header 7%N) joined_node
     = {| outcome := AssertFailed; state := joined_node; effects := [] |}
  /\ length (effects (HandleMessage_Connect 2130706433%N connect_for_this_node
                        (direct_header 7%N) joined_node)) = 2%nat.
Proof.
  split; [|split].
  - destruct (Connect_is_answered_when_the_tables_take_the_requester 2130706433%N
                {| connect_requester_endpoints := EndpointPair_default;
                   connect_requester_id := 7%N;
                   connect_receiver_id := 5%N;
                   connect_requester_fob := PublicPmid_of sample_fob |}
                (direct_header 7%N) joined_node) as (_ & Hrefused & _).
    apply Hrefused. reflexivity.
  - destruct (Connect_is_answered_when_the_tables_take_the_requester 2130706433%N
                {| connect_requester_endpoints := EndpointPair_default;
                   connect_requester_id := 9%N;
                   connect_receiver_id := 5%N;
                   connect_requester_fob :=
                     {| public_name := 9%N; public_value := 90%N |} |}
                (direct_header 7%N) joined_node) as (_ & _ & Hother & _).
    apply Hother; [reflexivity | discriminate].
  - destruct (Connect_is_answered_when_the_tables_take_the_requester 2130706433%N
                connect_for_this_node (direct_header 7%N) joined_node)
      as (_ & _ & _ & Hself).
    destruct Hself as (reply & -> & _); reflexivity.
Defined.

Section ConnectingToAGroup.
Variable GetLocalIp : N.

Lemma after_ids_next count n :
  after_ids count (set_message_id (next_message_id n) n) = after_ids (S count) n.
Proof. unfold after_ids. by rewrite Nat.iter_succ_r. Qed.

Lemma connect_to_members members : forall n,
  let r := for_each members (connect_to GetLocalIp) n in
  let taken :=
    List.filter
      (fun member => SuggestNodeToAdd (connection_manager_ n) (public_name member))
      members in
  outcome r = Returned tt
  /\ state r = after_ids (length taken) n
  /\ Forall (fun e => exists member,
                 In member taken /\ is_connect_to GetLocalIp n member e)
       (effects r).
Proof.
  induction members as [|member members IH]; intros n; [by repeat split|].
  cbn [for_each List.filter].
  rewrite (bind_run _ _ _ _ (connect_to_run GetLocalIp member n)).
  destruct (SuggestNodeToAdd (connection_manager_ n) (public_name member)) eqn:Hsuggest;
    cbn [negb outcome state effects].
  - destruct (IH (set_message_id (next_message_id n) n)) as (Hout & Hstate & Hsent).
    split; [exact Hout|]. split.
    + cbn [after state length]. rewrite Hstate. apply after_ids_next.
    + cbn [after effects]. apply Forall_app. split.
      * apply Forall_map, Forall_forall. intros target Htarget.
        exists member. split; [by left|].
        exists target. eexists. split; [reflexivity|].
        split; [by apply list_elem_of_In|]. by split.
      * eapply Forall_impl; [exact Hsent|].
        intros e (m & Hin & Hconnect). exists m. split; [by right | exact Hconnect].
  - destruct (IH n) as (Hout & Hstate & Hsent).
    split; [exact Hout|]. split; [exact Hstate|]. exact Hsent.
Qed.

(** X9.  [HandleMessage(FindGroupResponse)] walks the group and skips
    every member the tables would not take.  For each member they would
    take it takes one message id and sends a [Connect], addressed to
    that member and naming it as receiver and this node as requester, to
    the routing targets of the member.  The handler returns; the node
    changes by its counter only, which moves on by the number of members
    taken; nothing is added to the tables here. *)
Theorem FindGroupResponse_connects_to_the_members_the_tables_take
    response original_header n :
  let r := HandleMessage_FindGroupResponse GetLocalIp response original_header n in
  outcome r = Returned tt
  /\ state r = after_ids (length (accepted n response)) n
  /\ Forall (fun e => exists member,
                 In member (accepted n response)
                 /\ is_connect_to GetLocalIp n member e)
       (effects r).
Proof. apply connect_to_members. Qed.

End ConnectingToAGroup.

(** X10.  The handshake as the two handlers play it.  Node [b] answers a
    [Connect] of node [a] with a [ConnectResponse] that carries the id
    of [a] as requester id.  When [a] handles that answer it asks its
    tables whether to add the requester id, its own id, and the node it
    hands to [AddNode] has the id of [a] with the key and the endpoints
    of [b]; the id of [b] is not used. *)
Theorem ConnectResponse_makes_the_requester_add_its_own_id
    (GetLocalIp : N) connect original_header a b :
  connect_requester_id connect = OurId a ->
  let answer := response_to_connect GetLocalIp connect b in
  Forall (fun message => exists reply,
            message = Serialise reply TagConnectResponse (BodyConnectResponse answer))
    (sent (effects (HandleMessage_Connect GetLocalIp connect original_header b)))
  /\ HandleMessage_ConnectResponse answer a
     = {| outcome := Returned tt; state := a;
          effects :=
            if SuggestNodeToAdd (connection_manager_ a) (OurId a)
            then [AddNode {| id := OurId a;
                             dht_fob := PublicPmid_of (our_fob_ b);
                             connected := true |}
                          (NextEndpointPair GetLocalIp b)]
            else [] |}.
Proof.
  intros Hrequester answer. split.
  - rewrite HandleMessage_Connect_run.
    destruct (negb (SuggestNodeToAdd _ _)); [constructor|].
    destruct (negb (N.eqb _ _)); [constructor|].
    cbn [effects]. rewrite sent_app, sent_sends, app_nil_r.
    apply Forall_map, Forall_forall. intros _ _. by eexists.
  - rewrite HandleMessage_ConnectResponse_run. unfold answer; simpl.
    by rewrite Hrequester.
Qed.

(** X10 for [connect_from_joined_node], answered by [peer_node]:
    [joined_node], whose tables do not take its own id, does nothing
    with the answer. *)
Lemma ConnectResponse_makes_the_requester_add_its_own_id_witness :
  HandleMessage_ConnectResponse
    (response_to_connect 2130706433%N connect_from_joined_node peer_node) joined_node
  = {| outcome := Returned tt; state := joined_node; effects := [] |}.
Proof.
  destruct (ConnectResponse_makes_the_requester_add_its_own_id 2130706433%N
              connect_from_joined_node (direct_header 3%N) joined_node peer_node)
    as [_ Hanswer].
  - reflexivity.
  - rewrite Hanswer. reflexivity.
Defined.

(** ** Joining through a bootstrap node *)

Lemma dispatch_FindGroup GetLocalIp find_group rest header n :
  dispatch GetLocalIp TagFindGroup (EncBody (BodyFindGroup find_group) :: rest) header n
  = after [Dispatched TagFindGroup header]
      (HandleMessage_FindGroup find_group header n).
Proof.
  unfold dispatch. cbn [ParseBody asFindGroup parsed].
  rewrite (bind_returned (mret (find_group, rest)) _ n (find_group, rest) n)
    by reflexivity.
  by rewrite (bind_run (emit _) _ n _ eq_refl).
Qed.

(** X11.  Joining, end to end.  When the bootstrap attempt for a contact
    succeeds the node sends one message, to that contact: a [FindGroup]
    for its own id that names the contact as sender and itself as
    reply-to.  A node that receives this request for the first time and
    has the joiner's id in its close-group range forwards it, starts the
    [FindGroup] handler once and answers towards the contact: the
    [FindGroupResponse] carries the id of the request, comes from the
    group of the joiner's id, and is addressed to the contact with the
    joiner as reply-to, so that the contact can relay it. *)
Theorem joining_request_is_answered_through_the_bootstrap_node
    (GetLocalIp : N) contact our_endpoint now peer_id a b :
  let cm := connection_manager_ b in
  let request := joining_request contact a in
  effects (OnConnect contact 0%N (contact_id contact) our_endpoint a)
  = [Send (contact_id contact) request]
  /\ exists header stream,
       ParseHeader request = Some (header, TagFindGroup, stream)
       /\ FilterValue header = (contact_id contact, next_message_id a)
       /\ (LruCache.Check (filter_ b) now (FilterValue header) = false ->
           AddressInCloseGroupRange cm (OurId a) = true ->
           exists reply answer,
             MessageReceived GetLocalIp now peer_id request b
             = {| outcome := Returned tt; state := remembered now header b;
                  effects :=
                    map (fun target => Send (id target) request)
                      (GetTarget cm (OurId a))
                    ++ Dispatched TagFindGroup header
                       :: map (fun target =>
                                 Send (id target)
                                   (Serialise reply TagFindGroupResponse
                                      (BodyFindGroupResponse answer)))
                            (GetTarget cm (contact_id contact)) |}
             /\ Destination reply
                = {| first := contact_id contact; second := Some (OurId a) |}
             /\ MessageId_of reply = next_message_id a
             /\ FromGroup reply = Some (OurId a)
             /\ last (group answer) = Some (PublicPmid_of (our_fob_ b))).
Proof.
  intros cm request. split; [by rewrite OnConnect_success|].
  eexists. eexists. split; [reflexivity|]. split; [reflexivity|].
  intros Hcheck Hrange.
  eexists. eexists. split; [|split; [|split; [|split]]].
  - rewrite (MessageReceived_run GetLocalIp now peer_id request _ _ _ b eq_refl Hcheck).
    cbn [unread]. cbv zeta. unfold deliver.
    change (connection_manager_ (cached _ _ _ (remembered _ _ b))) with cm.
    cbn [RelayedMessage joining_request Serialise MessageHeader_unsigned destination_
         to_destination second Destination first andb bool_decide].
    change (RelayedMessage _) with false. cbn [andb].
    unfold cm in Hrange. fold cm in Hrange. rewrite Hrange. cbn [negb].
    change (bool_decide (TagFindGroup = TagConnect)) with false.
    change (bool_decide (TagFindGroup = TagConnectResponse)) with false.
    cbn [orb andb].
    rewrite dispatch_FindGroup. unfold HandleMessage_FindGroup.
    rewrite (bind_returned _ _ _ _ _ (get_run _)).
    rewrite send_to_targets_run. unfold after, forwarded. cbn [outcome state effects].
    reflexivity.
  - reflexivity.
  - reflexivity.
  - reflexivity.
  - simpl. apply last_snoc.
Qed.

(** X11 for [other_joiner], which joins through [sample_contact], and
    [joined_node] as the node that answers. *)
Lemma joining_request_is_answered_through_the_bootstrap_node_witness :
  length (effects (MessageReceived 2130706433%N 0 2%N
                     (joining_request sample_contact other_joiner) joined_node))
  = 3%nat.
Proof.
  destruct (joining_request_is_answered_through_the_bootstrap_node 2130706433%N
              sample_contact (external (endpoint_pair sample_contact)) 0 2%N
              other_joiner joined_node)
    as (_ & header & stream & Hparse & Hkey & Hanswer).
  destruct Hanswer as (reply & answer & Hrun & _).
  - rewrite Hkey. vm_compute. reflexivity.
  - reflexivity.
  - rewrite Hrun. reflexivity.
Defined.

Lemma filter_after_first_reception GetLocalIp now peer_id message header tag stream n :
  ParseHeader message = Some (header, tag, stream) ->
  LruCache.Check (filter_ n) now (FilterValue header) = false ->
  filter_ (state (MessageReceived GetLocalIp now peer_id message n))
  = LruCache.Add (filter_ n) now (FilterValue header) tt.
Proof.
  intros Hparse Hcheck.
  rewrite (MessageReceived_first _ _ _ _ _ _ _ _ Hparse Hcheck).
  by rewrite (preserves_process GetLocalIp filter_).
Qed.

(** X12.  The duplicate filter does not tell apart two nodes that join
    through the same bootstrap node.  Their requests name the contact as
    sender, so when their counters stand at the same value the two
    requests, different messages for different ids, have one filter
    key: a node that has received the first drops the second as a
    duplicate while the key is remembered. *)
Theorem joiners_behind_one_bootstrap_node_share_a_filter_key
    (GetLocalIp : N) contact now later peer_id peer_id' a a' b :
  let request := joining_request contact a in
  let request' := joining_request contact a' in
  let b' := state (MessageReceived GetLocalIp now peer_id request b) in
  OurId a <> OurId a' ->
  next_message_id a = next_message_id a' ->
  LruCache.Check (filter_ b) now (contact_id contact, next_message_id a) = false ->
  now ≤ later ≤ now + LruCache.time_to_live (filter_ b) ->
  request <> request'
  /\ MessageReceived GetLocalIp later peer_id' request' b'
     = {| outcome := Returned tt; state := b'; effects := [] |}.
Proof.
  intros request request' b' Hids Hcounter Hcheck Hlater. split.
  - unfold request, request', joining_request, Serialise. congruence.
  - eapply MessageReceived_duplicate; [reflexivity|].
    unfold b'.
    rewrite (filter_after_first_reception GetLocalIp now peer_id request _ _ _ b
               eq_refl Hcheck).
    apply (holds_since_Check _ _ now).
    + cbn [FilterValue joining_request Serialise MessageHeader_unsigned source_
           node_address header_message_id_].
      rewrite <- Hcounter. apply holds_since_Add_same. lia.
    + rewrite time_to_live_Add. lia.
Qed.

(** X12 for [fresh_node] and [other_joiner], both with their counter at
    4294967294, received by [peer_node] ten minutes apart. *)
Lemma joiners_behind_one_bootstrap_node_share_a_filter_key_witness :
  effects (MessageReceived 2130706433%N 600 2%N
             (joining_request sample_contact other_joiner)
             (state (MessageReceived 2130706433%N 0 2%N
                       (joining_request sample_contact fresh_node) peer_node)))
  = [].
Proof.
  destruct (joiners_behind_one_bootstrap_node_share_a_filter_key 2130706433%N
              sample_contact 0 600 2%N 2%N fresh_node other_joiner peer_node)
    as [_ Hdropped].
  - discriminate.
  - reflexivity.
  - vm_compute. reflexivity.
  - vm_compute. split; discriminate.
  - rewrite Hdropped. reflexivity.
Defined.

(** ** What a reception leaves alone *)

Lemma dispatch_keeps_message_id GetLocalIp tag stream header :
  tag <> TagFindGroupResponse ->
  preserves message_id_ (dispatch GetLocalIp tag stream header).
Proof.
  intros Htag.
  unfold dispatch, HandleMessage_Connect, HandleMessage_ConnectResponse,
    HandleMessage_FindGroup, HandleMessage_GetData, HandleMessage_PutData,
    HandleMessage_Post, send_to_targets.
  destruct tag; try contradiction; repeat frame_step.
Qed.

(** X13.  Of the node's members, receiving a message writes to the
    duplicate filter, the cache and the counter at most: the key pair,
    the bootstrap node, the external endpoint and the bootstrap
    contacts are after [MessageReceived] what they were before, however
    it ends.  The counter moves only when the message is a
    [FindGroupResponse]. *)
Theorem reception_leaves_the_standing_of_the_node (GetLocalIp : N)
    now peer_id message n :
  let r := MessageReceived GetLocalIp now peer_id message n in
  standing (state r) = standing n
  /\ forall header tag stream,
       ParseHeader message = Some (header, tag, stream) ->
       tag <> TagFindGroupResponse ->
       message_id_ (state r) = message_id_ n.
Proof.
  intros r. unfold r. split.
  - destruct (MessageReceived_cases GetLocalIp now peer_id message n)
      as [-> | (header & tag & stream & _ & _ & ->)]; [reflexivity|].
    by rewrite (preserves_process GetLocalIp standing).
  - intros header tag stream Hparse Htag.
    destruct (LruCache.Check (filter_ n) now (FilterValue header)) eqn:Hcheck.
    { by rewrite (MessageReceived_duplicate _ _ _ _ _ _ _ _ Hparse Hcheck). }
    rewrite (MessageReceived_run _ _ _ _ _ _ _ _ Hparse Hcheck).
    destruct (unread tag stream) as [rest|]; [|reflexivity].
    cbv zeta. cbn [after state].
    assert (Hcached : message_id_ (cached now tag stream (remembered now header n))
                      = message_id_ n).
    { unfold cached. destruct tag; try reflexivity.
      destruct (ParseBody _ _) as [[response rest']|]; [|reflexivity].
      by destruct (data response). }
    rewrite <- Hcached. unfold deliver.
    destruct (RelayedMessage header && reply_to_is_connected _ header); [reflexivity|].
    destruct (negb (AddressInCloseGroupRange _ _)); [reflexivity|].
    destruct (_ && _); [reflexivity|].
    by apply dispatch_keeps_message_id.
Qed.

(** X13 for [sample_find_group 1] at [young_node], whose counter
    stands at 41. *)
Lemma reception_leaves_the_standing_of_the_node_witness :
  message_id_ (state (MessageReceived 2130706433%N 0 9%N (sample_find_group 1)
                        young_node))
  = 41.
Proof.
  destruct (reception_leaves_the_standing_of_the_node 2130706433%N 0 9%N
              (sample_find_group 1) young_node) as [_ Hcounter].
  rewrite (Hcounter (sample_header 9%N 1 7%N) TagFindGroup
             [EncBody (BodyFindGroup {| find_group_requester_id := 9%N;
                                        find_group_target_id := 7%N |})]).
  - reflexivity.
  - reflexivity.
  - discriminate.
Defined.

(** ** The request of a joined node *)

(** X14.  What [ConnectToCloseGroup] sends once the node has joined is
    lost on every other node.  The message has the tag of [Connect] and
    is addressed to the sender's own id, so a node with another id that
    receives it passes it on at most: the drop of direct messages for
    other nodes stops it before the [switch], and no handler runs. *)
Theorem request_of_a_joined_node_is_lost_on_other_nodes (GetLocalIp : N)
    now peer_id message a b :
  bootstrap_node_ a = None ->
  In message (sent (effects (ConnectToCloseGroup a))) ->
  ids_agree b ->
  OurId b <> OurId a ->
  outcome (MessageReceived GetLocalIp now peer_id message b) = Returned tt
  /\ Forall (passes_on message)
       (effects (MessageReceived GetLocalIp now peer_id message b)).
Proof.
  intros Hjoined Hsent Hagree Hother.
  rewrite ConnectToCloseGroup_run in Hsent. cbn [effects] in Hsent.
  rewrite Hjoined, sent_sends in Hsent.
  apply in_map_iff in Hsent. destruct Hsent as (target & <- & _).
  set (message := Serialise (find_group_header a) TagConnect (find_group_body a)).
  assert (Hparse : ParseHeader message
                   = Some (find_group_header a, TagConnect, [EncBody (find_group_body a)]))
    by reflexivity.
  destruct (LruCache.Check (filter_ b) now (FilterValue (find_group_header a)))
    eqn:Hcheck.
  { rewrite (MessageReceived_duplicate _ _ _ _ _ _ _ _ Hparse Hcheck). by split. }
  rewrite (MessageReceived_run _ _ _ _ _ _ _ _ Hparse Hcheck).
  cbn [unread]. cbv zeta. unfold deliver.
  change (connection_manager_ (cached _ _ _ (remembered _ _ b)))
    with (connection_manager_ b).
  change (RelayedMessage (find_group_header a)) with false. cbn [andb].
  assert (Hdrop : negb (N.eqb (first (Destination (find_group_header a)))
                          (cm_OurId (connection_manager_ b))) = true).
  { apply negb_true_iff, N.eqb_neq. rewrite Hagree. simpl. congruence. }
  rewrite Hdrop.
  change (bool_decide (TagConnect = TagConnect)) with true. cbn [orb andb].
  destruct (negb (AddressInCloseGroupRange _ _)); cbn [after outcome effects];
    rewrite app_nil_r; (split; [reflexivity | apply forwarded_passes_on]).
Qed.

(** X14 for the message [joined_node] sends to its peer, received by
    [peer_node]. *)
Lemma request_of_a_joined_node_is_lost_on_other_nodes_witness :
  outcome (MessageReceived 2130706433%N 0 7%N
             (Serialise (find_group_header joined_node) TagConnect
                (find_group_body joined_node))
             peer_node)
  = Returned tt.
Proof.
  destruct (request_of_a_joined_node_is_lost_on_other_nodes 2130706433%N 0 7%N
              (Serialise (find_group_header joined_node) TagConnect
                 (find_group_body joined_node))
              joined_node peer_node) as [Hreturned _].
  - reflexivity.
  - left. reflexivity.
  - reflexivity.
  - discriminate.
  - exact Hreturned.
Defined.

(** ** Construction *)

Lemma for_each_emit {A} (f : A -> Effect) (xs : list A) n :
  for_each xs (fun x => emit (f x)) n
  = {| outcome := Returned tt; state := n; effects := map f xs |}.
Proof.
  induction xs as [|x xs IH]; [reflexivity|].
  cbn [for_each]. rewrite (bind_run (emit (f x)) _ n _ eq_refl).
  cbn [outcome state effects emit]. by rewrite IH.
Qed.

Lemma RoutingNode_new_run fob random contacts accepting_port now :
  RoutingNode_new fob random contacts accepting_port now
  = {| outcome := Returned tt;
       state :=
         {| our_fob_ := fob;
            message_id_ := random;
            bootstrap_node_ := None;
            our_external_endpoint_ := None;
            bootstrap_handler_ := contacts;
            connection_manager_ := ConnectionManager_new (name fob) accepting_port;
            filter_ := LruCache.create (minutes 20);
            cache_ :=
              LruCache.Add (LruCache.create (minutes 60)) now (name fob)
                (SerialisePublicPmid (PublicPmid_of fob)) |};
       effects :=
         map (fun contact => ConnectTo (external (endpoint_pair contact)) contact)
           contacts |}.
Proof.
  unfold RoutingNode_new.
  rewrite (bind_returned _ _ _ _ _ (get_run _)).
  rewrite (bind_returned (modify _) _ _ tt _) by reflexivity.
  by rewrite for_each_emit.
Qed.

Lemma Check_create {K V} `{Countable K} ttl now (k : K) :
  LruCache.Check (LruCache.create (V := V) ttl) now k = false.
Proof.
  apply not_true_iff_false. intros Hheld. apply Check_true in Hheld.
  destruct Hheld as (v & t & Hstored & _).
  cbn [LruCache.create LruCache.storage] in Hstored. by rewrite lookup_empty in Hstored.
Qed.

(** X15.  The node as the constructor leaves it.  It has no bootstrap
    node and no external endpoint, so it offers the default endpoint
    pair; its counter is the random number drawn; its duplicate filter
    holds no key, so the first message of any key is processed; and its
    cache holds one entry, the node's own public key under the node's
    own name, which is served for the next sixty minutes. *)
Theorem constructed_node_serves_its_own_key (GetLocalIp : N)
    fob random contacts accepting_port now :
  let n := state (RoutingNode_new fob random contacts accepting_port now) in
  outcome (RoutingNode_new fob random contacts accepting_port now) = Returned tt
  /\ bootstrap_node_ n = None
  /\ NextEndpointPair GetLocalIp n = EndpointPair_default
  /\ message_id_ n = random
  /\ (forall later key, LruCache.Check (filter_ n) later key = false)
  /\ (forall later,
        later - now ≤ 3600 ->
        LruCache.Get (cache_ n) later (OurId n)
        = Some (SerialisePublicPmid (PublicPmid_of fob)))
  /\ (forall later other, other <> OurId n -> LruCache.Get (cache_ n) later other = None).
Proof.
  intros n. unfold n. rewrite RoutingNode_new_run. cbn [outcome state].
  split; [reflexivity|]. split; [reflexivity|]. split; [reflexivity|].
  split; [reflexivity|]. split; [|split].
  - intros later key. apply Check_create.
  - intros later Hlive. cbn [cache_ OurId our_fob_]. by apply Get_Add_same.
  - intros later other Hother. cbn [cache_ OurId our_fob_] in *.
    unfold LruCache.Get.
    destruct (LruCache.live _ later !! other) as [[v t]|] eqn:Hlive; [|reflexivity].
    apply live_lookup_Some in Hlive. destruct Hlive as [Hstored _].
    rewrite storage_Add_other in Hstored by done.
    apply live_lookup_Some in Hstored. destruct Hstored as [Hstored _].
    cbn [LruCache.create LruCache.storage] in Hstored.
    by rewrite lookup_empty in Hstored.
Qed.

(** X15 at [fresh_node], half an hour after its construction. *)
Lemma constructed_node_serves_its_own_key_witness :
  LruCache.Get (cache_ fresh_node) 1800 7%N
  = Some (SerialisePublicPmid (PublicPmid_of sample_fob))
  /\ LruCache.Get (cache_ fresh_node) 1800 5%N = None.
Proof.
  destruct (constructed_node_serves_its_own_key 2130706433%N sample_fob 4294967294
              [sample_contact] 5483%N 0) as (_ & _ & _ & _ & _ & Hown & Hother).
  split.
  - apply Hown. lia.
  - apply Hother. discriminate.
Defined.

(** ** What stays for the life of a node *)

Section Life.
Variable QuorumSize : nat.
Variable GetLocalIp : N.

Lemma preserves_OnAddNode {B} (proj : RoutingNode -> B) alive added :
  (forall v n, proj (set_bootstrap_node v n) = proj n) ->
  preserves proj (OnAddNode QuorumSize alive added).
Proof.
  intros Hproj. unfold OnAddNode.
  repeat first [ apply preserves_modify; intros ?; apply Hproj | frame_step ].
Qed.

Lemma handle_keeps_the_external_endpoint e n :
  ~ bootstrap_success e ->
  our_external_endpoint_ (state (handle QuorumSize GetLocalIp e n))
  = our_external_endpoint_ n.
Proof.
  intros He. destruct e; cbn [handle].
  - destruct (MessageReceived_cases GetLocalIp now peer_id serialised_message n)
      as [-> | (header & tag & stream & _ & _ & ->)]; [reflexivity|].
    by rewrite (preserves_process GetLocalIp our_external_endpoint_).
  - apply preserves_ConnectionLost.
  - unfold OnConnect.
    destruct (N.eqb_spec error 0); [|reflexivity].
    destruct (N.eqb_spec addr (contact_id contact)); [|reflexivity].
    by destruct He.
  - by apply preserves_OnAddNode.
  - apply preserves_OnAddNodeAccept.
  - by apply preserves_Get.
  - by apply preserves_Put.
  - by apply preserves_Post.
  - reflexivity.
  - reflexivity.
Qed.

Lemma run_keeps_the_external_endpoint events : forall n,
  Forall (fun e => ~ bootstrap_success e) events ->
  our_external_endpoint_ (fst (run QuorumSize GetLocalIp events n))
  = our_external_endpoint_ n.
Proof.
  induction events as [|e events IH]; intros n Hevents; [reflexivity|].
  apply Forall_cons in Hevents. destruct Hevents as [He Hevents].
  cbn [run]. pose proof (handle_keeps_the_external_endpoint e n He) as Hstep.
  destruct (outcome _); cbn [fst]; try exact Hstep;
    specialize (IH (state (handle QuorumSize GetLocalIp e n)) Hevents);
    destruct (run _ _ events _); cbn [fst] in *; congruence.
Qed.

(** X16.  The external endpoint of a node is written in one place: the
    completion of a bootstrap attempt that reached the contact stores
    the endpoint that attempt observed.  No other event changes it, so
    a node constructed and run through any events without such a
    completion still offers the default endpoint pair in the [Connect]
    and [ConnectResponse] messages it composes. *)
Theorem external_endpoint_comes_from_a_bootstrap_connect :
  (forall contact our_endpoint n,
      our_external_endpoint_
        (state (handle QuorumSize GetLocalIp
                  (ConnectCompleted contact 0%N (contact_id contact) our_endpoint) n))
      = Some our_endpoint)
  /\ (forall events n,
        Forall (fun e => ~ bootstrap_success e) events ->
        our_external_endpoint_ (fst (run QuorumSize GetLocalIp events n))
        = our_external_endpoint_ n)
  /\ (forall events fob random contacts accepting_port now,
        Forall (fun e => ~ bootstrap_success e) events ->
        NextEndpointPair GetLocalIp
          (fst (run QuorumSize GetLocalIp events
                  (state (RoutingNode_new fob random contacts accepting_port now))))
        = EndpointPair_default).
Proof.
  split; [|split].
  - intros contact our_endpoint n. cbn [handle]. by rewrite OnConnect_success.
  - apply run_keeps_the_external_endpoint.
  - intros events fob random contacts accepting_port now Hevents.
    unfold NextEndpointPair.
    rewrite (run_keeps_the_external_endpoint events _ Hevents).
    by rewrite RoutingNode_new_run.
Qed.

End Life.

(** X16 for [quiet_day] at [fresh_node]. *)
Lemma external_endpoint_comes_from_a_bootstrap_connect_witness :
  NextEndpointPair 2130706433%N (fst (run 8%nat 2130706433%N quiet_day fresh_node))
  = EndpointPair_default.
Proof.
  destruct (external_endpoint_comes_from_a_bootstrap_connect 8%nat 2130706433%N)
    as (_ & _ & Hdefault).
  apply (Hdefault quiet_day sample_fob 4294967294 [sample_contact] 5483%N 0).
  repeat constructor; simpl; intros Hsuccess; try contradiction.
  destruct Hsuccess as [Herror _]. discriminate.
Defined.

Section Endowment.
Variable QuorumSize : nat.
Variable GetLocalIp : N.

Lemma handle_keeps_the_endowment e n :
  endowment (state (handle QuorumSize GetLocalIp e n)) = endowment n.
Proof.
  destruct e; cbn [handle].
  - destruct (MessageReceived_cases GetLocalIp now peer_id serialised_message n)
      as [-> | (header & tag & stream & Hparse & Hcheck & _)]; [reflexivity|].
    rewrite (MessageReceived_run _ _ _ _ _ _ _ _ Hparse Hcheck).
    destruct (unread tag stream) as [rest|]; [|reflexivity].
    cbv zeta. cbn [after state].
    transitivity (endowment (cached now tag stream (remembered now header n))).
    + unfold deliver.
      destruct (RelayedMessage header && reply_to_is_connected _ header);
        [reflexivity|].
      destruct (negb (AddressInCloseGroupRange _ _)); [reflexivity|].
      destruct (_ && _); [reflexivity|].
      by apply (preserves_dispatch GetLocalIp endowment).
    + unfold cached. destruct tag; try reflexivity.
      destruct (ParseBody _ _) as [[response rest']|]; [|reflexivity].
      by destruct (data response).
  - apply preserves_ConnectionLost.
  - revert n. change (preserves endowment (OnConnect contact error addr our_endpoint)).
    unfold OnConnect.
    repeat first
      [ apply preserves_ConnectToCloseGroup; done
      | apply preserves_modify; done
      | frame_step ].
  - by apply preserves_OnAddNode.
  - apply preserves_OnAddNodeAccept.
  - by apply preserves_Get.
  - by apply preserves_Put.
  - by apply preserves_Post.
  - reflexivity.
  - reflexivity.
Qed.

Lemma handle_keeps_the_contacts e n :
  ~ adds_a_contact e ->
  bootstrap_handler_ (state (handle QuorumSize GetLocalIp e n)) = bootstrap_handler_ n.
Proof.
  intros He. destruct e; cbn [handle].
  - destruct (MessageReceived_cases GetLocalIp now peer_id serialised_message n)
      as [-> | (header & tag & stream & _ & _ & ->)]; [reflexivity|].
    by rewrite (preserves_process GetLocalIp bootstrap_handler_).
  - apply preserves_ConnectionLost.
  - revert n.
    change (preserves bootstrap_handler_ (OnConnect contact error addr our_endpoint)).
    unfold OnConnect.
    repeat first
      [ apply preserves_ConnectToCloseGroup; done
      | apply preserves_modify; done
      | frame_step ].
  - by apply preserves_OnAddNode.
  - apply preserves_OnAddNodeAccept.
  - by apply preserves_Get.
  - by apply preserves_Put.
  - by apply preserves_Post.
  - by destruct He.
  - reflexivity.
Qed.

Lemma run_keeps_the_contacts events : forall n,
  Forall (fun e => ~ adds_a_contact e) events ->
  bootstrap_handler_ (fst (run QuorumSize GetLocalIp events n)) = bootstrap_handler_ n.
Proof.
  induction events as [|e events IH]; intros n Hevents; [reflexivity|].
  apply Forall_cons in Hevents. destruct Hevents as [He Hevents].
  cbn [run]. pose proof (handle_keeps_the_contacts e n He) as Hstep.
  destruct (outcome _); cbn [fst]; try exact Hstep;
    specialize (IH (state (handle QuorumSize GetLocalIp e n)) Hevents);
    destruct (run _ _ events _); cbn [fst] in *; congruence.
Qed.

(** X17.  Whatever happens to a node, it keeps its key pair, and its
    two caches keep their times to live: after any run of events a
    constructed node still has the key pair it was created with, a
    duplicate filter that remembers for twenty minutes and a cache that
    serves for sixty.  Its bootstrap contacts change through
    [AddBootstrapContact] only: a run without such a call leaves them as
    they were, and the call leaves the new contact among them and
    removes none. *)
Theorem node_keeps_its_endowment events :
  (forall n, endowment (fst (run QuorumSize GetLocalIp events n)) = endowment n)
  /\ (forall fob random contacts accepting_port now,
        endowment
          (fst (run QuorumSize GetLocalIp events
                  (state (RoutingNode_new fob random contacts accepting_port now))))
        = (fob, 1200, 3600))
  /\ (forall n,
        Forall (fun e => ~ adds_a_contact e) events ->
        bootstrap_handler_ (fst (run QuorumSize GetLocalIp events n))
        = bootstrap_handler_ n)
  /\ (forall bootstrap_contact n,
        let after_call := state (AddBootstrapContact bootstrap_contact n) in
        endowment after_call = endowment n
        /\ In bootstrap_contact (bootstrap_handler_ after_call)
        /\ forall contact,
             In contact (bootstrap_handler_ n) ->
             In contact (bootstrap_handler_ after_call)).
Proof.
  assert (Hrun : forall n,
             endowment (fst (run QuorumSize GetLocalIp events n)) = endowment n).
  { induction events as [|e events' IH]; intros n; [reflexivity|].
    cbn [run]. pose proof (handle_keeps_the_endowment e n) as Hstep.
    destruct (outcome _); cbn [fst]; try exact Hstep;
      specialize (IH (state (handle QuorumSize GetLocalIp e n)));
      destruct (run _ _ events' _); cbn [fst] in *; congruence. }
  split; [exact Hrun|]. split; [|split].
  - intros fob random contacts accepting_port now.
    rewrite Hrun, RoutingNode_new_run. reflexivity.
  - apply run_keeps_the_contacts.
  - intros bootstrap_contact n after_call. unfold after_call.
    cbn [AddBootstrapContact modify state set_bootstrap_handler bootstrap_handler_
         AddBootstrapContacts fold_left].
    split; [reflexivity|].
    destruct (bool_decide_reflect (bootstrap_contact ∈ bootstrap_handler_ n))
      as [Hin | Hout].
    + split; [by apply list_elem_of_In | done].
    + split; [apply in_or_app; right; by left|].
      intros contact Hcontact. apply in_or_app. by left.
Qed.

End Endowment.

(** X17 for [quiet_day] at [fresh_node], which was given
    [sample_contact]. *)
Lemma node_keeps_its_endowment_witness :
  bootstrap_handler_ (fst (run 8%nat 2130706433%N quiet_day fresh_node))
  = [sample_contact].
Proof.
  destruct (node_keeps_its_endowment 8%nat 2130706433%N quiet_day)
    as (_ & _ & Hcontacts & _).
  rewrite Hcontacts; [reflexivity|].
  repeat constructor; simpl; intros Hcall; contradiction.
Defined.

(** ** Requests of the application *)

(** X18.  [Get], [Put] and [Post] each return, take one message id
    whether or not there is anyone to send to, change nothing else of
    the node, and send one and the same message to every routing target
    of the destination.  The message is addressed to the destination
    alone, carries the new id and the node's source address, and claims
    the authority of a node, for [Put] that of a client.  [Post] sends
    its functor in the body of a [PutData] under the tag of [Post]. *)
Theorem request_is_sent_to_every_target_of_its_destination q n :
  exists header,
    request q n
    = {| outcome := Returned tt;
         state := set_message_id (next_message_id n) n;
         effects :=
           map (fun target =>
                  Send (id target) (Serialise header (request_tag q) (request_body q n)))
               (GetTarget (connection_manager_ n) (request_destination q)) |}
    /\ Destination header = {| first := request_destination q; second := None |}
    /\ Source header = OurSourceAddress n
    /\ MessageId_of header = next_message_id n
    /\ authority_ header = request_authority q
    /\ signature_ header = None.
Proof.
  destruct q; cbn [request].
  - rewrite Get_run. eexists. split; [reflexivity|]. by repeat split.
  - rewrite Put_run. eexists. split; [reflexivity|]. by repeat split.
  - rewrite Post_run. eexists. split; [reflexivity|]. by repeat split.
Qed.

(** ** Requests that reach a handler *)

Lemma deliver_to_empty_handler GetLocalIp message header tag stream n :
  with_empty_handler tag ->
  let r := deliver GetLocalIp message header tag stream n in
  state r = n
  /\ outcome r <> AssertFailed
  /\ Forall (fun e => passes_on message e \/ e = Dispatched tag header) (effects r).
Proof.
  intros Htag r. unfold r, deliver.
  pose proof (relayed_passes_on (connection_manager_ n) header message) as Hrelayed.
  destruct (RelayedMessage header && reply_to_is_connected _ header).
  { cbn [state outcome effects]. split; [done|]. split; [done|].
    eapply Forall_impl; [exact Hrelayed|]. intros e He. by left. }
  destruct (negb (AddressInCloseGroupRange _ _)); [by repeat split|].
  destruct (_ && _); [by repeat split|].
  destruct Htag as [-> | ->]; unfold dispatch.
  - destruct (ParseBody asPutData stream) as [[put_data rest]|]; [|by repeat split].
    cbn. split; [done|]. split; [done|]. constructor; [by right | constructor].
  - destruct (ParseBody asPost stream) as [[post rest]|]; [|by repeat split].
    cbn. split; [done|]. split; [done|]. constructor; [by right | constructor].
Qed.

(** X19.  A [PutData] and a [Post] end in a handler with an empty body.
    On such a message the node does nothing outside itself but pass the
    bytes on and, at most once, start that handler: nothing is handed to
    the application, nothing is stored, no answer is composed, and the
    counter stays where it was. *)
Theorem PutData_and_Post_reach_an_empty_handler (GetLocalIp : N)
    now peer_id message header tag stream n :
  ParseHeader message = Some (header, tag, stream) ->
  with_empty_handler tag ->
  let r := MessageReceived GetLocalIp now peer_id message n in
  outcome r <> AssertFailed
  /\ Forall (fun e => passes_on message e \/ e = Dispatched tag header) (effects r)
  /\ (dispatches (FilterValue header) (effects r) ≤ 1)%nat
  /\ cache_ (state r) = cache_ n
  /\ message_id_ (state r) = message_id_ n.
Proof.
  intros Hparse Htag r. unfold r.
  destruct (LruCache.Check (filter_ n) now (FilterValue header)) eqn:Hcheck.
  { rewrite (MessageReceived_duplicate _ _ _ _ _ _ _ _ Hparse Hcheck).
    cbn [outcome state effects]. split; [done|]. split; [constructor|].
    split; [|done]. unfold dispatches. simpl. lia. }
  split; [|split; [|split]].
  - rewrite (MessageReceived_run _ _ _ _ _ _ _ _ Hparse Hcheck).
    assert (Hunread : unread tag stream = Some stream)
      by (destruct Htag as [-> | ->]; reflexivity).
    rewrite Hunread. cbv zeta. cbn [after outcome].
    by destruct (deliver_to_empty_handler GetLocalIp message header tag stream
                   (cached now tag stream (remembered now header n)) Htag)
      as (_ & Hout & _).
  - rewrite (MessageReceived_run _ _ _ _ _ _ _ _ Hparse Hcheck).
    assert (Hunread : unread tag stream = Some stream)
      by (destruct Htag as [-> | ->]; reflexivity).
    rewrite Hunread. cbv zeta. cbn [after effects]. apply Forall_app. split.
    + eapply Forall_impl; [apply forwarded_passes_on|]. intros e He. by left.
    + by destruct (deliver_to_empty_handler GetLocalIp message header tag stream
                     (cached now tag stream (remembered now header n)) Htag)
        as (_ & _ & Heffects).
  - rewrite (MessageReceived_first _ _ _ _ _ _ _ _ Hparse Hcheck).
    pose proof (dispatch_bound_process GetLocalIp (FilterValue header) now message
                  header tag stream
                  (set_filter (LruCache.Add (filter_ n) now (FilterValue header) tt) n))
      as Hbound.
    unfold share in Hbound. by rewrite bool_decide_eq_true_2 in Hbound.
  - split.
    + rewrite (MessageReceived_run _ _ _ _ _ _ _ _ Hparse Hcheck).
      assert (Hunread : unread tag stream = Some stream)
        by (destruct Htag as [-> | ->]; reflexivity).
      rewrite Hunread. cbv zeta. cbn [after state].
      destruct (deliver_to_empty_handler GetLocalIp message header tag stream
                  (cached now tag stream (remembered now header n)) Htag)
        as (-> & _).
      by destruct Htag as [-> | ->].
    + rewrite (MessageReceived_run _ _ _ _ _ _ _ _ Hparse Hcheck).
      assert (Hunread : unread tag stream = Some stream)
        by (destruct Htag as [-> | ->]; reflexivity).
      rewrite Hunread. cbv zeta. cbn [after state].
      destruct (deliver_to_empty_handler GetLocalIp message header tag stream
                  (cached now tag stream (remembered now header n)) Htag)
        as (-> & _).
      by destruct Htag as [-> | ->].
Qed.

(** X19 for [sample_put_data] at [joined_node]. *)
Lemma PutData_and_Post_reach_an_empty_handler_witness :
  Forall (fun e => passes_on sample_put_data e
                   \/ e = Dispatched TagPutData (sample_header 9%N 1 7%N))
    (effects (MessageReceived 2130706433%N 0 9%N sample_put_data joined_node)).
Proof.
  destruct (PutData_and_Post_reach_an_empty_handler 2130706433%N 0 9%N sample_put_data
              (sample_header 9%N 1 7%N) TagPutData
              [EncBody (BodyPutData {| put_data_tag := 1%N; put_data_payload := [1%N] |})]
              joined_node) as (_ & Heffects & _).
  - reflexivity.
  - left. reflexivity.
  - exact Heffects.
Defined.

(** ** Accounts *)

Module AccountOrder.
Import MaidManagerAccount.

Lemma less_spec a b :
  less a b = true
  <-> (name a < name b
       \/ name a = name b
          /\ (stored a < stored b
              \/ stored a = stored b /\ available a < available b))%N.
Proof.
  unfold less.
  destruct (N.ltb_spec (name a) (name b)), (N.ltb_spec (name b) (name a)),
    (N.ltb_spec (stored a) (stored b)), (N.ltb_spec (stored b) (stored a)),
    (N.ltb_spec (available a) (available b));
    simpl; split; intros; try lia; try discriminate; reflexivity.
Qed.

Lemma less_false a b :
  less a b = false
  <-> (name b < name a
       \/ name a = name b
          /\ (stored b < stored a
              \/ stored a = stored b /\ available b ≤ available a))%N.
Proof.
  rewrite <- not_true_iff_false, less_spec. lia.
Qed.

Lemma same_members a b :
  name a = name b -> stored a = stored b -> available a = available b -> a = b.
Proof. destruct a, b; simpl; congruence. Qed.

End AccountOrder.

(** X20.  [operator<] of an account is a strict total order that agrees
    with [operator==]: no account is less than itself, less is
    transitive, two accounts neither of which is less than the other
    are the same account, and [operator==] holds of the same account
    only. *)
Theorem account_less_is_a_strict_total_order (a b c : MaidManagerAccount.t) :
  MaidManagerAccount.less a a = false
  /\ (MaidManagerAccount.less a b = true -> MaidManagerAccount.less b c = true ->
      MaidManagerAccount.less a c = true)
  /\ (MaidManagerAccount.less a b = false -> MaidManagerAccount.less b a = false ->
      a = b)
  /\ (MaidManagerAccount.equal a b = true <-> a = b)
  /\ MaidManagerAccount.not_equal a b = negb (MaidManagerAccount.equal a b).
Proof.
  split; [|split; [|split; [|split]]].
  - apply AccountOrder.less_false. lia.
  - rewrite !AccountOrder.less_spec. lia.
  - rewrite !AccountOrder.less_false. intros Hab Hba.
    apply AccountOrder.same_members; lia.
  - unfold MaidManagerAccount.equal.
    rewrite !andb_true_iff, !N.eqb_eq. split.
    + intros [[Hname Hstored] Havailable]. by apply AccountOrder.same_members.
    + by intros ->.
  - reflexivity.
Qed.

(** X20 for [small_account], [large_account] and an account with a
    greater name. *)
Lemma account_less_is_a_strict_total_order_witness :
  MaidManagerAccount.less small_account
    {| MaidManagerAccount.name := 8%N; MaidManagerAccount.stored := 0%N;
       MaidManagerAccount.available := 0%N |}
  = true
  /\ small_account = small_account.
Proof.
  split.
  - destruct (account_less_is_a_strict_total_order small_account large_account
                {| MaidManagerAccount.name := 8%N; MaidManagerAccount.stored := 0%N;
                   MaidManagerAccount.available := 0%N |}) as (_ & Htransitive & _).
    apply Htransitive; reflexivity.
  - destruct (account_less_is_a_strict_total_order small_account small_account
                small_account) as (_ & _ & Hsame & _).
    apply Hsame; reflexivity.
Defined.

(** X21.  [operator>] of an account returns what [operator<] returns,
    so [operator<=], its negation, is [operator>=]: an account that is
    less than another is not less-or-equal to it, and [a <= b] holds
    exactly when [b] is less than [a] or the two are the same. *)
Theorem account_less_equal_is_greater_equal (a b : MaidManagerAccount.t) :
  MaidManagerAccount.greater a b = MaidManagerAccount.less a b
  /\ MaidManagerAccount.less_equal a b = MaidManagerAccount.greater_equal a b
  /\ (MaidManagerAccount.less a b = true -> MaidManagerAccount.less_equal a b = false)
  /\ (MaidManagerAccount.less_equal a b = true
      <-> MaidManagerAccount.less b a = true \/ a = b).
Proof.
  split; [reflexivity|]. split; [reflexivity|]. split.
  - intros Hless. unfold MaidManagerAccount.less_equal, MaidManagerAccount.greater.
    by rewrite Hless.
  - unfold MaidManagerAccount.less_equal, MaidManagerAccount.greater.
    rewrite negb_true_iff. split.
    + intros Hab. destruct (MaidManagerAccount.less b a) eqn:Hba; [by left|].
      right. revert Hab Hba. rewrite !AccountOrder.less_false. intros Hab Hba.
      apply AccountOrder.same_members; lia.
    + intros [Hba | ->].
      * revert Hba. rewrite AccountOrder.less_spec, AccountOrder.less_false. lia.
      * apply AccountOrder.less_false. lia.
Qed.

(** X21 for [small_account] and [large_account]. *)
Lemma account_less_equal_is_greater_equal_witness :
  MaidManagerAccount.less_equal small_account large_account = false
  /\ MaidManagerAccount.less_equal large_account small_account = true.
Proof.
  destruct (account_less_equal_is_greater_equal small_account large_account)
    as (_ & _ & Hless & _).
  destruct (account_less_equal_is_greater_equal large_account small_account)
    as (_ & _ & _ & Hgreater).
  split.
  - apply Hless. reflexivity.
  - apply Hgreater. left. reflexivity.
Defined.
